(** * Sleep timer: the countdown engine of [src/timer.ts]

    A shallow embedding of the [SleepTimer] class together with the part of
    the JavaScript runtime it talks to (the clock, [setInterval] /
    [setTimeout] / [clearInterval], the two platform collaborators
    [pauseMedia] and [suspendSystem], and the console).

    Modelling conventions.
    - A JavaScript [number] that enters the arithmetic of the timer (the
      [minutes] argument of [start], [totalSeconds], [remainingSeconds]) is
      an IEEE 754 binary64 value of type [number]: [NaN], an infinity, or a
      finite value [m * 2^e].  Products and differences are rounded to the
      nearest double, ties to the even mantissa, with gradual underflow and
      overflow to an infinity.  The sign of zero is not kept: nothing in the
      program divides by a zero or otherwise tells [-0] from [0]
      ([JSON.stringify] and template strings print both as [0]).  Epoch
      times and delays, which the program only stores or hands to the
      runtime, are [Z].
    - The engine is single-threaded: every method body and every
      continuation of the [async] method [expire] runs to its next [await]
      without interleaving.  Each such run is one function of type [M unit]
      in a state monad over [World]; the event loop picks the next one
      according to an [Input].
    - A registered callback is an external handler: it is given the snapshot
      that [getState()] would show it and either returns or throws.  The
      callbacks of the model do not call back into the timer ([start],
      [cancel], [onExpire]); what is proved of an expiry is proved for such
      callbacks.  The program itself registers none.

    Around the engine the file also embeds its two collaborators
    ([src/platform.ts], the shell being a parameter), the HTTP layer that
    calls it ([src/index.ts], the embedded files being parameters) and the
    clock text of the page ([public/app.js]). *)

From Stdlib Require Import ZArith List String Bool Lia.
From Stdlib Require Import Ascii DecimalString.
From Stdlib Require PrimFloat FloatOps SpecFloat.
Import ListNotations.
Open Scope Z_scope.

(** * The model *)

(** ** JavaScript numbers *)

(** A binary64 value: [Finite m e] is [m * 2^e].  A whole number [z] is
    written [Finite z 0], which is what every operation below returns for
    it. *)
Inductive number : Type :=
| NaN
| Infinity (negative : bool)
| Finite (m e : Z).

Definition integer (z : Z) : number := Finite z 0.
Coercion integer : Z >-> number.

(** [m / 2^s] rounded to the nearest whole number, a tie going to the even
    one. *)
Definition round_half_even (m s : Z) : Z :=
  let q := m / 2 ^ s in
  let r := m mod 2 ^ s in
  let half := 2 ^ (s - 1) in
  if r <? half then q
  else if half <? r then q + 1
  else if Z.even q then q else q + 1.

(** The double [q * 2^t], for a mantissa [q] of at most 53 bits: an
    infinity from [2^1024] on, a whole number in the form [Finite z 0]. *)
Definition finite (q t : Z) : number :=
  if 0 <=? t then
    let z := q * 2 ^ t in
    if 2 ^ 1024 <=? Z.abs z then Infinity (z <? 0) else Finite z 0
  else if q mod 2 ^ (- t) =? 0 then Finite (q / 2 ^ (- t)) 0
  else Finite q t.

(** The double nearest to [m * 2^e]: 53 bits are kept, the last place
    being no finer than [2^-1074]. *)
Definition round64 (m e : Z) : number :=
  let b := Z.log2 (Z.abs m) + 1 in
  let t := Z.max (b + e - 53) (-1074) in
  if t <=? e then finite m e else finite (round_half_even m (t - e)) t.

Definition is_zero (x : number) : bool :=
  match x with Finite m _ => m =? 0 | _ => false end.

Definition is_nan (x : number) : bool :=
  match x with NaN => true | _ => false end.

Definition is_negative (x : number) : bool :=
  match x with Finite m _ => m <? 0 | Infinity s => s | NaN => false end.

(** [x * y] *)
Definition number_mul (x y : number) : number :=
  match x, y with
  | NaN, _ | _, NaN => NaN
  | Finite m e, Finite m' e' => round64 (m * m') (e + e')
  | _, _ =>
      if is_zero x || is_zero y then NaN
      else Infinity (xorb (is_negative x) (is_negative y))
  end.

(** [x - y] *)
Definition number_sub (x y : number) : number :=
  match x, y with
  | NaN, _ | _, NaN => NaN
  | Infinity s, Infinity s' => if Bool.eqb s s' then NaN else Infinity s
  | Infinity s, Finite _ _ => Infinity s
  | Finite _ _, Infinity s' => Infinity (negb s')
  | Finite m e, Finite m' e' =>
      let c := Z.min e e' in
      round64 (m * 2 ^ (e - c) - m' * 2 ^ (e' - c)) c
  end.

(** [x <= y] *)
Definition number_leb (x y : number) : bool :=
  match x, y with
  | NaN, _ | _, NaN => false
  | Infinity s, Infinity s' => s || negb s'
  | Infinity s, Finite _ _ => s
  | Finite _ _, Infinity s' => negb s'
  | Finite m e, Finite m' e' =>
      let c := Z.min e e' in
      m * 2 ^ (e - c) <=? m' * 2 ^ (e' - c)
  end.

(** [x < y]; [x > y] is [y < x]. *)
Definition number_ltb (x y : number) : bool :=
  match x, y with
  | NaN, _ | _, NaN => false
  | Infinity s, Infinity s' => s && negb s'
  | Infinity s, Finite _ _ => s
  | Finite _ _, Infinity s' => negb s'
  | Finite m e, Finite m' e' =>
      let c := Z.min e e' in
      m * 2 ^ (e - c) <? m' * 2 ^ (e' - c)
  end.

(** The greatest whole number not above [m * 2^e]. *)
Definition floorZ (m e : Z) : Z :=
  if 0 <=? e then m * 2 ^ e else m / 2 ^ (- e).

(** [Math.floor(x)] *)
Definition Math_floor (x : number) : number :=
  match x with
  | Finite m e => Finite (floorZ m e) 0
  | _ => x
  end.

Definition number_le (x y : number) : Prop := number_leb x y = true.
Definition number_lt (x y : number) : Prop := number_ltb x y = true.

Declare Scope number_scope.
Delimit Scope number_scope with number.
Notation "x <= y" := (number_le x y) : number_scope.
Notation "x < y" := (number_lt x y) : number_scope.
Notation "x <= y <= z" := (number_le x y /\ number_le y z) : number_scope.

(** ** Data model *)

(** [interface TimerState] *)
Record TimerState : Type := mkTimerState {
  isRunning : bool;
  remainingSeconds : number;
  totalSeconds : number;
  startedAt : option Z
}.

(** The object literal used by the field initialiser and by [cancel]. *)
Definition idle : TimerState :=
  {| isRunning := false; remainingSeconds := 0; totalSeconds := 0;
     startedAt := None |}.

(** How one call of a [TimerCallback] ends. *)
Inductive Completion : Type :=
| Returns
| Throws (e : string).

(** [type TimerCallback = () => void], tagged so that calls can be told
    apart in the trace.  A callback of the model looks at the state and
    returns or throws; it does not call the timer's own methods. *)
Record TimerCallback : Type := mkCallback {
  cb_tag : nat;
  cb_body : TimerState -> Completion
}.

(** The [{ success, message }] object a collaborator resolves with. *)
Record PlatformResult : Type := mkResult {
  success : bool;
  message : string
}.

Inductive Collaborator : Type := pauseMedia | suspendSystem.

(** Timer handles and promise identities. *)
Abbreviation Handle := nat (only parsing).

(** What a runtime timer runs when it fires: the arrow function
    [() => this.tick()] given to [setInterval], or the [resolve] of the
    settle promise given to [setTimeout]. *)
Inductive TimerAction : Type := RunTick | ResolveSettle.

Record JsTimer : Type := mkJsTimer {
  tm_handle : Handle;
  tm_due : Z;
  tm_period : option Z;   (* [Some ms] for setInterval, [None] for setTimeout *)
  tm_action : TimerAction
}.

(** The lines written to the console. *)
Inductive LogLine : Type :=
| LogStarted (minutes : number) (total : number)
| LogCancelled
| LogExpired
| LogPauseMedia (msg : string)
| LogSuspend (msg : string).

(** Calls that leave the engine, in the order they are made. *)
Inductive Effect : Type :=
| ConsoleLog (l : LogLine)
| ConsoleError (e : string)
| SetIntervalCall (h : Handle) (ms : Z)
| ClearIntervalCall (h : Handle)
| SetTimeoutCall (h : Handle) (ms : Z)
| CallbackCall (tag : nat) (seen : TimerState)
| CollaboratorCall (c : Collaborator) (p : Handle).

(** The [SleepTimer] singleton (first three fields) and the runtime around
    it.  A timer handle is an object of the runtime, so the test
    [if (this.intervalId)] asks whether the field is [Some] handle; the
    numbers only tell handles apart.  [pending] holds, for every activation of [expire] suspended at an
    [await] of a collaborator, the promise it waits for.  [trace] is
    chronological, each effect stamped with the clock. *)
Record World : Type := mkWorld {
  state : TimerState;
  intervalId : option Handle;
  onExpireCallbacks : list TimerCallback;
  now : Z;
  timers : list JsTimer;
  pending : list (Handle * Collaborator);
  fresh : Handle;
  trace : list (Z * Effect)
}.

Definition init (t0 : Z) : World :=
  {| state := idle; intervalId := None; onExpireCallbacks := [];
     now := t0; timers := []; pending := []; fresh := 0%nat; trace := [] |}.

(** ** A state monad over [World] *)

Definition M (A : Type) : Type := World -> A * World.

Definition ret {A : Type} (a : A) : M A := fun w => (a, w).

Definition bind {A B : Type} (m : M A) (k : A -> M B) : M B :=
  fun w => let (a, w') := m w in k a w'.

Declare Scope timer_scope.
Delimit Scope timer_scope with timer.
Notation "x <- m ;; k" := (bind m (fun x => k))
  (at level 61, m at next level, right associativity) : timer_scope.
Notation "m ;; k" := (bind m (fun _ => k))
  (at level 61, right associativity) : timer_scope.
Open Scope timer_scope.

Definition exec {A : Type} (m : M A) (w : World) : World := snd (m w).
Definition eval {A : Type} (m : M A) (w : World) : A := fst (m w).

(** Field access on [this]. *)
Definition get_state : M TimerState := fun w => (state w, w).
Definition get_intervalId : M (option Handle) := fun w => (intervalId w, w).
Definition get_callbacks : M (list TimerCallback) :=
  fun w => (onExpireCallbacks w, w).

Definition set_state (s : TimerState) : M unit := fun w =>
  (tt, {| state := s; intervalId := intervalId w;
          onExpireCallbacks := onExpireCallbacks w; now := now w;
          timers := timers w; pending := pending w; fresh := fresh w;
          trace := trace w |}).

Definition set_intervalId (i : option Handle) : M unit := fun w =>
  (tt, {| state := state w; intervalId := i;
          onExpireCallbacks := onExpireCallbacks w; now := now w;
          timers := timers w; pending := pending w; fresh := fresh w;
          trace := trace w |}).

Definition set_callbacks (l : list TimerCallback) : M unit := fun w =>
  (tt, {| state := state w; intervalId := intervalId w;
          onExpireCallbacks := l; now := now w;
          timers := timers w; pending := pending w; fresh := fresh w;
          trace := trace w |}).

(** Single-field writes on [this.state]. *)
Definition with_isRunning (b : bool) (s : TimerState) : TimerState :=
  {| isRunning := b; remainingSeconds := remainingSeconds s;
     totalSeconds := totalSeconds s; startedAt := startedAt s |}.

Definition with_remainingSeconds (r : number) (s : TimerState) : TimerState :=
  {| isRunning := isRunning s; remainingSeconds := r;
     totalSeconds := totalSeconds s; startedAt := startedAt s |}.

Definition modify_state (f : TimerState -> TimerState) : M unit :=
  s <- get_state ;; set_state (f s).

(** ** Runtime primitives *)

Definition Date_now : M Z := fun w => (now w, w).

Definition emit (e : Effect) : M unit := fun w =>
  (tt, {| state := state w; intervalId := intervalId w;
          onExpireCallbacks := onExpireCallbacks w; now := now w;
          timers := timers w; pending := pending w; fresh := fresh w;
          trace := trace w ++ [(now w, e)] |}).

Definition console_log (l : LogLine) : M unit := emit (ConsoleLog l).
Definition console_error (e : string) : M unit := emit (ConsoleError e).

Definition set_timers (ts : list JsTimer) : M unit := fun w =>
  (tt, {| state := state w; intervalId := intervalId w;
          onExpireCallbacks := onExpireCallbacks w; now := now w;
          timers := ts; pending := pending w; fresh := fresh w;
          trace := trace w |}).

Definition set_pending (ps : list (Handle * Collaborator)) : M unit := fun w =>
  (tt, {| state := state w; intervalId := intervalId w;
          onExpireCallbacks := onExpireCallbacks w; now := now w;
          timers := timers w; pending := ps; fresh := fresh w;
          trace := trace w |}).

Definition set_now (t : Z) : M unit := fun w =>
  (tt, {| state := state w; intervalId := intervalId w;
          onExpireCallbacks := onExpireCallbacks w; now := t;
          timers := timers w; pending := pending w; fresh := fresh w;
          trace := trace w |}).

(** Allocate the next handle. *)
Definition gensym : M Handle := fun w =>
  (fresh w, {| state := state w; intervalId := intervalId w;
               onExpireCallbacks := onExpireCallbacks w; now := now w;
               timers := timers w; pending := pending w; fresh := S (fresh w);
               trace := trace w |}).

Definition has_handle (h : Handle) (t : JsTimer) : bool :=
  Nat.eqb (tm_handle t) h.

Definition drop_timer (h : Handle) (ts : list JsTimer) : list JsTimer :=
  filter (fun t => negb (has_handle h t)) ts.

Definition schedule (period : option Z) (a : TimerAction) (ms : Z) : M Handle :=
  h <- gensym ;;
  t <- Date_now ;;
  ts <- (fun w => (timers w, w)) ;;
  set_timers (ts ++ [ {| tm_handle := h; tm_due := t + ms;
                         tm_period := period; tm_action := a |} ]) ;;
  ret h.

Definition setInterval (a : TimerAction) (ms : Z) : M Handle :=
  h <- schedule (Some ms) a ms ;;
  emit (SetIntervalCall h ms) ;;
  ret h.

Definition setTimeout (a : TimerAction) (ms : Z) : M Handle :=
  h <- schedule None a ms ;;
  emit (SetTimeoutCall h ms) ;;
  ret h.

Definition clearInterval (h : Handle) : M unit :=
  emit (ClearIntervalCall h) ;;
  ts <- (fun w => (timers w, w)) ;;
  set_timers (drop_timer h ts).

(** [await c()]: the collaborator is called now, and the caller is parked
    until the promise settles. *)
Definition await_collaborator (c : Collaborator) : M unit :=
  p <- gensym ;;
  emit (CollaboratorCall c p) ;;
  ps <- (fun w => (pending w, w)) ;;
  set_pending (ps ++ [(p, c)]).

(** ** The methods of [SleepTimer] *)

(** [getState()] *)
Definition getState : M TimerState := get_state.

(** [start(minutes)] *)
Definition start (minutes : number) : M TimerState :=
  i <- get_intervalId ;;
  match i with
  | Some h => clearInterval h
  | None => ret tt
  end ;;
  let total := Math_floor (number_mul minutes 60) in
  t <- Date_now ;;
  set_state {| isRunning := true; remainingSeconds := total;
               totalSeconds := total; startedAt := Some t |} ;;
  h <- setInterval RunTick 1000 ;;
  set_intervalId (Some h) ;;
  console_log (LogStarted minutes total) ;;
  getState.

(** [cancel()] *)
Definition cancel : M TimerState :=
  i <- get_intervalId ;;
  match i with
  | Some h => clearInterval h ;; set_intervalId None
  | None => ret tt
  end ;;
  set_state {| isRunning := false; remainingSeconds := 0;
               totalSeconds := 0; startedAt := None |} ;;
  console_log LogCancelled ;;
  getState.

(** [onExpire(callback)] *)
Definition onExpire (callback : TimerCallback) : M unit :=
  cbs <- get_callbacks ;;
  set_callbacks (cbs ++ [callback]).

(** One iteration of the loop in [expire]: [try { callback() } catch (e)
    { console.error(...) }]. *)
Definition try_callback (callback : TimerCallback) : M unit :=
  s <- getState ;;
  emit (CallbackCall (cb_tag callback) s) ;;
  match cb_body callback s with
  | Returns => ret tt
  | Throws e => console_error e
  end.

Fixpoint for_of {A : Type} (l : list A) (body : A -> M unit) : M unit :=
  match l with
  | [] => ret tt
  | x :: l' => body x ;; for_of l' body
  end.

(** [expire()], from its entry to the first [await]. *)
Definition expire : M unit :=
  console_log LogExpired ;;
  i <- get_intervalId ;;
  match i with
  | Some h => clearInterval h ;; set_intervalId None
  | None => ret tt
  end ;;
  modify_state (with_isRunning false) ;;
  modify_state (with_remainingSeconds 0) ;;
  cbs <- get_callbacks ;;
  for_of cbs try_callback ;;
  await_collaborator pauseMedia.

(** [expire()], resumed with [pauseResult], up to the settle [await]. *)
Definition expire_after_pause (pauseResult : PlatformResult) : M unit :=
  console_log (LogPauseMedia (message pauseResult)) ;;
  setTimeout ResolveSettle 1000 ;;
  ret tt.

(** [expire()], resumed after the settle delay, up to the last [await]. *)
Definition expire_after_settle : M unit :=
  await_collaborator suspendSystem.

(** [expire()], resumed with [suspendResult], to its end. *)
Definition expire_after_suspend (suspendResult : PlatformResult) : M unit :=
  console_log (LogSuspend (message suspendResult)).

(** [tick()] *)
Definition tick : M unit :=
  s <- get_state ;;
  if negb (isRunning s) then ret tt
  else
    modify_state
      (fun s => with_remainingSeconds (number_sub (remainingSeconds s) 1) s) ;;
    s' <- get_state ;;
    if number_leb (remainingSeconds s') 0 then expire else ret tt.

(** ** The event loop *)

Inductive Input : Type :=
| CallStart (minutes : number)
| CallCancel
| CallGetState
| CallOnExpire (callback : TimerCallback)
| Elapse (ms : Z)
| Fire (h : Handle)
| Resolve (p : Handle) (r : PlatformResult).

Definition run_action (a : TimerAction) : M unit :=
  match a with
  | RunTick => tick
  | ResolveSettle => expire_after_settle
  end.

(** A timer fires only if it is still installed and due.  An interval is
    re-armed before its callback runs, a timeout is removed. *)
Definition fire (h : Handle) : M unit := fun w =>
  match find (has_handle h) (timers w) with
  | Some t =>
      if tm_due t <=? now w then
        (match tm_period t with
         | Some ms =>
             set_timers (drop_timer h (timers w) ++
                         [ {| tm_handle := h; tm_due := now w + ms;
                              tm_period := Some ms;
                              tm_action := tm_action t |} ])
         | None => set_timers (drop_timer h (timers w))
         end ;;
         run_action (tm_action t)) w
      else (tt, w)
  | None => (tt, w)
  end.

Definition is_promise (p : Handle) (x : Handle * Collaborator) : bool :=
  Nat.eqb (fst x) p.

(** A promise settles at most once; the activation waiting for it resumes. *)
Definition resolve (p : Handle) (r : PlatformResult) : M unit := fun w =>
  match find (is_promise p) (pending w) with
  | Some (_, c) =>
      (set_pending (filter (fun x => negb (is_promise p x)) (pending w)) ;;
       match c with
       | pauseMedia => expire_after_pause r
       | suspendSystem => expire_after_suspend r
       end) w
  | None => (tt, w)
  end.

Definition elapse (ms : Z) : M unit :=
  t <- Date_now ;; set_now (t + Z.max 0 ms).

Definition dispatch (i : Input) : M unit :=
  match i with
  | CallStart minutes => start minutes ;; ret tt
  | CallCancel => cancel ;; ret tt
  | CallGetState => getState ;; ret tt
  | CallOnExpire callback => onExpire callback
  | Elapse ms => elapse ms
  | Fire h => fire h
  | Resolve p r => resolve p r
  end.

Definition step (w : World) (i : Input) : World := exec (dispatch i) w.

Definition run (inputs : list Input) (w : World) : World :=
  fold_left step inputs w.

(** * Observations *)

(** ** Worlds *)

Definition opt_list {A : Type} (o : option A) : list A :=
  match o with Some a => [a] | None => [] end.

Definition runs_tick (t : JsTimer) : bool :=
  match tm_action t with RunTick => true | ResolveSettle => false end.

Definition resolves_settle (t : JsTimer) : bool :=
  match tm_action t with RunTick => false | ResolveSettle => true end.

(** The handles of the installed timers that drive [tick]. *)
Definition tick_sources (w : World) : list Handle :=
  map tm_handle (filter runs_tick (timers w)).

Definition collab_eqb (c d : Collaborator) : bool :=
  match c, d with
  | pauseMedia, pauseMedia | suspendSystem, suspendSystem => true
  | _, _ => false
  end.

Definition is_call (c : Collaborator) (e : Z * Effect) : bool :=
  match snd e with
  | CollaboratorCall d _ => collab_eqb c d
  | _ => false
  end.

(** How often collaborator [c] has been called so far. *)
Definition calls (c : Collaborator) (w : World) : nat :=
  List.length (filter (is_call c) (trace w)).

(** Effects of the callback loop run at time [t] on snapshot [s]. *)
Definition callback_effects (t : Z) (s : TimerState)
    (cbs : list TimerCallback) : list (Z * Effect) :=
  flat_map (fun cb =>
    (t, CallbackCall (cb_tag cb) s) ::
    match cb_body cb s with
    | Returns => []
    | Throws e => [(t, ConsoleError e)]
    end) cbs.

(** What the guarded [clearInterval(this.intervalId)] leaves and emits. *)
Definition cleared_timers (w : World) : list JsTimer :=
  match intervalId w with
  | Some h => drop_timer h (timers w)
  | None => timers w
  end.

Definition cleared_effects (w : World) : list (Z * Effect) :=
  map (fun h => (now w, ClearIntervalCall h)) (opt_list (intervalId w)).

(** ** Updated states and worlds *)

(** The state [expire] leaves behind: two fields written, two kept. *)
Definition expired (s : TimerState) : TimerState :=
  {| isRunning := false; remainingSeconds := 0;
     totalSeconds := totalSeconds s; startedAt := startedAt s |}.

(** [w] with its timer state replaced. *)
Definition put_state (s : TimerState) (w : World) : World :=
  exec (set_state s) w.

Definition other_handle (h x : Handle) : bool := negb (Nat.eqb x h).

(** ** Well-formed worlds *)

Definition periodic (t : JsTimer) : bool :=
  match tm_period t with Some _ => true | None => false end.

Record wf (w : World) : Prop := mkWf {
  wf_sources : tick_sources w = opt_list (intervalId w);
  wf_running :
    isRunning (state w) =
    match intervalId w with Some _ => true | None => false end;
  wf_nodup : NoDup (map tm_handle (timers w));
  wf_timers_fresh : Forall (fun t => (tm_handle t < fresh w)%nat) (timers w);
  wf_pending_fresh : Forall (fun x => (fst x < fresh w)%nat) (pending w);
  wf_kinds : Forall (fun t => runs_tick t = periodic t) (timers w)
}.

Definition put_timers (ts : list JsTimer) (w : World) : World :=
  exec (set_timers ts) w.

Definition put_pending (ps : list (Handle * Collaborator)) (w : World) : World :=
  exec (set_pending ps) w.

(** The timer list once timer [t] with handle [h] has been taken for
    firing: an interval is re-armed, a timeout is gone. *)
Definition after_firing (h : Handle) (t : JsTimer) (w : World) : list JsTimer :=
  match tm_period t with
  | Some ms =>
      drop_timer h (timers w) ++
      [ {| tm_handle := h; tm_due := now w + ms; tm_period := Some ms;
           tm_action := tm_action t |} ]
  | None => drop_timer h (timers w)
  end.

Definition unparked (p : Handle) (w : World) : list (Handle * Collaborator) :=
  filter (fun x => negb (is_promise p x)) (pending w).

(** ** Counting collaborator calls *)

Definition count_calls (c : Collaborator) (es : list (Z * Effect)) : nat :=
  List.length (filter (is_call c) es).

(** A countdown that can still expire. *)
Definition armed (w : World) : nat :=
  if isRunning (state w) then 1%nat else 0%nat.

(** Activations of [expire] waiting for collaborator [c]. *)
Definition parked (c : Collaborator) (w : World) : nat :=
  List.length (filter (fun x => collab_eqb c (snd x)) (pending w)).

(** Activations of [expire] sitting in the settle delay. *)
Definition settling (w : World) : nat :=
  List.length (filter resolves_settle (timers w)).

(** Expiry pipelines that have called [pauseMedia] but not yet
    [suspendSystem]. *)
Definition in_flight (w : World) : nat :=
  (parked pauseMedia w + settling w)%nat.

Definition is_start (i : Input) : bool :=
  match i with CallStart _ => true | _ => false end.

Definition is_cancel (i : Input) : bool :=
  match i with CallCancel => true | _ => false end.

(** ** How the timer state moves *)

(** The state [start(minutes)] installs when the clock shows [t]. *)
Definition started (minutes : number) (t : Z) : TimerState :=
  {| isRunning := true;
     remainingSeconds := Math_floor (number_mul minutes 60);
     totalSeconds := Math_floor (number_mul minutes 60);
     startedAt := Some t |}.

(** What [remainingSeconds--] stores. *)
Definition decrement (x : number) : number := number_sub x 1.

(** The effect of one [tick()] on the timer state alone. *)
Definition after_tick (s : TimerState) : TimerState :=
  if isRunning s
  then if number_leb (decrement (remainingSeconds s)) 0
       then expired s
       else with_remainingSeconds (decrement (remainingSeconds s)) s
  else s.

Definition state_moved (w : World) (i : Input) (s' : TimerState) : Prop :=
  match i with
  | CallStart minutes => s' = started minutes (now w)
  | CallCancel => s' = idle
  | Fire _ => s' = state w \/ s' = after_tick (state w)
  | _ => s' = state w
  end.

(** What holds of every timer state the engine can show. *)
Record state_ok (s : TimerState) : Prop := mkStateOk {
  ok_idle_remaining : isRunning s = false -> remainingSeconds s = 0;
  ok_never_started : startedAt s = None -> s = idle
}.

(** [start] is given a duration that is not negative ([0 <= minutes]
    holds, so the duration is a number). *)
Definition start_nonneg (i : Input) : Prop :=
  match i with CallStart minutes => (0 <= minutes)%number | _ => True end.

(** The whole number [z] is a double. *)
Definition is_double (z : Z) : Prop := round64 z 0 = integer z.

(** [m * 2^e] is the whole number [z]. *)
Definition has_value (m e z : Z) : Prop :=
  if 0 <=? e then m * 2 ^ e = z else m = z * 2 ^ (- e).

(** A count of seconds that is not negative: a whole double, or
    [Infinity]. *)
Definition count (x : number) : Prop :=
  x = Infinity false \/ exists z, x = integer z /\ 0 <= z /\ is_double z.

Definition within_total (s : TimerState) : Prop :=
  count (remainingSeconds s) /\
  (0 <= remainingSeconds s <= totalSeconds s)%number.

(** ** Timers that are due *)

(** Timer [h] is installed and its time has come. *)
Definition due (h : Handle) (w : World) : bool :=
  match find (has_handle h) (timers w) with
  | Some t => tm_due t <=? now w
  | None => false
  end.

(** ** The expiry sequence, stage by stage *)

(** What [expire] does between its entry and the first [await], when the
    interval [h] is installed. *)
Definition expiry_effects (h : Handle) (w : World) : list (Z * Effect) :=
  [ (now w, ConsoleLog LogExpired); (now w, ClearIntervalCall h) ] ++
  callback_effects (now w) (expired (state w)) (onExpireCallbacks w) ++
  [ (now w, CollaboratorCall pauseMedia (fresh w)) ].

(** What the three continuations of [expire] do, the [pauseMedia] promise
    [p] settling at time [t] and the settle timeout firing at time [t']. *)
Definition pipeline_effects (p : Handle) (t t' : Z) (r1 r2 : PlatformResult)
    : list (Z * Effect) :=
  [ (t, ConsoleLog (LogPauseMedia (message r1)));
    (t, SetTimeoutCall (S p) 1000);
    (t', CollaboratorCall suspendSystem (S (S p)));
    (t', ConsoleLog (LogSuspend (message r2))) ].

(** ** Counting down, one second at a time *)

(** [n] seconds pass; after each one the interval [h] fires. *)
Fixpoint seconds (n : nat) (h : Handle) : list Input :=
  match n with
  | O => []
  | S n' => Elapse 1000 :: Fire h :: seconds n' h
  end.

(** Interval [h] runs [tick] every second and is due within a second. *)
Definition ticking (h : Handle) (w : World) : bool :=
  match find (has_handle h) (timers w) with
  | Some t =>
      match tm_action t, tm_period t with
      | RunTick, Some ms => (ms =? 1000) && (tm_due t <=? now w + 1000)
      | _, _ => false
      end
  | None => false
  end.

(** ** Vocabulary of the properties *)

(** A list of inputs in which nobody calls [start]. *)
Definition no_start (inputs : list Input) : bool :=
  forallb (fun i => negb (is_start i)) inputs.

(** The callbacks called, by tag, in the order of the calls. *)
Definition callback_tags (es : list (Z * Effect)) : list nat :=
  flat_map (fun e => match snd e with
                     | CallbackCall tag _ => [tag]
                     | _ => []
                     end) es.

(** The errors written by [console.error], in order. *)
Definition logged_errors (es : list (Z * Effect)) : list string :=
  flat_map (fun e => match snd e with
                     | ConsoleError msg => [msg]
                     | _ => []
                     end) es.

(** What the callbacks of [cbs] throw when shown [s]. *)
Definition thrown (s : TimerState) (cbs : list TimerCallback) : list string :=
  flat_map (fun cb => match cb_body cb s with
                      | Returns => []
                      | Throws e => [e]
                      end) cbs.

(** The part of the trace of [w'] written since [w]. *)
Definition since (w w' : World) : list (Z * Effect) :=
  skipn (List.length (trace w)) (trace w').

(** A list of inputs in which nobody calls [start] or [cancel]. *)
Definition no_start_cancel (inputs : list Input) : bool :=
  forallb (fun i => negb (is_start i || is_cancel i)) inputs.

(** ** More vocabulary for the engine *)

(** The callbacks the inputs register, in order. *)
Definition registered (inputs : list Input) : list TimerCallback :=
  flat_map (fun i => match i with
                     | CallOnExpire callback => [callback]
                     | _ => []
                     end) inputs.

(** How often the inputs call [start]. *)
Definition starts (inputs : list Input) : nat :=
  List.length (filter is_start inputs).

(** ** Durations *)

(** The number [x] is the whole number [z], however it is written. *)
Definition is_whole (x : number) (z : Z) : Prop :=
  match x with
  | Finite m e => has_value m e z
  | _ => False
  end.


(** The doubles that JavaScript writes [1/60], [1/120], [1/20], [-0.1] and
    [0.5]. *)
Definition one_sixtieth : number := Finite 4803839602528529 (-58).
Definition one_120th : number := Finite 4803839602528529 (-59).
Definition one_twentieth : number := Finite 7205759403792794 (-57).
Definition minus_one_tenth : number := Finite (-7205759403792794) (-56).
Definition one_half : number := Finite 1 (-1).

(** ** The doubles of the kernel *)

(** A [number] as a primitive float, and back. *)
Definition to_float (x : number) : PrimFloat.float :=
  FloatOps.SF2Prim
    match x with
    | NaN => SpecFloat.S754_nan
    | Infinity s => SpecFloat.S754_infinity s
    | Finite Z0 _ => SpecFloat.S754_zero false
    | Finite (Zpos p) e => SpecFloat.S754_finite false p e
    | Finite (Zneg p) e => SpecFloat.S754_finite true p e
    end.

Definition of_float (f : PrimFloat.float) : number :=
  match FloatOps.Prim2SF f with
  | SpecFloat.S754_zero _ => Finite 0 0
  | SpecFloat.S754_infinity s => Infinity s
  | SpecFloat.S754_nan => NaN
  | SpecFloat.S754_finite s m e => Finite (if s then Z.neg m else Z.pos m) e
  end.

(** The same value, whatever the mantissa and exponent it is written
    with. *)
Definition same_value (x y : number) : bool :=
  match x, y with
  | NaN, NaN => true
  | _, _ => number_leb x y && number_leb y x
  end.

(** Doubles of every kind: whole and fractional, tiny and huge, of both
    signs, and the three that are not finite. *)
Definition sample_numbers : list number :=
  let positive :=
    [ integer 0; integer 1; integer 5; integer 30; integer 60; integer 480;
      integer 481; one_half; one_sixtieth; one_120th; one_twentieth;
      Finite 4616189618054758 (-50);      (* 4.1 *)
      Finite 4672484613396890 (-50);      (* 4.15 *)
      Finite 4803839602528529 (-57);      (* 1/30 *)
      Finite 6004799503160661 (-54);      (* 1/3 *)
      integer 160000000000000;            (* 1.6e14 *)
      integer 9600000000000000;           (* 9.6e15 *)
      integer (2 ^ 53 - 1); integer (2 ^ 53); integer (2 ^ 53 + 2);
      integer (2 ^ 53 + 4); integer (2 ^ 54 - 2);
      Finite 1 (-1074);                   (* the least positive double *)
      Finite 4503599627370496 (-1074);    (* the least normal double *)
      Finite 9007199254740991 971;        (* the greatest double *)
      Finite 5000000000000000 960 ] in
  positive ++
  map (fun x => match x with
                | Finite m e => Finite (- m) e
                | _ => x
                end) positive ++
  [ NaN; Infinity false; Infinity true ].

(** * The platform collaborators ([src/platform.ts]) *)

Module platform.

(** [type Platform = "darwin" | "linux" | "win32" | "unknown"] *)
Abbreviation Platform := string (only parsing).

(** [getPlatform()], [process.platform] being a parameter. *)
Definition getPlatform (process_platform : string) : Platform :=
  let platform := process_platform in
  if (platform =? "darwin")%string || (platform =? "linux")%string ||
     (platform =? "win32")%string
  then platform
  else "unknown"%string.

(** The shell commands of the two functions. *)
Inductive Command : Type :=
| OsascriptSafariPause      (* osascript -e safariPause *)
| OsascriptChromePause      (* osascript -e chromePause *)
| PlayerctlPause            (* playerctl -a pause *)
| DbusSendPause             (* dbus-send ... org.mpris.MediaPlayer2.Player.Pause *)
| PowershellMediaKey        (* powershell -Command psScript *)
| PmsetSleepnow             (* pmset sleepnow *)
| SystemctlSuspend          (* systemctl suspend *)
| PmSuspend                 (* pm-suspend *)
| Rundll32Suspend.          (* rundll32.exe powrprof.dll,SetSuspendState 0,1,0 *)

(** What the host does with a command: [None] when it succeeds, [Some e]
    when the awaited shell promise rejects, [e] being the error as text. *)
Definition Shell : Type := Command -> option string.

(** How an [async] function body ends. *)
Inductive Outcome (A : Type) : Type :=
| Resolved (a : A)
| Rejected (error : string).

Arguments Resolved {A} a.
Arguments Rejected {A} error.

(** A computation that runs shell commands, logs them in order, and may
    throw. *)
Definition Sh (A : Type) : Type := list Command -> Outcome A * list Command.

Definition sh_ret {A : Type} (a : A) : Sh A := fun l => (Resolved a, l).

Definition sh_bind {A B : Type} (m : Sh A) (k : A -> Sh B) : Sh B :=
  fun l => match m l with
           | (Resolved a, l') => k a l'
           | (Rejected e, l') => (Rejected e, l')
           end.

(** [try { body } catch (e) { handler }] *)
Definition try_catch {A : Type} (body : Sh A) (handler : string -> Sh A)
    : Sh A :=
  fun l => match body l with
           | (Resolved a, l') => (Resolved a, l')
           | (Rejected e, l') => handler e l'
           end.

(** [await $`command`.quiet()] *)
Definition dollar (sh : Shell) (c : Command) : Sh unit :=
  fun l => (match sh c with
            | None => Resolved tt
            | Some e => Rejected e
            end, l ++ [c]).

Declare Scope sh_scope.
Delimit Scope sh_scope with sh.
Notation "m ;; k" := (sh_bind m (fun _ => k))
  (at level 61, right associativity) : sh_scope.

(** [pauseMedia()] *)
Definition pauseMedia (sh : Shell) (process_platform : string)
    : Sh PlatformResult :=
  let platform := getPlatform process_platform in
  try_catch
    (if (platform =? "darwin")%string then
       (try_catch (dollar sh OsascriptSafariPause) (fun _ => sh_ret tt) ;;
        try_catch (dollar sh OsascriptChromePause) (fun _ => sh_ret tt) ;;
        sh_ret {| success := true;
                  message := "Media pause commands sent" |})%sh
     else if (platform =? "linux")%string then
       try_catch
         (dollar sh PlayerctlPause ;;
          sh_ret {| success := true;
                    message := "All media paused via playerctl" |})%sh
         (fun _ =>
            try_catch
              (dollar sh DbusSendPause ;;
               sh_ret {| success := true;
                         message := "Media paused via dbus" |})%sh
              (fun _ =>
                 sh_ret {| success := false;
                           message := "Could not pause media. Install playerctl for best results." |}))
     else if (platform =? "win32")%string then
       (dollar sh PowershellMediaKey ;;
        sh_ret {| success := true; message := "Media key sent" |})%sh
     else
       sh_ret {| success := false;
                 message := ("Unsupported platform: " ++ platform)%string |})
    (fun error =>
       sh_ret {| success := false;
                 message := ("Error pausing media: " ++ error)%string |}).

(** [suspendSystem()] *)
Definition suspendSystem (sh : Shell) (process_platform : string)
    : Sh PlatformResult :=
  let platform := getPlatform process_platform in
  try_catch
    (if (platform =? "darwin")%string then
       (dollar sh PmsetSleepnow ;;
        sh_ret {| success := true;
                  message := "System going to sleep..." |})%sh
     else if (platform =? "linux")%string then
       try_catch
         (dollar sh SystemctlSuspend ;;
          sh_ret {| success := true;
                    message := "System suspending via systemctl..." |})%sh
         (fun _ =>
            try_catch
              (dollar sh PmSuspend ;;
               sh_ret {| success := true;
                         message := "System suspending via pm-suspend..." |})%sh
              (fun _ =>
                 sh_ret {| success := false;
                           message := "Could not suspend. Try: sudo systemctl suspend" |}))
     else if (platform =? "win32")%string then
       (dollar sh Rundll32Suspend ;;
        sh_ret {| success := true; message := "System suspending..." |})%sh
     else
       sh_ret {| success := false;
                 message := ("Unsupported platform: " ++ platform)%string |})
    (fun error =>
       sh_ret {| success := false;
                 message := ("Error suspending system: " ++ error)%string |}).

(** Commands that pause media, commands that suspend the host. *)
Definition pauses_media (c : Command) : bool :=
  match c with
  | OsascriptSafariPause | OsascriptChromePause | PlayerctlPause
  | DbusSendPause | PowershellMediaKey => true
  | _ => false
  end.

Definition suspends_host (c : Command) : bool := negb (pauses_media c).

(** The command succeeds on this host. *)
Definition works (sh : Shell) (c : Command) : bool :=
  match sh c with None => true | Some _ => false end.

End platform.

(** * The HTTP layer ([src/index.ts]) *)

(** What [body.minutes] can be.  The declared type [{ minutes?: number }]
    is not checked at run time: the field is absent, or a number, or any
    other JSON value (a string, a boolean, [null], an array, an object).
    Such a value enters the three places where [minutes] is used
    ([||], the two comparisons, the product in [start]) through
    [ToBoolean] and [ToNumber] only, so it is described by what these two
    make of it. *)
Inductive JsValue : Type :=
| Undefined
| JsNumber (x : number)
| JsOther (truthy : bool) (as_number : number).

Definition ToBoolean (v : JsValue) : bool :=
  match v with
  | Undefined => false
  | JsNumber x => negb (is_zero x || is_nan x)
  | JsOther truthy _ => truthy
  end.

Definition ToNumber (v : JsValue) : number :=
  match v with
  | Undefined => NaN
  | JsNumber x => x
  | JsOther _ as_number => as_number
  end.

(** What [await request.json()] and the read of [body.minutes] give: an
    error is thrown (the text does not parse, or it parses to [null], of
    which no field can be read), or the field is read. *)
Inductive Body : Type :=
| BadJson (error : string)
| JsonBody (minutes : JsValue).

(** A request: [url.pathname] (which begins with a slash), the method, the
    body. *)
Record Request : Type := mkRequest {
  req_path : string;
  req_method : string;
  req_body : Body
}.

(** The argument of [JSON.stringify], or the text of a file. *)
Inductive Payload : Type :=
| StateJson (s : TimerState) (platform : option string)
| ErrorJson (error : string)
| Content (text : string).

Record Response : Type := mkResponse {
  status : Z;
  content_type : option string;
  allow_origin : option string;
  payload : Payload
}.

(** The process: the [timer] singleton in its world, and what
    [console.error("[API Error]", error)] has written. *)
Record Server : Type := mkServer {
  timer : World;
  api_errors : list string
}.

Definition boot (t0 : Z) : Server :=
  {| timer := init t0; api_errors := [] |}.

(** A call of a method of [timer]. *)
Definition on_timer {A : Type} (m : M A) (sv : Server) : A * Server :=
  let (a, w') := m (timer sv) in
  (a, {| timer := w'; api_errors := api_errors sv |}).

(** [new Response(JSON.stringify(p), { status, headers })] *)
Definition json (st : Z) (p : Payload) : Response :=
  {| status := st; content_type := Some "application/json"%string;
     allow_origin := Some "*"%string; payload := p |}.

(** [body.minutes || 30] *)
Definition minutes_or_default (m : JsValue) : JsValue :=
  if ToBoolean m then m else JsNumber 30.

(** [minutes <= 0 || minutes > 480] *)
Definition out_of_range (minutes : JsValue) : bool :=
  number_leb (ToNumber minutes) 0 || number_ltb 480 (ToNumber minutes).

(** [handleApi(request, path)].  [start] uses its argument in the product
    [minutes * 60] only (and in a log line), so it is handed the number
    that [minutes] is there. *)
Definition handleApi (process_platform : string) (request : Request)
    (path : string) (sv : Server) : Response * Server :=
  if ((path =? "/api/status") && (req_method request =? "GET"))%string then
    let (s, sv') := on_timer getState sv in
    (json 200 (StateJson s (Some (platform.getPlatform process_platform))),
     sv')
  else if ((path =? "/api/start-timer") &&
           (req_method request =? "POST"))%string then
    match req_body request with
    | BadJson error =>
        (json 500 (ErrorJson "Internal server error"),
         {| timer := timer sv; api_errors := api_errors sv ++ [error] |})
    | JsonBody m =>
        let minutes := minutes_or_default m in
        if out_of_range minutes
        then (json 400 (ErrorJson "Duration must be between 1 and 480 minutes"),
              sv)
        else let (s, sv') := on_timer (start (ToNumber minutes)) sv in
             (json 200 (StateJson s None), sv')
    end
  else if ((path =? "/api/cancel-timer") &&
           (req_method request =? "POST"))%string then
    let (s, sv') := on_timer cancel sv in
    (json 200 (StateJson s None), sv')
  else (json 404 (ErrorJson "Not found"), sv).

(** [path.replace(/\.\./g, "")]: every pair of dots, found from the left
    and without overlap, is removed. *)
Fixpoint strip_dotdot (s : string) : string :=
  match s with
  | EmptyString => EmptyString
  | String c s' =>
      if Ascii.eqb c "."%char
      then match s' with
           | String c' s'' =>
               if Ascii.eqb c' "."%char then strip_dotdot s''
               else String c (strip_dotdot s')
           | EmptyString => String c EmptyString
           end
      else String c (strip_dotdot s')
  end.

(** An entry of [staticFiles]. *)
Record StaticFile : Type := mkStaticFile {
  file_content : string;
  file_type : string
}.

(** [staticFiles], the three embedded texts being parameters. *)
Definition staticFiles (indexHtml stylesCss appJs : string)
    : list (string * StaticFile) :=
  [ ("/", {| file_content := indexHtml; file_type := "text/html" |});
    ("/index.html", {| file_content := indexHtml; file_type := "text/html" |});
    ("/styles.css", {| file_content := stylesCss; file_type := "text/css" |});
    ("/app.js", {| file_content := appJs;
                   file_type := "application/javascript" |}) ]%string.

(** [files[key]], for a key that begins with a slash. *)
Fixpoint lookup_file (key : string) (files : list (string * StaticFile))
    : option StaticFile :=
  match files with
  | [] => None
  | (k, f) :: files' => if (k =? key)%string then Some f
                        else lookup_file key files'
  end.

(** [serveStatic(path)] *)
Definition serveStatic (files : list (string * StaticFile)) (path : string)
    : Response :=
  let safePath := strip_dotdot path in
  match lookup_file safePath files with
  | Some file =>
      {| status := 200; content_type := Some (file_type file);
         allow_origin := None; payload := Content (file_content file) |}
  | None =>
      match lookup_file "/index.html" files with
      | Some indexFile =>
          {| status := 200; content_type := Some "text/html"%string;
             allow_origin := None;
             payload := Content (file_content indexFile) |}
      | None =>
          {| status := 404; content_type := None; allow_origin := None;
             payload := Content "Not found" |}
      end
  end.

(** The [fetch] handler given to [Bun.serve]. *)
Definition fetch (process_platform : string)
    (files : list (string * StaticFile)) (request : Request) (sv : Server)
    : Response * Server :=
  let path := req_path request in
  if String.prefix "/api/" path
  then handleApi process_platform request path sv
  else (serveStatic files path, sv).

(** What happens to the process: a request arrives, time passes, a timer
    fires, a collaborator settles. *)
Inductive ServerEvent : Type :=
| Http (request : Request)
| Passes (ms : Z)
| Fires (h : Handle)
| Settles (p : Handle) (r : PlatformResult).

Definition serve_step (process_platform : string)
    (files : list (string * StaticFile)) (sv : Server) (e : ServerEvent)
    : Server :=
  match e with
  | Http request => snd (fetch process_platform files request sv)
  | Passes ms => snd (on_timer (dispatch (Elapse ms)) sv)
  | Fires h => snd (on_timer (dispatch (Fire h)) sv)
  | Settles p r => snd (on_timer (dispatch (Resolve p r)) sv)
  end.

Definition serve_run (process_platform : string)
    (files : list (string * StaticFile)) (events : list ServerEvent)
    (sv : Server) : Server :=
  fold_left (serve_step process_platform files) events sv.

(** The pair [..] occurs in the text. *)
Fixpoint has_dotdot (s : string) : bool :=
  match s with
  | EmptyString => false
  | String c s' =>
      match s' with
      | String c' _ => (Ascii.eqb c "."%char && Ascii.eqb c' "."%char) || has_dotdot s'
      | EmptyString => false
      end
  end.

(** The calls of [timer] a request makes. *)
Definition is_post (request : Request) (path : string) : bool :=
  (String.prefix "/api/" (req_path request) &&
   (req_path request =? path) && (req_method request =? "POST"))%string.

(** The minutes a start request settles on are a number. *)
Definition numeric (m : JsValue) : Prop :=
  ToNumber (minutes_or_default m) <> NaN.

Definition numeric_event (e : ServerEvent) : Prop :=
  match e with
  | Http request =>
      match req_body request with
      | JsonBody m => numeric m
      | BadJson _ => True
      end
  | _ => True
  end.

(** An input the HTTP layer hands to the engine when the minutes are a
    number. *)
Definition api_input (i : Input) : Prop :=
  match i with
  | CallStart minutes => (0 < minutes)%number /\ (minutes <= 480)%number
  | CallOnExpire _ => False
  | _ => True
  end.

(** What the engine then shows behind the HTTP layer. *)
Definition api_state_ok (s : TimerState) : Prop :=
  exists r t : Z,
    remainingSeconds s = integer r /\ totalSeconds s = integer t /\
    0 <= r <= t /\ t <= 28800.

(** * The page ([public/app.js]) *)

(** [String(n)] for an integer [n]. *)
Definition String_of_number (n : Z) : string :=
  NilZero.string_of_int (Z.to_int n).

Fixpoint repeat_char (c : ascii) (n : nat) : string :=
  match n with
  | O => EmptyString
  | S n' => String c (repeat_char c n')
  end.

(** [s.padStart(target, fill)] for a [fill] of one character. *)
Definition padStart (target : nat) (fill : ascii) (s : string) : string :=
  (repeat_char fill (target - String.length s) ++ s)%string.

(** [formatTime(seconds)]: [Math.floor] of a quotient is [Z.div], [%] is
    the remainder with the sign of the dividend, [Z.rem]. *)
Definition formatTime (seconds : Z) : string :=
  let h := seconds / 3600 in
  let m := Z.rem seconds 3600 / 60 in
  let s := Z.rem seconds 60 in
  (padStart 2 "0" (String_of_number h) ++ ":" ++
   padStart 2 "0" (String_of_number m) ++ ":" ++
   padStart 2 "0" (String_of_number s))%string.

(** Reading a clock text [HH:MM:SS] of six digits back. *)
Definition digit_value (c : ascii) : option Z :=
  let n := Z.of_nat (nat_of_ascii c) in
  if (48 <=? n) && (n <=? 57) then Some (n - 48) else None.

Definition clock_seconds (text : string) : option Z :=
  match text with
  | String a (String b (String p (String c (String d (String q
      (String e (String f EmptyString))))))) =>
      if Ascii.eqb p ":" && Ascii.eqb q ":" then
        match digit_value a, digit_value b, digit_value c,
              digit_value d, digit_value e, digit_value f with
        | Some a', Some b', Some c', Some d', Some e', Some f' =>
            Some ((10 * a' + b') * 3600 + (10 * c' + d') * 60 +
                  (10 * e' + f'))
        | _, _, _, _, _, _ => None
        end
      else None
  | _ => None
  end.

(** The two characters that write a number below 100. *)
Definition digit (k : Z) : ascii := ascii_of_nat (Z.to_nat (48 + k)).

Definition two_digits (n : Z) : string :=
  String (digit (n / 10)) (String (digit (n mod 10)) EmptyString).

(** * Lemmas *)

(** ** JavaScript numbers *)

Lemma pow2_pos (k : Z) : 0 <= k -> 0 < 2 ^ k.
Proof. intros H. apply Z.pow_pos_nonneg; lia. Qed.

Lemma leb_integers (a b : Z) : number_leb (integer a) (integer b) = (a <=? b).
Proof. unfold number_leb, integer. cbn. rewrite !Z.mul_1_r. reflexivity. Qed.

Lemma ltb_integers (a b : Z) : number_ltb (integer a) (integer b) = (a <? b).
Proof. unfold number_ltb, integer. cbn. rewrite !Z.mul_1_r. reflexivity. Qed.

Lemma leb_zero (m e : Z) : number_leb (Finite m e) (integer 0) = (m <=? 0).
Proof.
  unfold number_leb, integer. cbv zeta. rewrite Z.mul_0_l.
  pose proof (pow2_pos (e - Z.min e 0)) as H.
  destruct (Z.leb_spec m 0); [apply Z.leb_le | apply Z.leb_gt]; nia.
Qed.

Lemma zero_leb (m e : Z) : number_leb (integer 0) (Finite m e) = (0 <=? m).
Proof.
  unfold number_leb, integer. cbv zeta. rewrite Z.mul_0_l.
  pose proof (pow2_pos (e - Z.min 0 e)) as H.
  destruct (Z.leb_spec 0 m); [apply Z.leb_le | apply Z.leb_gt]; nia.
Qed.

(** Rounding keeps the sign. *)
Lemma round_half_even_nonpos (m s : Z) :
  0 < s -> m <= 0 -> round_half_even m s <= 0.
Proof.
  intros Hs Hm. unfold round_half_even.
  pose proof (pow2_pos s ltac:(lia)) as Hp.
  pose proof (pow2_pos (s - 1) ltac:(lia)) as Hh.
  pose proof (Z.mod_pos_bound m (2 ^ s) Hp) as Hr.
  pose proof (Z.div_mod m (2 ^ s) ltac:(lia)) as Hd.
  assert (m / 2 ^ s <= 0) by (apply Z.div_le_upper_bound; lia).
  destruct (Z.ltb_spec (m mod 2 ^ s) (2 ^ (s - 1))); [assumption|].
  assert (m / 2 ^ s < 0) by nia.
  destruct (2 ^ (s - 1) <? m mod 2 ^ s); [lia|].
  destruct (Z.even (m / 2 ^ s)); lia.
Qed.

Lemma round_half_even_nonneg (m s : Z) :
  0 < s -> 0 <= m -> 0 <= round_half_even m s.
Proof.
  intros Hs Hm. unfold round_half_even.
  pose proof (pow2_pos s ltac:(lia)) as Hp.
  assert (0 <= m / 2 ^ s) by (apply Z.div_pos; lia).
  destruct (m mod 2 ^ s <? 2 ^ (s - 1)); [assumption|].
  destruct (2 ^ (s - 1) <? m mod 2 ^ s); [lia|].
  destruct (Z.even (m / 2 ^ s)); lia.
Qed.

Lemma finite_nonpos (q t : Z) :
  q <= 0 -> number_leb (finite q t) (integer 0) = true.
Proof.
  intros Hq. unfold finite.
  destruct (Z.leb_spec 0 t) as [Ht|Ht].
  - pose proof (pow2_pos t Ht) as Hp.
    destruct (Z.leb_spec (2 ^ 1024) (Z.abs (q * 2 ^ t))) as [Ho|Ho].
    + cbn [number_leb integer]. apply Z.ltb_lt.
      assert (0 < 2 ^ 1024) by (apply pow2_pos; lia). nia.
    + rewrite leb_zero. apply Z.leb_le. nia.
  - pose proof (pow2_pos (- t) ltac:(lia)) as Hp.
    destruct (q mod 2 ^ (- t) =? 0); rewrite leb_zero; apply Z.leb_le;
      [|assumption].
    apply Z.div_le_upper_bound; lia.
Qed.

Lemma finite_nonneg (q t : Z) :
  0 <= q -> number_leb (integer 0) (finite q t) = true.
Proof.
  intros Hq. unfold finite.
  destruct (Z.leb_spec 0 t) as [Ht|Ht].
  - pose proof (pow2_pos t Ht) as Hp.
    destruct (Z.leb_spec (2 ^ 1024) (Z.abs (q * 2 ^ t))) as [Ho|Ho].
    + cbn [number_leb integer]. apply negb_true_iff, Z.ltb_ge. nia.
    + rewrite zero_leb. apply Z.leb_le. nia.
  - pose proof (pow2_pos (- t) ltac:(lia)) as Hp.
    destruct (q mod 2 ^ (- t) =? 0); rewrite zero_leb; apply Z.leb_le;
      [|assumption].
    apply Z.div_pos; lia.
Qed.

Lemma round64_nonpos (m e : Z) :
  m <= 0 -> number_leb (round64 m e) (integer 0) = true.
Proof.
  intros Hm. unfold round64. cbv zeta.
  destruct (Z.leb_spec (Z.max (Z.log2 (Z.abs m) + 1 + e - 53) (-1074)) e).
  - apply finite_nonpos, Hm.
  - apply finite_nonpos, round_half_even_nonpos; lia.
Qed.

Lemma round64_nonneg (m e : Z) :
  0 <= m -> number_leb (integer 0) (round64 m e) = true.
Proof.
  intros Hm. unfold round64. cbv zeta.
  destruct (Z.leb_spec (Z.max (Z.log2 (Z.abs m) + 1 + e - 53) (-1074)) e).
  - apply finite_nonneg, Hm.
  - apply finite_nonneg, round_half_even_nonneg; lia.
Qed.

(** Integers of at most 53 bits are doubles. *)
Lemma round64_integer (z : Z) :
  Z.abs z <= 2 ^ 53 -> round64 z 0 = integer z.
Proof.
  intros Hz.
  assert (Hcases : Z.abs z < 2 ^ 53 \/ z = 2 ^ 53 \/ z = - 2 ^ 53) by lia.
  destruct Hcases as [Hlt | [-> | ->]]; [|reflexivity|reflexivity].
  unfold round64. cbv zeta.
  assert (Hb : Z.log2 (Z.abs z) < 53).
  { destruct (Z.eq_dec (Z.abs z) 0) as [->|Hne]; [cbn; lia|].
    apply Z.log2_lt_pow2; lia. }
  destruct (Z.leb_spec (Z.max (Z.log2 (Z.abs z) + 1 + 0 - 53) (-1074)) 0);
    [|lia].
  unfold finite. change (0 <=? 0) with true. cbv iota zeta.
  change (2 ^ 0) with 1. rewrite Z.mul_1_r.
  destruct (Z.leb_spec (2 ^ 1024) (Z.abs z)); [|reflexivity].
  assert (2 ^ 53 < 2 ^ 1024) by (apply Z.pow_lt_mono_r; lia). lia.
Qed.

Lemma sub_integers (a b : Z) :
  number_sub (integer a) (integer b) = round64 (a - b) 0.
Proof.
  unfold number_sub, integer. cbv zeta. change (Z.min 0 0) with 0.
  change (2 ^ (0 - 0)) with 1. rewrite !Z.mul_1_r. reflexivity.
Qed.

Lemma pow2_1024_big : 2 ^ 53 < 2 ^ 1024.
Proof. apply Z.pow_lt_mono_r; lia. Qed.

Lemma is_double_small (z : Z) : Z.abs z <= 2 ^ 53 -> is_double z.
Proof. apply round64_integer. Qed.

(** The shape of a double above [2^53]: a multiple of its unit in the last
    place, below the overflow threshold. *)
Lemma is_double_large (z : Z) :
  2 ^ 53 < z -> is_double z ->
  (2 ^ (Z.log2 z - 52) | z) /\ z < 2 ^ 1024.
Proof.
  intros Hz H. unfold is_double, round64 in H. cbv zeta in H.
  rewrite Z.abs_eq in H by lia.
  assert (Hl : 53 <= Z.log2 z) by (apply Z.log2_le_pow2; lia).
  destruct (Z.leb_spec (Z.max (Z.log2 z + 1 + 0 - 53) (-1074)) 0); [lia|].
  replace (Z.max (Z.log2 z + 1 + 0 - 53) (-1074)) with (Z.log2 z - 52) in H
    by lia.
  replace (Z.log2 z - 52 - 0) with (Z.log2 z - 52) in H by lia.
  unfold finite in H.
  destruct (Z.leb_spec 0 (Z.log2 z - 52)); [|lia].
  cbv zeta in H.
  destruct (Z.leb_spec (2 ^ 1024)
              (Z.abs (round_half_even z (Z.log2 z - 52) * 2 ^ (Z.log2 z - 52))));
    [discriminate|].
  injection H as H. split.
  - exists (round_half_even z (Z.log2 z - 52)). symmetry. exact H.
  - rewrite H in *. lia.
Qed.

Lemma pow2_divide (a b : Z) : 0 <= a <= b -> (2 ^ a | 2 ^ b).
Proof.
  intros H. exists (2 ^ (b - a)). rewrite <- Z.pow_add_r by lia.
  f_equal. lia.
Qed.

Lemma pow2_double (s : Z) : 0 < s -> 2 ^ s = 2 * 2 ^ (s - 1).
Proof.
  intros H. replace s with (1 + (s - 1)) at 1 by lia.
  rewrite Z.pow_add_r by lia. reflexivity.
Qed.

Lemma finite_integer (q t : Z) :
  0 <= t -> Z.abs (q * 2 ^ t) < 2 ^ 1024 -> finite q t = integer (q * 2 ^ t).
Proof.
  intros Ht Hv. unfold finite.
  destruct (Z.leb_spec 0 t); [|lia]. cbv zeta.
  destruct (Z.leb_spec (2 ^ 1024) (Z.abs (q * 2 ^ t))); [lia | reflexivity].
Qed.

(** Decrementing a double above [2^53] leaves it as it is, or (when the
    tie goes down) takes two off. *)
Lemma decrement_large (z : Z) :
  2 ^ 53 < z -> is_double z ->
  exists z', round64 (z - 1) 0 = integer z' /\ (z' = z \/ z' = z - 2) /\
             is_double z'.
Proof.
  intros Hz Hd.
  destruct (is_double_large z Hz Hd) as [Hdiv Hmax].
  set (y := z - 1). assert (Hy : 2 ^ 53 <= y) by (unfold y; lia).
  assert (Hly : 53 <= Z.log2 y) by (apply Z.log2_le_pow2; lia).
  assert (Hlz : Z.log2 y <= Z.log2 z) by (apply Z.log2_le_mono; unfold y; lia).
  set (t := Z.log2 y - 52). assert (Ht : 0 < t) by (unfold t; lia).
  assert (Hdiv' : (2 ^ t | z)).
  { eapply Z.divide_trans; [|exact Hdiv]. apply pow2_divide. unfold t. lia. }
  destruct Hdiv' as [c Hc].
  pose proof (pow2_pos t ltac:(lia)) as Hp.
  pose proof (pow2_pos (t - 1) ltac:(lia)) as Hh.
  pose proof (pow2_double t Ht) as H2.
  assert (Hq : y / 2 ^ t = c - 1).
  { symmetry. apply (Z.div_unique y (2 ^ t) (c - 1) (2 ^ t - 1)); [lia|].
    unfold y. nia. }
  assert (Hr : y mod 2 ^ t = 2 ^ t - 1).
  { symmetry. apply (Z.mod_unique y (2 ^ t) (c - 1) (2 ^ t - 1)); [lia|].
    unfold y. nia. }
  assert (Hround : round64 y 0 = finite (round_half_even y t) t).
  { unfold round64. cbv zeta. rewrite Z.abs_eq by lia.
    destruct (Z.leb_spec (Z.max (Z.log2 y + 1 + 0 - 53) (-1074)) 0); [lia|].
    replace (Z.max (Z.log2 y + 1 + 0 - 53) (-1074)) with t by (unfold t; lia).
    replace (t - 0) with t by lia. reflexivity. }
  rewrite Hround. unfold round_half_even. cbv zeta. rewrite Hq, Hr.
  destruct (Z.ltb_spec (2 ^ t - 1) (2 ^ (t - 1))); [lia|].
  destruct (Z.ltb_spec (2 ^ (t - 1)) (2 ^ t - 1)) as [Hgt|Hle].
  - exists z. replace (c - 1 + 1) with c by lia.
    rewrite finite_integer by (rewrite <- ?Hc; lia).
    rewrite <- Hc. auto.
  - assert (Hone : 2 ^ (t - 1) = 1) by lia.
    assert (Ht1 : t = 1).
    { destruct (Z.eq_dec t 1); [assumption|].
      assert (2 ^ 1 <= 2 ^ (t - 1)) by (apply Z.pow_le_mono_r; lia).
      change (2 ^ 1) with 2 in *. lia. }
    destruct (Z.even (c - 1)) eqn:Hev.
    + exists (z - 2).
      rewrite finite_integer by (rewrite ?Z.abs_eq; nia).
      split; [f_equal; nia|]. split; [auto|].
      (* z - 2 is a double of the same binade *)
      assert (Hy54 : y < 2 ^ 54).
      { assert (Z.log2 y < 54) by (unfold t in Ht1; lia).
        apply Z.log2_lt_pow2; lia. }
      assert (Hz2 : 2 ^ 53 <= z - 2) by nia.
      assert (Hl2 : Z.log2 (z - 2) = 53).
      { apply Z.log2_unique; [lia|]. unfold y in Hy54.
        change (2 ^ (53 + 1)) with (2 ^ 54). lia. }
      unfold is_double, round64. cbv zeta. rewrite Z.abs_eq by lia.
      rewrite Hl2. change (Z.max (53 + 1 + 0 - 53) (-1074)) with 1.
      change (1 <=? 0) with false. cbv iota. change (1 - 0) with 1.
      unfold round_half_even. cbv zeta. change (2 ^ 1) with 2.
      change (2 ^ (1 - 1)) with 1.
      assert (Hm : (z - 2) mod 2 = 0).
      { symmetry. apply (Z.mod_unique (z - 2) 2 (c - 1) 0); [lia|]. nia. }
      assert (Hdv : (z - 2) / 2 = c - 1).
      { symmetry. apply (Z.div_unique (z - 2) 2 (c - 1) 0); [lia|]. nia. }
      rewrite Hm, Hdv. change (0 <? 1) with true. cbv iota.
      rewrite finite_integer by (rewrite ?Z.abs_eq; nia).
      f_equal. nia.
    + exists z. replace (c - 1 + 1) with c by lia.
      rewrite finite_integer by (rewrite <- ?Hc; lia).
      rewrite <- Hc. auto.
Qed.

(** [x - 1] for a double [x >= 1] that is a whole number. *)
Lemma decrement_double (z : Z) :
  is_double z -> 1 <= z ->
  exists z', number_sub (integer z) (integer 1) = integer z' /\
             0 <= z' <= z /\ is_double z' /\
             (z <= 2 ^ 53 -> z' = z - 1).
Proof.
  intros Hd Hz. rewrite sub_integers.
  destruct (Z_le_gt_dec z (2 ^ 53)) as [Hs|Hl].
  - exists (z - 1). rewrite round64_integer by lia.
    split; [reflexivity|]. split; [lia|]. split; [|auto].
    apply is_double_small. lia.
  - destruct (decrement_large z ltac:(lia) Hd) as [z' [E [Hz' Hd']]].
    exists z'. split; [exact E|]. split; [|split; [exact Hd' | lia]].
    assert (0 < 2 ^ 53) by (apply pow2_pos; lia).
    destruct Hz'; lia.
Qed.

Lemma decrement_integer (z : Z) :
  - 2 ^ 53 < z <= 2 ^ 53 ->
  number_sub (integer z) (integer 1) = integer (z - 1).
Proof.
  intros H. rewrite sub_integers. apply round64_integer. lia.
Qed.

Lemma log2_bound (a : Z) : 0 < a -> a < 2 ^ (Z.log2 a + 1).
Proof.
  intros H. pose proof (Z.log2_spec a H) as [_ Hlt].
  replace (Z.log2 a + 1) with (Z.succ (Z.log2 a)) by lia. exact Hlt.
Qed.

Lemma log2_scaled (a k : Z) :
  0 < a -> 0 <= k -> Z.log2 (a * 2 ^ k) = Z.log2 a + k.
Proof.
  intros Ha Hk. rewrite Z.log2_mul_pow2 by lia. lia.
Qed.

(** A mantissa of at most 53 bits, scaled up, is a double. *)
Lemma is_double_scaled (q t : Z) :
  0 <= q <= 2 ^ 53 -> 0 <= t -> q * 2 ^ t < 2 ^ 1024 -> is_double (q * 2 ^ t).
Proof.
  intros Hq Ht Hmax.
  pose proof (pow2_pos t Ht) as Hp.
  destruct (Z.eq_dec q 0) as [->|Hq0]; [reflexivity|].
  set (z := q * 2 ^ t). assert (Hz : 0 < z) by (unfold z; nia).
  assert (Hlq : Z.log2 q <= 53)
    by (rewrite <- (Z.log2_pow2 53) by lia; apply Z.log2_le_mono; lia).
  assert (Hl : Z.log2 z = Z.log2 q + t) by (apply log2_scaled; lia).
  unfold is_double, round64. cbv zeta. rewrite Z.abs_eq by lia. rewrite Hl.
  destruct (Z.leb_spec (Z.max (Z.log2 q + t + 1 + 0 - 53) (-1074)) 0).
  - rewrite finite_integer by (rewrite ?Z.mul_1_r, ?Z.abs_eq; fold z; lia).
    f_equal. lia.
  - replace (Z.max (Z.log2 q + t + 1 + 0 - 53) (-1074) - 0)
      with (Z.log2 q + t - 52) by lia.
    replace (Z.max (Z.log2 q + t + 1 + 0 - 53) (-1074))
      with (Z.log2 q + t - 52) by lia.
    set (s := Z.log2 q + t - 52). assert (Hs : 0 < s) by (unfold s; lia).
    assert (Hdiv : (2 ^ s | z)).
    { destruct (Z.eq_dec (Z.log2 q) 53) as [E|E].
      - assert (q = 2 ^ 53).
        { pose proof (Z.log2_spec q ltac:(lia)) as [Hlo _]. rewrite E in Hlo.
          lia. }
        subst q. unfold z. rewrite <- Z.pow_add_r by lia.
        apply pow2_divide. unfold s. lia.
      - unfold z. apply Z.divide_mul_r. apply pow2_divide. unfold s. lia. }
    destruct Hdiv as [c Hc].
    pose proof (pow2_pos s ltac:(lia)) as Hps.
    pose proof (pow2_pos (s - 1) ltac:(lia)) as Hph.
    unfold round_half_even. cbv zeta.
    assert (Hm : z mod 2 ^ s = 0)
      by (symmetry; apply (Z.mod_unique z (2 ^ s) c 0); lia).
    assert (Hd : z / 2 ^ s = c)
      by (symmetry; apply (Z.div_unique z (2 ^ s) c 0); lia).
    rewrite Hm, Hd.
    destruct (Z.ltb_spec 0 (2 ^ (s - 1))); [|lia].
    rewrite finite_integer by (rewrite <- ?Hc, ?Z.abs_eq; lia).
    rewrite <- Hc. reflexivity.
Qed.

(** What [round64] returns: a mantissa of at most 53 bits at an exponent. *)
Lemma round_half_even_bound (m s : Z) :
  0 < s -> Z.abs m < 2 ^ (s + 53) ->
  Z.abs (round_half_even m s) <= 2 ^ 53.
Proof.
  intros Hs Hm.
  pose proof (pow2_pos s ltac:(lia)) as Hp.
  assert (E : 2 ^ (s + 53) = 2 ^ s * 2 ^ 53) by (apply Z.pow_add_r; lia).
  assert (H53 : 0 < 2 ^ 53) by (apply pow2_pos; lia).
  assert (Hlo : - 2 ^ 53 <= m / 2 ^ s) by (apply Z.div_le_lower_bound; lia).
  assert (Hhi : m / 2 ^ s < 2 ^ 53) by (apply Z.div_lt_upper_bound; lia).
  unfold round_half_even. cbv zeta.
  destruct (m mod 2 ^ s <? 2 ^ (s - 1)); [lia|].
  destruct (2 ^ (s - 1) <? m mod 2 ^ s); [lia|].
  destruct (Z.even (m / 2 ^ s)); lia.
Qed.

Lemma abs_log2_bound (m : Z) : Z.abs m < 2 ^ (Z.log2 (Z.abs m) + 1).
Proof.
  destruct (Z.eq_dec m 0) as [->|H]; [reflexivity|].
  apply log2_bound. lia.
Qed.

Lemma round64_shape (m e : Z) :
  exists q t, round64 m e = finite q t /\ Z.abs q <= 2 ^ 53 /\
              (0 <= m -> 0 <= q) /\ (m <= 0 -> q <= 0).
Proof.
  unfold round64. cbv zeta.
  pose proof (abs_log2_bound m) as Hb.
  destruct (Z.leb_spec (Z.max (Z.log2 (Z.abs m) + 1 + e - 53) (-1074)) e)
    as [Hle|Hgt].
  - exists m, e. split; [reflexivity|]. split; [|auto].
    assert (2 ^ (Z.log2 (Z.abs m) + 1) <= 2 ^ 53)
      by (apply Z.pow_le_mono_r; lia).
    lia.
  - eexists _, _. split; [reflexivity|]. split; [|split].
    + apply round_half_even_bound; [lia|].
      eapply Z.lt_le_trans; [exact Hb|]. apply Z.pow_le_mono_r; lia.
    + apply round_half_even_nonneg. lia.
    + apply round_half_even_nonpos. lia.
Qed.

Lemma floorZ_integer (z : Z) : floorZ z 0 = z.
Proof. unfold floorZ. cbn. apply Z.mul_1_r. Qed.

Lemma floor_integer (z : Z) : Math_floor (integer z) = integer z.
Proof. unfold Math_floor, integer. rewrite floorZ_integer. reflexivity. Qed.

(** [Math.floor] of a rounded value that is not negative: a whole double
    or [Infinity]. *)
Lemma floor_finite_nonneg (q t : Z) :
  0 <= q <= 2 ^ 53 ->
  Math_floor (finite q t) = Infinity false \/
  exists z, Math_floor (finite q t) = integer z /\ 0 <= z /\ is_double z /\
            z = floorZ q t.
Proof.
  intros Hq. unfold finite.
  destruct (Z.leb_spec 0 t) as [Ht|Ht].
  - pose proof (pow2_pos t Ht) as Hp. cbv zeta.
    destruct (Z.leb_spec (2 ^ 1024) (Z.abs (q * 2 ^ t))) as [Ho|Ho].
    + left. cbn [Math_floor]. destruct (Z.ltb_spec (q * 2 ^ t) 0); [nia|].
      reflexivity.
    + right. exists (q * 2 ^ t). fold (integer (q * 2 ^ t)).
      rewrite floor_integer. split; [reflexivity|]. split; [nia|].
      split; [apply is_double_scaled; lia|].
      unfold floorZ. destruct (Z.leb_spec 0 t); [reflexivity | lia].
  - right. pose proof (pow2_pos (- t) ltac:(lia)) as Hp.
    exists (q / 2 ^ (- t)).
    assert (Hd : 0 <= q / 2 ^ (- t) <= q).
    { split; [apply Z.div_pos; lia|]. apply Z.div_le_upper_bound; nia. }
    assert (Hf : floorZ q t = q / 2 ^ (- t)).
    { unfold floorZ. destruct (Z.leb_spec 0 t); [lia | reflexivity]. }
    split; [|split; [lia | split; [apply is_double_small; lia | auto]]].
    destruct (q mod 2 ^ (- t) =? 0).
    + fold (integer (q / 2 ^ (- t))). apply floor_integer.
    + cbn [Math_floor]. rewrite Hf. reflexivity.
Qed.

Lemma floor_round64_nonneg (m e : Z) :
  0 <= m ->
  Math_floor (round64 m e) = Infinity false \/
  exists z, Math_floor (round64 m e) = integer z /\ 0 <= z /\ is_double z.
Proof.
  intros Hm. destruct (round64_shape m e) as [q [t [-> [Hq [Hpos _]]]]].
  destruct (floor_finite_nonneg q t) as [H | [z [H1 [H2 [H3 _]]]]];
    [specialize (Hpos Hm); lia | auto | right; eauto].
Qed.


(** A value that is a whole number of at most 53 bits is not rounded. *)
Lemma round64_whole (m e z : Z) :
  Z.abs z < 2 ^ 53 -> has_value m e z -> round64 m e = integer z.
Proof.
  intros Hz Hv. unfold has_value in Hv.
  assert (H53 : 2 ^ 53 < 2 ^ 1024) by apply pow2_1024_big.
  destruct (Z.leb_spec 0 e) as [He|He].
  - pose proof (pow2_pos e He) as Hp.
    assert (Hm : Z.abs m < 2 ^ 53) by nia.
    assert (Hb : Z.log2 (Z.abs m) < 53).
    { destruct (Z.eq_dec (Z.abs m) 0) as [->|Hne]; [cbn; lia|].
      apply Z.log2_lt_pow2; lia. }
    unfold round64. cbv zeta.
    destruct (Z.leb_spec (Z.max (Z.log2 (Z.abs m) + 1 + e - 53) (-1074)) e);
      [|lia].
    rewrite finite_integer by (rewrite ?Hv; lia). rewrite Hv. reflexivity.
  - set (k := - e) in *. assert (Hk : 0 < k) by (unfold k; lia).
    pose proof (pow2_pos k ltac:(lia)) as Hp.
    assert (Hfin : forall j, 0 <= j <= k -> finite (z * 2 ^ j) (- j) = integer z).
    { intros j Hj. pose proof (pow2_pos j ltac:(lia)) as Hpj.
      unfold finite. destruct (Z.leb_spec 0 (- j)).
      - assert (j = 0) by lia. subst j. cbn [Z.opp]. change (2 ^ 0) with 1.
        rewrite !Z.mul_1_r. cbv zeta.
        destruct (Z.leb_spec (2 ^ 1024) (Z.abs z)); [lia | reflexivity].
      - rewrite Z.opp_involutive, Z.mod_mul, Z.div_mul by lia.
        reflexivity. }
    destruct (Z.eq_dec z 0) as [->|Hz0].
    + rewrite Z.mul_0_l in Hv. subst m. unfold round64. cbv zeta.
      change (Z.log2 (Z.abs 0) + 1) with 1.
      destruct (Z.leb_spec (Z.max (1 + e - 53) (-1074)) e).
      * replace e with (- k) by (unfold k; lia).
        rewrite <- (Z.mul_0_l (2 ^ k)). apply Hfin. lia.
      * unfold round_half_even. cbv zeta.
        set (s := Z.max (1 + e - 53) (-1074) - e).
        pose proof (pow2_pos s ltac:(unfold s; lia)) as Hps.
        pose proof (pow2_pos (s - 1) ltac:(unfold s; lia)) as Hph.
        rewrite Z.mod_0_l, Z.div_0_l by lia.
        destruct (Z.ltb_spec 0 (2 ^ (s - 1))); [|lia].
        unfold finite.
        destruct (Z.leb_spec 0 (Z.max (1 + e - 53) (-1074))); [lia|].
        rewrite Z.mod_0_l, Z.div_0_l; [reflexivity| |];
          apply Z.neq_sym, Z.lt_neq, pow2_pos; lia.
    + assert (Hl : Z.log2 (Z.abs m) = Z.log2 (Z.abs z) + k).
      { rewrite Hv, Z.abs_mul, (Z.abs_eq (2 ^ k)) by lia.
        apply log2_scaled; lia. }
      assert (Hlz : Z.log2 (Z.abs z) < 53) by (apply Z.log2_lt_pow2; lia).
      unfold round64. cbv zeta. rewrite Hl.
      set (t := Z.max (Z.log2 (Z.abs z) + k + 1 + e - 53) (-1074)).
      assert (Ht : t <= 0) by (unfold t, k; lia).
      destruct (Z.leb_spec t e) as [Hte|Hte].
      * rewrite Hv. replace e with (- k) by (unfold k; lia).
        apply Hfin. lia.
      * set (s := t - e). assert (Hs : 0 < s <= k) by (unfold s, k; lia).
        pose proof (pow2_pos s ltac:(lia)) as Hps.
        pose proof (pow2_pos (s - 1) ltac:(lia)) as Hph.
        assert (Hm : m = z * 2 ^ (k - s) * 2 ^ s).
        { rewrite Hv, <- Z.mul_assoc, <- Z.pow_add_r by lia.
          do 2 f_equal. lia. }
        unfold round_half_even. cbv zeta.
        rewrite Hm, Z.mod_mul, Z.div_mul by lia.
        destruct (Z.ltb_spec 0 (2 ^ (s - 1))); [|lia].
        replace t with (- (k - s)) by (unfold s, k; lia).
        apply Hfin. lia.
Qed.

(** Between two bounds that are small whole numbers, rounding and
    [Math.floor] stay between them. *)
Lemma floor_round64_between (m e lo hi : Z) :
  0 <= lo -> hi < 2 ^ 52 -> 0 <= m ->
  lo * 2 ^ (0 - Z.min e 0) <= m * 2 ^ (e - Z.min e 0) <=
    hi * 2 ^ (0 - Z.min e 0) ->
  exists z, Math_floor (round64 m e) = integer z /\ lo <= z <= hi /\
            is_double z.
Proof.
  intros Hlo Hhi Hm Hle.
  assert (H52 : 2 ^ 52 < 2 ^ 53) by (apply Z.pow_lt_mono_r; lia).
  assert (H53 : 2 ^ 53 < 2 ^ 1024) by apply pow2_1024_big.
  assert (Hfin : forall q t,
            0 <= q ->
            (if 0 <=? t then lo <= q * 2 ^ t <= hi
             else lo * 2 ^ (- t) <= q <= hi * 2 ^ (- t)) ->
            exists z, Math_floor (finite q t) = integer z /\ lo <= z <= hi /\
                      is_double z).
  { intros q t Hq Hb. unfold finite.
    destruct (Z.leb_spec 0 t) as [Ht|Ht].
    - pose proof (pow2_pos t Ht) as Hp. cbv zeta.
      destruct (Z.leb_spec (2 ^ 1024) (Z.abs (q * 2 ^ t))); [lia|].
      exists (q * 2 ^ t). fold (integer (q * 2 ^ t)). rewrite floor_integer.
      split; [reflexivity|]. split; [lia|]. apply is_double_small. lia.
    - pose proof (pow2_pos (- t) ltac:(lia)) as Hp.
      exists (q / 2 ^ (- t)).
      assert (Hd : lo <= q / 2 ^ (- t) <= hi).
      { split; [apply Z.div_le_lower_bound | apply Z.div_le_upper_bound];
          nia. }
      split; [|split; [exact Hd | apply is_double_small; lia]].
      destruct (q mod 2 ^ (- t) =? 0).
      + fold (integer (q / 2 ^ (- t))). apply floor_integer.
      + cbn [Math_floor]. unfold floorZ.
        destruct (Z.leb_spec 0 t); [lia | reflexivity]. }
  assert (Hle' : if 0 <=? e then lo <= m * 2 ^ e <= hi
                 else lo * 2 ^ (- e) <= m <= hi * 2 ^ (- e)).
  { destruct (Z.leb_spec 0 e).
    - rewrite Z.min_r in Hle by lia. rewrite !Z.sub_0_r in Hle.
      change (2 ^ 0) with 1 in Hle. lia.
    - rewrite Z.min_l in Hle by lia. rewrite Z.sub_diag in Hle.
      change (2 ^ 0) with 1 in Hle. rewrite Z.sub_0_l in Hle. lia. }
  clear Hle.
  destruct (Z.eq_dec m 0) as [->|Hm0].
  { assert (E : round64 0 e = integer 0).
    { apply round64_whole; [cbn; lia|]. unfold has_value.
      destruct (0 <=? e); reflexivity. }
    rewrite E, floor_integer. exists 0. split; [reflexivity|].
    split; [|reflexivity].
    destruct (Z.leb_spec 0 e).
    - pose proof (pow2_pos e ltac:(lia)). lia.
    - pose proof (pow2_pos (- e) ltac:(lia)). nia. }
  unfold round64. cbv zeta. rewrite Z.abs_eq by lia.
  pose proof (Z.log2_spec m ltac:(lia)) as [Hl2 _].
  pose proof (Z.log2_nonneg m) as Hl0.
  destruct (Z.leb_spec (Z.max (Z.log2 m + 1 + e - 53) (-1074)) e) as [Hte|Hte].
  - apply Hfin; [lia | exact Hle'].
  - (* the value is below 2^52, so its last place is below the units *)
    set (t := Z.max (Z.log2 m + 1 + e - 53) (-1074)) in *.
    assert (He : e < 0).
    { destruct (Z_lt_ge_dec e 0); [assumption|]. exfalso.
      destruct (Z.leb_spec 0 e); [|lia].
      pose proof (pow2_pos e ltac:(lia)).
      assert (2 ^ (Z.log2 m) < 2 ^ 52) by nia.
      assert (Z.log2 m < 52) by (apply (Z.pow_lt_mono_r_iff 2); lia).
      unfold t in Hte. lia. }
    destruct (Z.leb_spec 0 e); [lia|].
    assert (Ht : t < 0).
    { destruct (Z_lt_ge_dec t 0); [assumption|]. exfalso.
      assert (Hlm : 52 - e <= Z.log2 m) by (unfold t in *; lia).
      assert (2 ^ (52 - e) <= 2 ^ Z.log2 m) by (apply Z.pow_le_mono_r; lia).
      assert (E : 2 ^ (52 - e) = 2 ^ 52 * 2 ^ (- e))
        by (rewrite <- Z.pow_add_r by lia; f_equal; lia).
      pose proof (pow2_pos (- e) ltac:(lia)). nia. }
    set (s := t - e). assert (Hs : 0 < s) by (unfold s; lia).
    pose proof (pow2_pos s ltac:(lia)) as Hps.
    pose proof (pow2_pos (s - 1) ltac:(lia)) as Hph.
    pose proof (pow2_pos (- t) ltac:(lia)) as Hpt.
    assert (E : 2 ^ (- e) = 2 ^ (- t) * 2 ^ s)
      by (rewrite <- Z.pow_add_r by lia; f_equal; unfold s; lia).
    pose proof (Z.div_mod m (2 ^ s) ltac:(lia)) as Hdm.
    pose proof (Z.mod_pos_bound m (2 ^ s) Hps) as Hr.
    assert (Hq0 : 0 <= m / 2 ^ s) by (apply Z.div_pos; lia).
    apply Hfin.
    + apply round_half_even_nonneg; lia.
    + destruct (Z.leb_spec 0 t); [lia|].
      assert (Hql : lo * 2 ^ (- t) <= m / 2 ^ s)
        by (apply Z.div_le_lower_bound; nia).
      assert (Hq : m / 2 ^ s <= hi * 2 ^ (- t))
        by (apply Z.div_le_upper_bound; nia).
      assert (Hq1 : 0 < m mod 2 ^ s -> m / 2 ^ s + 1 <= hi * 2 ^ (- t)) by nia.
      unfold round_half_even. cbv zeta.
      destruct (Z.ltb_spec (m mod 2 ^ s) (2 ^ (s - 1))); [lia|].
      destruct (2 ^ (s - 1) <? m mod 2 ^ s);
        [split; [lia | apply Hq1; lia]|].
      destruct (Z.even (m / 2 ^ s));
        [lia | split; [lia | apply Hq1; lia]].
Qed.

Lemma floor_round64_below (m e n : Z) :
  0 <= n < 2 ^ 52 -> 0 <= m ->
  m * 2 ^ (e - Z.min e 0) <= n * 2 ^ (0 - Z.min e 0) ->
  exists z, Math_floor (round64 m e) = integer z /\ 0 <= z <= n /\
            is_double z.
Proof.
  intros Hn Hm Hle.
  apply floor_round64_between; try lia;
    pose proof (pow2_pos (e - Z.min e 0) ltac:(lia)); nia.
Qed.

(** ** Counts of seconds *)

Lemma count_zero : count 0.
Proof.
  right. exists 0. split; [reflexivity|]. split; [lia | reflexivity].
Qed.

Lemma count_le_refl (x : number) : count x -> (x <= x)%number.
Proof.
  intros [-> | [z [-> _]]]; [reflexivity|].
  unfold number_le. rewrite leb_integers. apply Z.leb_refl.
Qed.

Lemma zero_le_count (x : number) : count x -> (0 <= x)%number.
Proof.
  intros [-> | [z [-> [Hz _]]]]; [reflexivity|].
  unfold number_le. rewrite leb_integers. apply Z.leb_le, Hz.
Qed.

Lemma le_integer_mono (a b : Z) (y : number) :
  a <= b -> (integer b <= y)%number -> (integer a <= y)%number.
Proof.
  unfold number_le, integer. intros Hab.
  destruct y as [|s|m e]; cbn [number_leb]; [discriminate | auto |].
  intros H. apply Z.leb_le in H. apply Z.leb_le.
  pose proof (pow2_pos (0 - Z.min 0 e) ltac:(lia)). nia.
Qed.

Lemma count_le_zero_le (x y : number) :
  count x -> (x <= y)%number -> (0 <= y)%number.
Proof.
  intros [-> | [z [-> [Hz _]]]] H.
  - unfold number_le in *. destruct y as [|[]|m e]; try discriminate.
    reflexivity.
  - apply (le_integer_mono 0 z); assumption.
Qed.

(** A count of at most one second is decremented to zero or below. *)
Lemma le_one_expires (x : number) :
  (x <= 1)%number -> number_leb (decrement x) 0 = true.
Proof.
  unfold number_le, decrement.
  destruct x as [|s|m e]; cbn [number_leb number_sub integer].
  - discriminate.
  - intros ->. reflexivity.
  - intros H. apply Z.leb_le in H. apply round64_nonpos. lia.
Qed.

Lemma decrement_infinity : decrement (Infinity false) = Infinity false.
Proof. reflexivity. Qed.

(** One second off a count: the countdown is over, or a count is left
    that is no greater. *)
Lemma count_decrement (x : number) :
  count x ->
  number_leb (decrement x) 0 = true \/
  (count (decrement x) /\
   forall y, (x <= y)%number -> (decrement x <= y)%number).
Proof.
  intros [-> | [z [-> [Hz Hd]]]].
  - right. rewrite decrement_infinity. split; [left; reflexivity | auto].
  - destruct (Z.eq_dec z 0) as [->|Hz0]; [left; reflexivity|].
    destruct (decrement_double z Hd ltac:(lia)) as [z' [E [Hz' [Hd' _]]]].
    right. unfold decrement. rewrite E. split.
    + right. exists z'. split; [reflexivity|]. split; [lia | exact Hd'].
    + intros y. apply le_integer_mono. lia.
Qed.

(** ** [Math.floor(minutes * 60)] *)

Lemma mul_60 (m e : Z) :
  number_mul (Finite m e) 60 = round64 (m * 60) e.
Proof. cbn [number_mul integer]. rewrite Z.add_0_r. reflexivity. Qed.

Lemma mul_60_nonneg (minutes : number) :
  (0 <= minutes)%number -> count (Math_floor (number_mul minutes 60)).
Proof.
  unfold number_le. destruct minutes as [|s|m e].
  - discriminate.
  - destruct s; [discriminate|]. intros _. left. reflexivity.
  - rewrite zero_leb, mul_60. intros H. apply Z.leb_le in H.
    destruct (floor_round64_nonneg (m * 60) e ltac:(lia))
      as [-> | [z [-> [Hz Hd]]]]; [left; reflexivity|].
    right. exists z. auto.
Qed.


(** A product that is a whole number of seconds is that number. *)
Lemma mul_60_whole (m e z : Z) :
  has_value (m * 60) e z -> Z.abs z < 2 ^ 53 ->
  Math_floor (number_mul (Finite m e) 60) = integer z.
Proof.
  intros Hv Hz. rewrite mul_60, (round64_whole _ _ z Hz Hv).
  apply floor_integer.
Qed.

Lemma has_value_times_60 (m e z : Z) :
  has_value m e z -> has_value (m * 60) e (z * 60).
Proof.
  unfold has_value. destruct (0 <=? e); intros H; [rewrite <- H | rewrite H];
    ring.
Qed.


Lemma whole_minutes (minutes : number) (z : Z) :
  is_whole minutes z -> Z.abs (z * 60) < 2 ^ 53 ->
  Math_floor (number_mul minutes 60) = integer (z * 60).
Proof.
  intros Hw Hz. destruct minutes as [| |m e]; try contradiction.
  apply mul_60_whole; [apply has_value_times_60, Hw | exact Hz].
Qed.

(** Up to 480 minutes are up to 28800 seconds. *)
Lemma mul_60_below (minutes : number) :
  (0 < minutes)%number -> (minutes <= 480)%number ->
  exists z, Math_floor (number_mul minutes 60) = integer z /\
            0 <= z <= 28800 /\ is_double z.
Proof.
  unfold number_lt, number_le. destruct minutes as [|s|m e].
  - discriminate.
  - destruct s; discriminate.
  - cbn [number_ltb number_leb integer]. intros H0 H480.
    apply Z.ltb_lt in H0. apply Z.leb_le in H480. rewrite mul_60.
    pose proof (pow2_pos (e - Z.min 0 e) ltac:(lia)) as Hp.
    assert (Hm : 0 <= m) by nia.
    apply floor_round64_below.
    + split; [lia|]. change (28800 < 2 ^ 52). reflexivity.
    + lia.
    + nia.
Qed.

(** ** A state monad over [World] *)

Lemma then_ret {A : Type} (m : M A) (w : World) :
  snd ((m ;; ret tt) w) = snd (m w).
Proof. unfold bind, ret. destruct (m w); reflexivity. Qed.

(** ** The event loop *)

Lemma run_cons (i : Input) (inputs : list Input) (w : World) :
  run (i :: inputs) w = run inputs (step w i).
Proof. reflexivity. Qed.

Lemma run_app (inputs inputs' : list Input) (w : World) :
  run (inputs ++ inputs') w = run inputs' (run inputs w).
Proof. apply fold_left_app. Qed.

(** ** The methods in closed form *)

(** Unfold the monadic plumbing and the runtime primitives, then compute
    through record projections only. *)
Ltac step_monad :=
  unfold getState, modify_state, console_log, console_error, setInterval,
    setTimeout, clearInterval, await_collaborator, schedule, gensym,
    Date_now, emit, set_timers, set_pending, set_now, set_state,
    set_intervalId, set_callbacks, get_state, get_intervalId, get_callbacks,
    bind, ret;
  cbn [fst snd state intervalId onExpireCallbacks now timers pending fresh
       trace isRunning remainingSeconds totalSeconds startedAt].

Lemma world_eta (w : World) :
  w = {| state := state w; intervalId := intervalId w;
         onExpireCallbacks := onExpireCallbacks w; now := now w;
         timers := timers w; pending := pending w; fresh := fresh w;
         trace := trace w |}.
Proof. destruct w; reflexivity. Qed.

Lemma start_closed (minutes : number) (w : World) :
  start minutes w =
  (let total := Math_floor (number_mul minutes 60) in
   let s := {| isRunning := true; remainingSeconds := total;
               totalSeconds := total; startedAt := Some (now w) |} in
   (s, {| state := s;
          intervalId := Some (fresh w);
          onExpireCallbacks := onExpireCallbacks w;
          now := now w;
          timers := cleared_timers w ++
                    [ {| tm_handle := fresh w; tm_due := now w + 1000;
                         tm_period := Some 1000; tm_action := RunTick |} ];
          pending := pending w;
          fresh := S (fresh w);
          trace := trace w ++ cleared_effects w ++
                   [ (now w, SetIntervalCall (fresh w) 1000);
                     (now w, ConsoleLog
                               (LogStarted minutes
                                  (Math_floor (number_mul minutes 60)))) ]
          |})).
Proof.
  unfold start, cleared_timers, cleared_effects.
  destruct w as [s i cbs t ts ps n tr]; destruct i as [h|]; step_monad;
    cbn [opt_list map app]; repeat rewrite <- app_assoc; reflexivity.
Qed.

Lemma cancel_closed (w : World) :
  cancel w =
  (idle, {| state := idle;
            intervalId := None;
            onExpireCallbacks := onExpireCallbacks w;
            now := now w;
            timers := cleared_timers w;
            pending := pending w;
            fresh := fresh w;
            trace := trace w ++ cleared_effects w ++
                     [ (now w, ConsoleLog LogCancelled) ] |}).
Proof.
  unfold cancel, cleared_timers, cleared_effects.
  destruct w as [s i cbs t ts ps n tr]; destruct i as [h|]; step_monad;
    cbn [opt_list map app]; repeat rewrite <- app_assoc; reflexivity.
Qed.

Lemma for_of_try_callback (cbs : list TimerCallback) (w : World) :
  for_of cbs try_callback w =
  (tt, {| state := state w; intervalId := intervalId w;
          onExpireCallbacks := onExpireCallbacks w; now := now w;
          timers := timers w; pending := pending w; fresh := fresh w;
          trace := trace w ++ callback_effects (now w) (state w) cbs |}).
Proof.
  revert w; induction cbs as [|cb cbs IH]; intros w.
  - cbn. rewrite app_nil_r. rewrite <- world_eta. reflexivity.
  - cbn [for_of]. unfold try_callback.
    destruct w as [s i l t ts ps n tr]. step_monad.
    cbn [callback_effects flat_map].
    destruct (cb_body cb s); step_monad; rewrite IH; cbn;
      repeat rewrite <- app_assoc; reflexivity.
Qed.

Lemma expire_closed (w : World) :
  expire w =
  (tt, {| state := expired (state w);
          intervalId := None;
          onExpireCallbacks := onExpireCallbacks w;
          now := now w;
          timers := cleared_timers w;
          pending := pending w ++ [(fresh w, pauseMedia)];
          fresh := S (fresh w);
          trace := trace w ++ [(now w, ConsoleLog LogExpired)] ++
                   cleared_effects w ++
                   callback_effects (now w) (expired (state w))
                     (onExpireCallbacks w) ++
                   [(now w, CollaboratorCall pauseMedia (fresh w))] |}).
Proof.
  unfold expire, cleared_timers, cleared_effects, expired.
  destruct w as [s i cbs t ts ps n tr]; destruct i as [h|];
    step_monad; rewrite for_of_try_callback; step_monad;
    cbn [opt_list map app]; repeat rewrite <- app_assoc; reflexivity.
Qed.

Lemma tick_idle (w : World) :
  isRunning (state w) = false -> tick w = (tt, w).
Proof.
  intros H. unfold tick. step_monad. rewrite H. reflexivity.
Qed.

Lemma tick_counting (w : World) :
  isRunning (state w) = true ->
  number_leb (decrement (remainingSeconds (state w))) 0 = false ->
  tick w =
  (tt, put_state (with_remainingSeconds
                    (decrement (remainingSeconds (state w))) (state w)) w).
Proof.
  intros H Hr. unfold decrement in *.
  unfold tick, put_state, exec. step_monad. rewrite H.
  cbn [negb with_remainingSeconds remainingSeconds]. rewrite Hr.
  reflexivity.
Qed.

Lemma tick_expiring (w : World) :
  isRunning (state w) = true ->
  number_leb (decrement (remainingSeconds (state w))) 0 = true ->
  tick w =
  (tt, {| state := expired (state w);
          intervalId := None;
          onExpireCallbacks := onExpireCallbacks w;
          now := now w;
          timers := cleared_timers w;
          pending := pending w ++ [(fresh w, pauseMedia)];
          fresh := S (fresh w);
          trace := trace w ++ [(now w, ConsoleLog LogExpired)] ++
                   cleared_effects w ++
                   callback_effects (now w) (expired (state w))
                     (onExpireCallbacks w) ++
                   [(now w, CollaboratorCall pauseMedia (fresh w))] |}).
Proof.
  intros H Hr. unfold decrement in *. unfold tick. step_monad. rewrite H.
  cbn [negb with_remainingSeconds remainingSeconds]. rewrite Hr.
  rewrite expire_closed. reflexivity.
Qed.

Lemma expire_after_pause_closed (r : PlatformResult) (w : World) :
  expire_after_pause r w =
  (tt, {| state := state w;
          intervalId := intervalId w;
          onExpireCallbacks := onExpireCallbacks w;
          now := now w;
          timers := timers w ++
                    [ {| tm_handle := fresh w; tm_due := now w + 1000;
                         tm_period := None; tm_action := ResolveSettle |} ];
          pending := pending w;
          fresh := S (fresh w);
          trace := trace w ++
                   [ (now w, ConsoleLog (LogPauseMedia (message r)));
                     (now w, SetTimeoutCall (fresh w) 1000) ] |}).
Proof.
  unfold expire_after_pause. step_monad.
  rewrite <- app_assoc. reflexivity.
Qed.

Lemma expire_after_settle_closed (w : World) :
  expire_after_settle w =
  (tt, {| state := state w;
          intervalId := intervalId w;
          onExpireCallbacks := onExpireCallbacks w;
          now := now w;
          timers := timers w;
          pending := pending w ++ [(fresh w, suspendSystem)];
          fresh := S (fresh w);
          trace := trace w ++
                   [ (now w, CollaboratorCall suspendSystem (fresh w)) ] |}).
Proof. reflexivity. Qed.

Lemma expire_after_suspend_closed (r : PlatformResult) (w : World) :
  expire_after_suspend r w =
  (tt, {| state := state w;
          intervalId := intervalId w;
          onExpireCallbacks := onExpireCallbacks w;
          now := now w;
          timers := timers w;
          pending := pending w;
          fresh := fresh w;
          trace := trace w ++
                   [ (now w, ConsoleLog (LogSuspend (message r))) ] |}).
Proof. reflexivity. Qed.

(** Every tick is one of the three cases above. *)
Lemma tick_cases (w : World) :
  exec tick w = w \/
  (isRunning (state w) = true /\
   exec tick w =
     put_state (with_remainingSeconds
                  (decrement (remainingSeconds (state w))) (state w)) w) \/
  (isRunning (state w) = true /\ exec tick w = exec expire w).
Proof.
  unfold exec.
  destruct (isRunning (state w)) eqn:H.
  - destruct (number_leb (decrement (remainingSeconds (state w))) 0) eqn:Hr.
    + right; right. rewrite tick_expiring, expire_closed by assumption. auto.
    + right; left. rewrite tick_counting by assumption. auto.
  - left. rewrite tick_idle by assumption. reflexivity.
Qed.

(** ** Lists of timers *)

Section TimerLists.

Variable h : Handle.

Lemma drop_timer_handles (ts : list JsTimer) :
  map tm_handle (drop_timer h ts) = filter (other_handle h) (map tm_handle ts).
Proof.
  unfold drop_timer.
  induction ts as [|t ts IH]; cbn [map filter]; [reflexivity|].
  unfold has_handle at 1, other_handle at 1.
  destruct (Nat.eqb (tm_handle t) h); cbn [negb map]; rewrite IH;
    reflexivity.
Qed.

Lemma drop_timer_filter (f : JsTimer -> bool) (ts : list JsTimer) :
  filter f (drop_timer h ts) = drop_timer h (filter f ts).
Proof.
  unfold drop_timer.
  induction ts as [|t ts IH]; cbn; [reflexivity|].
  destruct (f t) eqn:Hf, (negb (has_handle h t)) eqn:Hh; cbn;
    rewrite ?Hf, ?Hh, IH; reflexivity.
Qed.

Lemma drop_timer_In (t : JsTimer) (ts : list JsTimer) :
  In t (drop_timer h ts) <-> In t ts /\ tm_handle t <> h.
Proof.
  unfold drop_timer. rewrite filter_In. unfold has_handle.
  destruct (Nat.eqb_spec (tm_handle t) h); cbn; intuition congruence.
Qed.

Lemma drop_timer_Forall (P : JsTimer -> Prop) (ts : list JsTimer) :
  Forall P ts -> Forall P (drop_timer h ts).
Proof.
  rewrite !Forall_forall. intros H t Ht.
  apply drop_timer_In in Ht. apply H, Ht.
Qed.

Lemma drop_timer_NoDup (ts : list JsTimer) :
  NoDup (map tm_handle ts) -> NoDup (map tm_handle (drop_timer h ts)).
Proof.
  intros H. rewrite drop_timer_handles. apply NoDup_filter, H.
Qed.

Lemma drop_timer_absent (ts : list JsTimer) :
  ~ In h (map tm_handle (drop_timer h ts)).
Proof.
  rewrite in_map_iff. intros [t [Ht Hin]].
  apply drop_timer_In in Hin. tauto.
Qed.

Lemma drop_timer_length (f : JsTimer -> bool) (ts : list JsTimer) :
  (List.length (filter f (drop_timer h ts)) <= List.length (filter f ts))%nat.
Proof.
  unfold drop_timer.
  induction ts as [|t ts IH]; cbn; [lia|].
  destruct (negb (has_handle h t)); cbn; destruct (f t); cbn; lia.
Qed.

(** Dropping a handle removes at least the timer [find] returns. *)
Lemma drop_timer_found (f : JsTimer -> bool) (t : JsTimer)
    (ts : list JsTimer) :
  find (has_handle h) ts = Some t -> f t = true ->
  (S (List.length (filter f (drop_timer h ts))) <=
   List.length (filter f ts))%nat.
Proof.
  unfold drop_timer.
  induction ts as [|a ts IH]; cbn; [discriminate|].
  destruct (has_handle h a) eqn:Ha; cbn.
  - intros [= ->] Hf. rewrite Hf. cbn.
    pose proof (drop_timer_length f ts) as Hl. unfold drop_timer in Hl. lia.
  - intros Hfind Hf. specialize (IH Hfind Hf).
    destruct (f a); cbn; lia.
Qed.

Lemma find_handle_In (t : JsTimer) (ts : list JsTimer) :
  find (has_handle h) ts = Some t -> In t ts /\ tm_handle t = h.
Proof.
  intros H. apply find_some in H. destruct H as [Hin Hh].
  split; [assumption|]. apply Nat.eqb_eq, Hh.
Qed.

Lemma find_handle_fresh (n : Handle) (ts : list JsTimer) :
  Forall (fun t => (tm_handle t < n)%nat) ts -> (n <= h)%nat ->
  find (has_handle h) ts = None.
Proof.
  intros Hall Hle.
  destruct (find (has_handle h) ts) as [t|] eqn:Hf; [|reflexivity].
  apply find_handle_In in Hf. destruct Hf as [Hin Hh].
  rewrite Forall_forall in Hall. specialize (Hall t Hin). lia.
Qed.

Lemma find_handle_app (ts us : list JsTimer) :
  find (has_handle h) ts = None ->
  find (has_handle h) (ts ++ us) = find (has_handle h) us.
Proof.
  induction ts as [|a ts IH]; cbn; [reflexivity|].
  destruct (has_handle h a); [discriminate|]. exact IH.
Qed.

Lemma drop_timer_none (ts : list JsTimer) :
  find (has_handle h) ts = None -> drop_timer h ts = ts.
Proof.
  unfold drop_timer.
  induction ts as [|a ts IH]; cbn; [reflexivity|].
  destruct (has_handle h a); [discriminate|].
  cbn. intros H. rewrite IH by assumption. reflexivity.
Qed.

End TimerLists.

Lemma filter_other_handle_single (h : Handle) :
  filter (other_handle h) [h] = [].
Proof. cbn. unfold other_handle. rewrite Nat.eqb_refl. reflexivity. Qed.

Lemma filter_other_handle_notin (h : Handle) (l : list Handle) :
  ~ In h l -> filter (other_handle h) l = l.
Proof.
  induction l as [|a l IH]; cbn; [reflexivity|].
  intros H. unfold other_handle at 1.
  destruct (Nat.eqb_spec a h) as [->|Hne]; [tauto|].
  cbn. rewrite IH by tauto. reflexivity.
Qed.

(** With distinct handles, two installed timers with one handle are one. *)
Lemma same_handle_same_timer (ts : list JsTimer) (a b : JsTimer) :
  NoDup (map tm_handle ts) -> In a ts -> In b ts ->
  tm_handle a = tm_handle b -> a = b.
Proof.
  induction ts as [|t ts IH]; cbn; [tauto|].
  intros Hnd [->|Ha] [->|Hb] Heq; inversion Hnd as [|? ? Hnotin Hnd']; subst.
  - reflexivity.
  - exfalso. apply Hnotin. rewrite Heq. apply in_map, Hb.
  - exfalso. apply Hnotin. rewrite <- Heq. apply in_map, Ha.
  - apply IH; assumption.
Qed.

(** ** Well-formed worlds *)

Lemma wf_init (t0 : Z) : wf (init t0).
Proof.
  constructor; cbn; try constructor; reflexivity.
Qed.

Lemma Forall_lt_S {A : Type} (f : A -> nat) (n : nat) (l : list A) :
  Forall (fun x => (f x < n)%nat) l -> Forall (fun x => (f x < S n)%nat) l.
Proof. apply Forall_impl. intros; lia. Qed.

Lemma NoDup_snoc_fresh (ts : list JsTimer) (t : JsTimer) :
  NoDup (map tm_handle ts) ->
  ~ In (tm_handle t) (map tm_handle ts) ->
  NoDup (map tm_handle (ts ++ [t])).
Proof.
  intros Hnd Hnotin. rewrite map_app. cbn.
  apply NoDup_app; [assumption | repeat constructor; cbn; tauto |].
  intros x Hx [<-|[]]. contradiction.
Qed.

Lemma fresh_not_in (n : Handle) (ts : list JsTimer) :
  Forall (fun t => (tm_handle t < n)%nat) ts ->
  ~ In n (map tm_handle ts).
Proof.
  rewrite Forall_forall, in_map_iff. intros H [t [Ht Hin]].
  specialize (H t Hin). lia.
Qed.

(** After the guarded [clearInterval] no tick source is left. *)
Lemma cleared_sources (w : World) :
  wf w -> map tm_handle (filter runs_tick (cleared_timers w)) = [].
Proof.
  intros [Hs _ _ _ _ _]. unfold cleared_timers, tick_sources in *.
  destruct (intervalId w) as [h|]; cbn in Hs; [|assumption].
  rewrite drop_timer_filter, drop_timer_handles, Hs.
  apply filter_other_handle_single.
Qed.

Lemma cleared_NoDup (w : World) :
  wf w -> NoDup (map tm_handle (cleared_timers w)).
Proof.
  intros H. unfold cleared_timers.
  destruct (intervalId w); [apply drop_timer_NoDup|]; apply H.
Qed.

Lemma cleared_Forall (P : JsTimer -> Prop) (w : World) :
  Forall P (timers w) -> Forall P (cleared_timers w).
Proof.
  intros H. unfold cleared_timers.
  destruct (intervalId w); [apply drop_timer_Forall|]; apply H.
Qed.

Lemma wf_start (minutes : number) (w : World) :
  wf w -> wf (exec (start minutes) w).
Proof.
  intros H. unfold exec. rewrite start_closed. cbn [snd].
  constructor; unfold tick_sources;
    cbn [state intervalId timers pending fresh isRunning opt_list].
  - rewrite filter_app, map_app, cleared_sources by assumption. reflexivity.
  - reflexivity.
  - apply NoDup_snoc_fresh; [apply cleared_NoDup, H |].
    cbn [tm_handle]. apply fresh_not_in, cleared_Forall, H.
  - apply Forall_app. split.
    + apply Forall_lt_S, cleared_Forall, H.
    + repeat constructor.
  - apply Forall_lt_S, H.
  - apply Forall_app. split; [apply cleared_Forall, H | repeat constructor].
Qed.

Lemma wf_cancel (w : World) : wf w -> wf (exec cancel w).
Proof.
  intros H. unfold exec. rewrite cancel_closed. cbn [snd].
  constructor; unfold tick_sources;
    cbn [state intervalId timers pending fresh isRunning opt_list idle].
  - apply cleared_sources, H.
  - reflexivity.
  - apply cleared_NoDup, H.
  - apply cleared_Forall, H.
  - apply H.
  - apply cleared_Forall, H.
Qed.

Lemma wf_expire (w : World) : wf w -> wf (exec expire w).
Proof.
  intros H. unfold exec. rewrite expire_closed. cbn [snd].
  constructor; unfold tick_sources;
    cbn [state intervalId timers pending fresh isRunning opt_list expired].
  - apply cleared_sources, H.
  - reflexivity.
  - apply cleared_NoDup, H.
  - apply Forall_lt_S, cleared_Forall, H.
  - apply Forall_app. split; [apply Forall_lt_S, H | repeat constructor].
  - apply cleared_Forall, H.
Qed.

Lemma wf_put_state (s : TimerState) (w : World) :
  wf w -> isRunning s = isRunning (state w) -> wf (put_state s w).
Proof.
  intros [H1 H2 H3 H4 H5 H6] Hs. constructor; cbn; try assumption.
  rewrite Hs. exact H2.
Qed.

Lemma wf_tick (w : World) : wf w -> wf (exec tick w).
Proof.
  intros H.
  destruct (tick_cases w) as [-> | [[_ ->] | [_ ->]]].
  - assumption.
  - apply wf_put_state; [assumption | reflexivity].
  - apply wf_expire, H.
Qed.

Lemma wf_expire_after_pause (r : PlatformResult) (w : World) :
  wf w -> wf (exec (expire_after_pause r) w).
Proof.
  intros [H1 H2 H3 H4 H5 H6]. unfold exec.
  rewrite expire_after_pause_closed. cbn [snd].
  constructor; unfold tick_sources in *;
    cbn [state intervalId timers pending fresh].
  - rewrite filter_app, map_app. cbn. rewrite app_nil_r. exact H1.
  - exact H2.
  - apply NoDup_snoc_fresh; [assumption |].
    apply fresh_not_in, H4.
  - apply Forall_app. split; [apply Forall_lt_S, H4 | repeat constructor].
  - apply Forall_lt_S, H5.
  - apply Forall_app. split; [assumption | repeat constructor].
Qed.

Lemma wf_expire_after_settle (w : World) :
  wf w -> wf (exec expire_after_settle w).
Proof.
  intros [H1 H2 H3 H4 H5 H6].
  constructor; unfold tick_sources in *; cbn; try assumption.
  - apply Forall_lt_S, H4.
  - apply Forall_app. split; [apply Forall_lt_S, H5 | repeat constructor].
Qed.

Lemma wf_expire_after_suspend (r : PlatformResult) (w : World) :
  wf w -> wf (exec (expire_after_suspend r) w).
Proof.
  intros [H1 H2 H3 H4 H5 H6].
  constructor; unfold tick_sources in *; cbn; assumption.
Qed.

Lemma fire_closed (h : Handle) (w : World) :
  fire h w =
  match find (has_handle h) (timers w) with
  | Some t =>
      if tm_due t <=? now w
      then run_action (tm_action t) (put_timers (after_firing h t w) w)
      else (tt, w)
  | None => (tt, w)
  end.
Proof.
  unfold fire, after_firing.
  destruct (find (has_handle h) (timers w)) as [t|]; [|reflexivity].
  destruct (tm_due t <=? now w); [|reflexivity].
  destruct (tm_period t); reflexivity.
Qed.

Lemma resolve_closed (p : Handle) (r : PlatformResult) (w : World) :
  resolve p r w =
  match find (is_promise p) (pending w) with
  | Some (_, pauseMedia) =>
      expire_after_pause r (put_pending (unparked p w) w)
  | Some (_, suspendSystem) =>
      expire_after_suspend r (put_pending (unparked p w) w)
  | None => (tt, w)
  end.
Proof.
  unfold resolve, unparked.
  destruct (find (is_promise p) (pending w)) as [[q []]|]; reflexivity.
Qed.

Lemma wf_taken (h : Handle) (t : JsTimer) (w : World) :
  wf w -> find (has_handle h) (timers w) = Some t ->
  wf (put_timers (after_firing h t w) w).
Proof.
  intros [H1 H2 H3 H4 H5 H6] Hf.
  apply find_handle_In in Hf. destruct Hf as [Hin Hh].
  assert (Hk : runs_tick t = periodic t)
    by (rewrite Forall_forall in H6; apply H6, Hin).
  assert (Hlt : (h < fresh w)%nat)
    by (rewrite Forall_forall in H4; rewrite <- Hh; apply H4, Hin).
  unfold after_firing, periodic in *.
  destruct (tm_period t) as [ms|] eqn:Hp.
  - (* an interval: it is the tick source, and stays so *)
    assert (Hsrc : In h (tick_sources w)).
    { unfold tick_sources. rewrite in_map_iff. exists t.
      split; [assumption|]. apply filter_In. tauto. }
    rewrite H1 in Hsrc. destruct (intervalId w) as [i|] eqn:Hi; [|destruct Hsrc].
    destruct Hsrc as [->|[]].
    constructor; unfold tick_sources in *;
      cbn [put_timers exec set_timers snd state intervalId timers pending fresh].
    + rewrite filter_app, map_app, drop_timer_filter, drop_timer_handles, H1.
      rewrite Hi. cbn [opt_list]. rewrite filter_other_handle_single.
      cbn [filter]. unfold runs_tick in *. cbn [tm_action].
      rewrite Hk. reflexivity.
    + rewrite Hi. exact H2.
    + apply NoDup_snoc_fresh; [apply drop_timer_NoDup, H3 |].
      cbn [tm_handle]. apply drop_timer_absent.
    + apply Forall_app. split; [apply drop_timer_Forall, H4|].
      repeat constructor. exact Hlt.
    + exact H5.
    + apply Forall_app. split; [apply drop_timer_Forall, H6|].
      repeat constructor. unfold runs_tick in *. cbn. exact Hk.
  - (* a timeout: no tick source carries its handle *)
    assert (Hnot : ~ In h (tick_sources w)).
    { unfold tick_sources. rewrite in_map_iff. intros [t' [Ht' Hin']].
      apply filter_In in Hin'. destruct Hin' as [Hin' Hrt].
      assert (t' = t)
        by (apply (same_handle_same_timer (timers w)); congruence).
      subst t'. congruence. }
    constructor; unfold tick_sources in *;
      cbn [put_timers exec set_timers snd state intervalId timers pending fresh].
    + rewrite drop_timer_filter, drop_timer_handles.
      rewrite filter_other_handle_notin by assumption. exact H1.
    + exact H2.
    + apply drop_timer_NoDup, H3.
    + apply drop_timer_Forall, H4.
    + exact H5.
    + apply drop_timer_Forall, H6.
Qed.

Lemma wf_fire (h : Handle) (w : World) : wf w -> wf (exec (fire h) w).
Proof.
  intros H. unfold exec. rewrite fire_closed.
  destruct (find (has_handle h) (timers w)) as [t|] eqn:Hf; [|assumption].
  destruct (tm_due t <=? now w); [|assumption].
  pose proof (wf_taken h t w H Hf) as H'.
  destruct (tm_action t); cbn [run_action].
  - apply wf_tick, H'.
  - apply wf_expire_after_settle, H'.
Qed.

Lemma wf_put_pending (p : Handle) (w : World) :
  wf w -> wf (put_pending (unparked p w) w).
Proof.
  intros [H1 H2 H3 H4 H5 H6]. constructor; cbn; try assumption.
  unfold unparked. rewrite Forall_forall in *. intros x Hx.
  apply filter_In in Hx. apply H5, Hx.
Qed.

Lemma wf_resolve (p : Handle) (r : PlatformResult) (w : World) :
  wf w -> wf (exec (resolve p r) w).
Proof.
  intros H. unfold exec. rewrite resolve_closed.
  destruct (find (is_promise p) (pending w)) as [[q []]|]; [| |assumption].
  - apply wf_expire_after_pause, wf_put_pending, H.
  - apply wf_expire_after_suspend, wf_put_pending, H.
Qed.

Lemma wf_step (w : World) (i : Input) : wf w -> wf (step w i).
Proof.
  intros H. unfold step. destruct i; cbn [dispatch].
  - unfold exec. rewrite then_ret. apply (wf_start minutes w H).
  - unfold exec. rewrite then_ret. apply (wf_cancel w H).
  - exact H.
  - destruct H as [H1 H2 H3 H4 H5 H6]. constructor; assumption.
  - destruct H as [H1 H2 H3 H4 H5 H6]. constructor; assumption.
  - apply wf_fire, H.
  - apply wf_resolve, H.
Qed.

Lemma wf_run (inputs : list Input) (w : World) : wf w -> wf (run inputs w).
Proof.
  revert w. induction inputs as [|i inputs IH]; intros w H; cbn.
  - exact H.
  - apply IH, wf_step, H.
Qed.

(** ** Counting collaborator calls *)

Lemma calls_count (c : Collaborator) (w : World) :
  calls c w = count_calls c (trace w).
Proof. reflexivity. Qed.

Lemma count_calls_app (c : Collaborator) (es fs : list (Z * Effect)) :
  count_calls c (es ++ fs) = (count_calls c es + count_calls c fs)%nat.
Proof. unfold count_calls. rewrite filter_app, length_app. reflexivity. Qed.

Lemma count_calls_cleared (c : Collaborator) (w : World) :
  count_calls c (cleared_effects w) = 0%nat.
Proof. unfold cleared_effects. destruct (intervalId w); reflexivity. Qed.

Lemma count_calls_callbacks (c : Collaborator) (t : Z) (s : TimerState)
    (cbs : list TimerCallback) :
  count_calls c (callback_effects t s cbs) = 0%nat.
Proof.
  induction cbs as [|cb cbs IH]; [reflexivity|].
  cbn [callback_effects flat_map]. fold (callback_effects t s cbs).
  rewrite count_calls_app, IH.
  destruct (cb_body cb s); reflexivity.
Qed.

(** Steps that leave the trace, the state and the pipelines alone. *)
Ltac quiet :=
  unfold calls, armed, in_flight, parked, settling; cbn; lia.

Ltac count_trace :=
  rewrite ?calls_count;
  cbn [trace snd put_timers put_pending put_state exec set_timers
       set_pending set_state];
  rewrite ?count_calls_app, ?count_calls_cleared, ?count_calls_callbacks;
  cbn [count_calls filter is_call snd collab_eqb List.length].

Lemma settling_cleared (w : World) :
  (List.length (filter resolves_settle (cleared_timers w)) <= settling w)%nat.
Proof.
  unfold cleared_timers, settling.
  destruct (intervalId w); [apply drop_timer_length | lia].
Qed.

(** The trace only grows. *)
Lemma tick_calls_mono (c : Collaborator) (w : World) :
  (calls c w <= calls c (exec tick w))%nat.
Proof.
  destruct (tick_cases w) as [-> | [[_ ->] | [_ ->]]]; [lia | quiet |].
  unfold exec. rewrite expire_closed. count_trace. lia.
Qed.

Lemma step_calls_mono (c : Collaborator) (w : World) (i : Input) :
  (calls c w <= calls c (step w i))%nat.
Proof.
  unfold step, exec. destruct i; cbn [dispatch]; try (quiet).
  - rewrite then_ret, start_closed. count_trace. lia.
  - rewrite then_ret, cancel_closed. count_trace. lia.
  - rewrite fire_closed.
    destruct (find (has_handle h) (timers w)) as [t|]; [|quiet].
    destruct (tm_due t <=? now w); [|quiet].
    destruct (tm_action t); cbn [run_action].
    + apply (tick_calls_mono c (put_timers (after_firing h t w) w)).
    + rewrite expire_after_settle_closed. count_trace. lia.
  - rewrite resolve_closed.
    destruct (find (is_promise p) (pending w)) as [[q []]|]; [| |quiet].
    + rewrite expire_after_pause_closed. count_trace. lia.
    + rewrite expire_after_suspend_closed. count_trace. lia.
Qed.

Lemma run_calls_mono (c : Collaborator) (inputs : list Input) (w : World) :
  (calls c w <= calls c (run inputs w))%nat.
Proof.
  revert w. induction inputs as [|i inputs IH]; intros w; [cbn; lia | rewrite run_cons].
  specialize (IH (step w i)). pose proof (step_calls_mono c w i). lia.
Qed.

(** [pauseMedia] is called only by a tick that ends a running countdown,
    and that tick disarms it. *)
Lemma tick_pause_budget (w : World) :
  (calls pauseMedia (exec tick w) + armed (exec tick w) =
   calls pauseMedia w + armed w)%nat.
Proof.
  destruct (tick_cases w) as [-> | [[_ ->] | [Hr ->]]]; [lia | quiet |].
  unfold exec, armed. rewrite expire_closed, Hr. count_trace.
  cbn [state isRunning expired]. lia.
Qed.

Lemma step_pause_budget (w : World) (i : Input) :
  is_start i = false ->
  (calls pauseMedia (step w i) + armed (step w i) <=
   calls pauseMedia w + armed w)%nat.
Proof.
  unfold step, exec. destruct i; cbn [dispatch is_start];
    intros Hi; try discriminate; try (quiet).
  - rewrite then_ret, cancel_closed. unfold armed.
    count_trace. cbn. destruct (isRunning (state w)); lia.
  - rewrite fire_closed.
    destruct (find (has_handle h) (timers w)) as [t|]; [|quiet].
    destruct (tm_due t <=? now w); [|quiet].
    destruct (tm_action t); cbn [run_action].
    + pose proof (tick_pause_budget (put_timers (after_firing h t w) w)) as H.
      unfold exec in H. rewrite H. quiet.
    + rewrite expire_after_settle_closed. unfold armed. count_trace.
      cbn. lia.
  - rewrite resolve_closed.
    destruct (find (is_promise p) (pending w)) as [[q []]|]; [| |quiet].
    + rewrite expire_after_pause_closed. unfold armed. count_trace. cbn. lia.
    + rewrite expire_after_suspend_closed. unfold armed. count_trace.
      cbn. lia.
Qed.

Lemma run_pause_budget (inputs : list Input) (w : World) :
  forallb (fun i => negb (is_start i)) inputs = true ->
  (calls pauseMedia (run inputs w) + armed (run inputs w) <=
   calls pauseMedia w + armed w)%nat.
Proof.
  revert w. induction inputs as [|i inputs IH]; intros w H; [cbn; lia | rewrite run_cons].
  cbn in H. apply andb_prop in H. destruct H as [Hi H].
  apply negb_true_iff in Hi.
  specialize (IH (step w i) H). pose proof (step_pause_budget w i Hi). lia.
Qed.

(** [suspendSystem] is called only by a pipeline that called [pauseMedia]
    before: every step keeps
    [calls suspendSystem + in_flight - calls pauseMedia] from growing. *)

Lemma unparked_length (c : Collaborator) (p : Handle) (w : World) :
  (List.length (filter (fun x => collab_eqb c (snd x)) (unparked p w)) <=
   parked c w)%nat.
Proof.
  unfold unparked, parked.
  induction (pending w) as [|a l IH]; cbn; [lia|].
  destruct (negb (is_promise p a)); cbn;
    destruct (collab_eqb c (snd a)); quiet.
Qed.

Lemma unparked_found (p q : Handle) (c : Collaborator) (w : World) :
  find (is_promise p) (pending w) = Some (q, c) ->
  (S (List.length (filter (fun x => collab_eqb c (snd x)) (unparked p w))) <=
   parked c w)%nat.
Proof.
  unfold unparked, parked.
  induction (pending w) as [|a l IH]; cbn; [discriminate|].
  destruct (is_promise p a) eqn:Ha; cbn.
  - intros [= ->]. cbn. replace (collab_eqb c c) with true by (destruct c; reflexivity).
    cbn. clear IH.
    assert (List.length
              (filter (fun x => collab_eqb c (snd x))
                 (filter (fun x => negb (is_promise p x)) l)) <=
            List.length (filter (fun x => collab_eqb c (snd x)) l))%nat; [|lia].
    induction l as [|b l IH]; cbn; [lia|].
    destruct (negb (is_promise p b)); cbn;
      destruct (collab_eqb c (snd b)); quiet.
  - intros Hf. specialize (IH Hf).
    destruct (collab_eqb c (snd a)); quiet.
Qed.

Ltac count_flight :=
  unfold in_flight, parked, settling;
  cbn [state intervalId timers pending fresh trace snd put_timers put_pending
       put_state exec set_timers set_pending set_state];
  rewrite ?filter_app, ?length_app;
  cbn [filter resolves_settle tm_action collab_eqb snd List.length].

Lemma expire_suspend_budget (w : World) :
  (calls suspendSystem (exec expire w) + in_flight (exec expire w) +
     calls pauseMedia w <=
   calls suspendSystem w + in_flight w + calls pauseMedia (exec expire w))%nat.
Proof.
  unfold exec. rewrite expire_closed. count_trace. count_flight.
  pose proof (settling_cleared w). unfold settling in *. lia.
Qed.

Lemma tick_suspend_budget (w : World) :
  (calls suspendSystem (exec tick w) + in_flight (exec tick w) +
     calls pauseMedia w <=
   calls suspendSystem w + in_flight w + calls pauseMedia (exec tick w))%nat.
Proof.
  destruct (tick_cases w) as [-> | [[_ ->] | [_ ->]]]; [lia | quiet |].
  apply expire_suspend_budget.
Qed.

Lemma step_suspend_budget (w : World) (i : Input) :
  wf w ->
  (calls suspendSystem (step w i) + in_flight (step w i) +
     calls pauseMedia w <=
   calls suspendSystem w + in_flight w + calls pauseMedia (step w i))%nat.
Proof.
  intros Hwf. unfold step, exec. destruct i; cbn [dispatch]; try (quiet).
  - rewrite then_ret, start_closed. count_trace.
    count_flight. pose proof (settling_cleared w). unfold settling in *. lia.
  - rewrite then_ret, cancel_closed. count_trace.
    count_flight. pose proof (settling_cleared w). unfold settling in *. lia.
  - rewrite fire_closed.
    destruct (find (has_handle h) (timers w)) as [t|] eqn:Hf; [|quiet].
    destruct (tm_due t <=? now w); [|quiet].
    set (w1 := put_timers (after_firing h t w) w).
    assert (Hk : runs_tick t = periodic t).
    { destruct (find_handle_In h t _ Hf) as [Hin _].
      pose proof (wf_kinds w Hwf) as H6. rewrite Forall_forall in H6.
      apply H6, Hin. }
    assert (H1 : calls suspendSystem w1 = calls suspendSystem w) by reflexivity.
    assert (H2 : calls pauseMedia w1 = calls pauseMedia w) by reflexivity.
    assert (H3 : parked pauseMedia w1 = parked pauseMedia w) by reflexivity.
    unfold runs_tick, periodic in Hk.
    destruct (tm_action t) eqn:Ha; cbn [run_action].
    + (* a tick *)
      assert (H4 : (settling w1 <= settling w)%nat).
      { unfold w1, after_firing. destruct (tm_period t); [|discriminate].
        count_flight. rewrite Ha. cbn.
        pose proof (drop_timer_length h resolves_settle (timers w)). lia. }
      pose proof (tick_suspend_budget w1) as H. unfold exec in H.
      unfold in_flight in *. lia.
    + (* the settle timeout *)
      assert (H4 : (S (settling w1) <= settling w)%nat).
      { unfold w1, after_firing. destruct (tm_period t); [discriminate|].
        count_flight. apply (drop_timer_found h resolves_settle t); [exact Hf|].
        unfold resolves_settle. rewrite Ha. reflexivity. }
      rewrite expire_after_settle_closed. count_trace. count_flight.
      unfold in_flight, parked, settling, calls, count_calls in *.
      subst w1. cbn in *. lia.
  - rewrite resolve_closed.
    destruct (find (is_promise p) (pending w)) as [[q []]|] eqn:Hf;
      [| |quiet].
    + pose proof (unparked_found p q pauseMedia w Hf) as H4.
      rewrite expire_after_pause_closed. count_trace. count_flight.
      unfold in_flight, parked, settling, calls, count_calls in *.
      cbn in *. lia.
    + pose proof (unparked_length pauseMedia p w) as H4.
      rewrite expire_after_suspend_closed. count_trace. count_flight.
      unfold in_flight, parked, settling, calls, count_calls in *.
      cbn in *. lia.
Qed.

Lemma run_suspend_budget (inputs : list Input) (w : World) :
  wf w ->
  (calls suspendSystem (run inputs w) + in_flight (run inputs w) +
     calls pauseMedia w <=
   calls suspendSystem w + in_flight w + calls pauseMedia (run inputs w))%nat.
Proof.
  revert w. induction inputs as [|i inputs IH]; intros w H; [cbn; lia | rewrite run_cons].
  specialize (IH (step w i) (wf_step w i H)).
  pose proof (step_suspend_budget w i H). lia.
Qed.

(** ** How the timer state moves *)

Lemma tick_state (w : World) : state (exec tick w) = after_tick (state w).
Proof.
  unfold exec, after_tick.
  destruct (isRunning (state w)) eqn:H.
  - destruct (number_leb (decrement (remainingSeconds (state w))) 0) eqn:Hr.
    + rewrite tick_expiring by assumption. reflexivity.
    + rewrite tick_counting by assumption. reflexivity.
  - rewrite tick_idle by assumption. reflexivity.
Qed.

Lemma step_state (w : World) (i : Input) : state_moved w i (state (step w i)).
Proof.
  unfold step, exec. destruct i; cbn [dispatch state_moved]; try reflexivity.
  - rewrite then_ret, start_closed. reflexivity.
  - rewrite then_ret, cancel_closed. reflexivity.
  - rewrite fire_closed.
    destruct (find (has_handle h) (timers w)) as [t|]; [|left; reflexivity].
    destruct (tm_due t <=? now w); [|left; reflexivity].
    destruct (tm_action t); cbn [run_action].
    + right. apply (tick_state (put_timers (after_firing h t w) w)).
    + left. reflexivity.
  - rewrite resolve_closed.
    destruct (find (is_promise p) (pending w)) as [[q []]|]; reflexivity.
Qed.

Lemma state_ok_idle : state_ok idle.
Proof. constructor; reflexivity. Qed.

Lemma state_ok_started (minutes : number) (t : Z) :
  state_ok (started minutes t).
Proof. constructor; cbn; discriminate. Qed.

Lemma state_ok_after_tick (s : TimerState) : state_ok s -> state_ok (after_tick s).
Proof.
  intros H. unfold after_tick.
  destruct (isRunning s) eqn:Hr; [|exact H].
  destruct H as [H1 H2].
  assert (Hs : startedAt s <> None).
  { intros Hn. specialize (H2 Hn). rewrite H2 in Hr. discriminate. }
  destruct (number_leb (decrement (remainingSeconds s)) 0);
    constructor; cbn [expired with_remainingSeconds isRunning remainingSeconds
                      startedAt]; intros; congruence.
Qed.

Lemma state_ok_step (w : World) (i : Input) :
  state_ok (state w) -> state_ok (state (step w i)).
Proof.
  intros H. pose proof (step_state w i) as Hm.
  destruct i; cbn [state_moved] in Hm; try (rewrite Hm; assumption).
  - rewrite Hm. apply state_ok_started.
  - rewrite Hm. apply state_ok_idle.
  - destruct Hm as [-> | ->]; [assumption | apply state_ok_after_tick, H].
Qed.

Lemma state_ok_run (inputs : list Input) (w : World) :
  state_ok (state w) -> state_ok (state (run inputs w)).
Proof.
  revert w. induction inputs as [|i inputs IH]; intros w H;
    [assumption | rewrite run_cons].
  apply IH, state_ok_step, H.
Qed.

Lemma within_total_idle : within_total idle.
Proof.
  split; [apply count_zero|]. split; reflexivity.
Qed.

Lemma within_total_expired (s : TimerState) :
  within_total s -> within_total (expired s).
Proof.
  intros [Hc [_ Hle]]. split; [apply count_zero|].
  split; [reflexivity|]. apply (count_le_zero_le _ _ Hc Hle).
Qed.

Lemma within_total_after_tick (s : TimerState) :
  within_total s -> within_total (after_tick s).
Proof.
  unfold after_tick. intros H.
  destruct (isRunning s); [|assumption].
  destruct (number_leb (decrement (remainingSeconds s)) 0) eqn:Hr;
    [apply within_total_expired, H|].
  destruct H as [Hc [_ Hle]].
  destruct (count_decrement _ Hc) as [Hx | [Hc' Hmono]]; [congruence|].
  split; [exact Hc'|].
  cbn [with_remainingSeconds remainingSeconds totalSeconds].
  split; [apply zero_le_count, Hc' | apply Hmono, Hle].
Qed.

Lemma within_total_step (w : World) (i : Input) :
  start_nonneg i -> within_total (state w) -> within_total (state (step w i)).
Proof.
  intros Hi H. pose proof (step_state w i) as Hm.
  destruct i; cbn [state_moved start_nonneg] in *;
    try (rewrite Hm; assumption).
  - rewrite Hm. unfold within_total.
    cbn [started remainingSeconds totalSeconds].
    pose proof (mul_60_nonneg minutes Hi) as Hc.
    split; [exact Hc|].
    split; [apply zero_le_count, Hc | apply count_le_refl, Hc].
  - rewrite Hm. apply within_total_idle.
  - destruct Hm as [-> | ->]; [assumption | apply within_total_after_tick, H].
Qed.

Lemma within_total_run (inputs : list Input) (w : World) :
  Forall start_nonneg inputs -> within_total (state w) ->
  within_total (state (run inputs w)).
Proof.
  revert w. induction inputs as [|i inputs IH]; intros w Hall H;
    [assumption | rewrite run_cons].
  inversion Hall; subst. apply IH; [assumption|].
  apply within_total_step; assumption.
Qed.

Lemma after_tick_keeps (s : TimerState) :
  totalSeconds (after_tick s) = totalSeconds s /\
  startedAt (after_tick s) = startedAt s /\
  (isRunning s = false -> after_tick s = s).
Proof.
  unfold after_tick. destruct (isRunning s); [|auto].
  destruct (number_leb (decrement (remainingSeconds s)) 0);
    repeat split; discriminate.
Qed.

Lemma step_keeps (w : World) (i : Input) :
  is_start i || is_cancel i = false ->
  totalSeconds (state (step w i)) = totalSeconds (state w) /\
  startedAt (state (step w i)) = startedAt (state w) /\
  (isRunning (state w) = false -> state (step w i) = state w).
Proof.
  intros Hi. pose proof (step_state w i) as Hm.
  destruct i; cbn [state_moved is_start is_cancel orb] in *;
    try discriminate; try (rewrite Hm; auto).
  destruct Hm as [-> | ->]; [auto | apply after_tick_keeps].
Qed.

Lemma run_keeps (inputs : list Input) (w : World) :
  no_start_cancel inputs = true ->
  totalSeconds (state (run inputs w)) = totalSeconds (state w) /\
  startedAt (state (run inputs w)) = startedAt (state w) /\
  (isRunning (state w) = false -> state (run inputs w) = state w).
Proof.
  revert w. induction inputs as [|i inputs IH]; intros w H; [cbn; auto|].
  rewrite run_cons. cbn in H. apply andb_prop in H. destruct H as [Hi H].
  apply negb_true_iff in Hi.
  destruct (step_keeps w i Hi) as [H1 [H2 H3]].
  destruct (IH (step w i) H) as [H4 [H5 H6]].
  rewrite H4, H5, H1, H2. repeat split.
  intros Hr. rewrite H6; rewrite (H3 Hr); [reflexivity | exact Hr].
Qed.

(** ** Delivering timers and promises *)

Lemma step_fire_found (h : Handle) (t : JsTimer) (w : World) :
  find (has_handle h) (timers w) = Some t -> tm_due t <= now w ->
  step w (Fire h) =
  exec (run_action (tm_action t)) (put_timers (after_firing h t w) w).
Proof.
  intros Hf Hd. unfold step, exec. cbn [dispatch]. rewrite fire_closed, Hf.
  destruct (Z.leb_spec (tm_due t) (now w)); [reflexivity | lia].
Qed.

Lemma step_fire_early (h : Handle) (t : JsTimer) (w : World) :
  find (has_handle h) (timers w) = Some t -> now w < tm_due t ->
  step w (Fire h) = w.
Proof.
  intros Hf Hd. unfold step, exec. cbn [dispatch]. rewrite fire_closed, Hf.
  destruct (Z.leb_spec (tm_due t) (now w)); [lia | reflexivity].
Qed.

Lemma step_fire_absent (h : Handle) (w : World) :
  find (has_handle h) (timers w) = None -> step w (Fire h) = w.
Proof.
  intros Hf. unfold step, exec. cbn [dispatch]. rewrite fire_closed, Hf.
  reflexivity.
Qed.

Lemma find_last_timer (h : Handle) (t : JsTimer) (ts : list JsTimer) :
  Forall (fun x => (tm_handle x < h)%nat) ts -> tm_handle t = h ->
  find (has_handle h) (ts ++ [t]) = Some t /\ drop_timer h (ts ++ [t]) = ts.
Proof.
  intros Hall Ht.
  assert (Hnone : find (has_handle h) ts = None)
    by (apply (find_handle_fresh h h); [assumption | lia]).
  split.
  - rewrite find_handle_app by assumption. cbn. unfold has_handle.
    rewrite Ht, Nat.eqb_refl. reflexivity.
  - unfold drop_timer. rewrite filter_app. fold (drop_timer h ts).
    rewrite drop_timer_none by assumption. cbn. unfold has_handle.
    rewrite Ht, Nat.eqb_refl. cbn. apply app_nil_r.
Qed.

Lemma find_last_promise (p : Handle) (c : Collaborator)
    (ps : list (Handle * Collaborator)) :
  Forall (fun x => (fst x < p)%nat) ps ->
  find (is_promise p) (ps ++ [(p, c)]) = Some (p, c) /\
  filter (fun x => negb (is_promise p x)) (ps ++ [(p, c)]) = ps.
Proof.
  intros Hall. induction ps as [|a ps IH]; cbn.
  - unfold is_promise. cbn. rewrite Nat.eqb_refl. auto.
  - inversion Hall as [|? ? Ha Hps]; subst. specialize (IH Hps).
    unfold is_promise at 1 3.
    destruct (Nat.eqb_spec (fst a) p); [lia|]. cbn.
    destruct IH as [-> ->]. auto.
Qed.

(** The promise allocated last settles: its activation resumes. *)
Lemma step_resolve_last (p : Handle) (c : Collaborator) (r : PlatformResult)
    (ps : list (Handle * Collaborator)) (w : World) :
  pending w = ps ++ [(p, c)] ->
  Forall (fun x => (fst x < p)%nat) ps ->
  step w (Resolve p r) =
  exec (match c with
        | pauseMedia => expire_after_pause r
        | suspendSystem => expire_after_suspend r
        end) (put_pending ps w).
Proof.
  intros Hp Hall. unfold step, exec. cbn [dispatch].
  rewrite resolve_closed. unfold unparked. rewrite Hp.
  destruct (find_last_promise p c ps Hall) as [-> ->].
  destruct c; reflexivity.
Qed.

(** The timeout allocated last fires once it is due. *)
Lemma step_fire_last (h : Handle) (t : JsTimer) (ts : list JsTimer)
    (w : World) :
  timers w = ts ++ [t] ->
  Forall (fun x => (tm_handle x < h)%nat) ts ->
  tm_handle t = h -> tm_period t = None -> tm_due t <= now w ->
  step w (Fire h) = exec (run_action (tm_action t)) (put_timers ts w).
Proof.
  intros Hts Hall Hh Hp Hd.
  destruct (find_last_timer h t ts Hall Hh) as [Hf Hdrop].
  rewrite (step_fire_found h t w) by (rewrite ?Hts; assumption).
  unfold after_firing. rewrite Hp, Hts, Hdrop. reflexivity.
Qed.

(** In a well-formed world the handle in [intervalId] is that of the one
    installed interval, and the interval runs [tick]. *)
Lemma source_found (h : Handle) (w : World) :
  wf w -> intervalId w = Some h ->
  exists t, find (has_handle h) (timers w) = Some t /\
            tm_action t = RunTick /\ In t (timers w).
Proof.
  intros Hwf Hi. pose proof (wf_sources w Hwf) as Hs.
  rewrite Hi in Hs. cbn in Hs.
  assert (Hin : In h (tick_sources w)) by (rewrite Hs; left; reflexivity).
  unfold tick_sources in Hin. apply in_map_iff in Hin.
  destruct Hin as [t [Hh Hin]]. apply filter_In in Hin.
  destruct Hin as [Hin Hrt].
  destruct (find (has_handle h) (timers w)) as [t'|] eqn:Hf.
  - destruct (find_handle_In h t' _ Hf) as [Hin' Hh'].
    assert (t' = t)
      by (apply (same_handle_same_timer (timers w));
          [apply Hwf | assumption | assumption | congruence]).
    subst t'. exists t. repeat split; try assumption.
    unfold runs_tick in Hrt. destruct (tm_action t); [reflexivity|discriminate].
  - exfalso. pose proof (find_none _ _ Hf t Hin) as Hno.
    unfold has_handle in Hno. rewrite Hh, Nat.eqb_refl in Hno. discriminate.
Qed.

(** The interval fires: this is a call of [tick]. *)
Lemma step_fire_source (h : Handle) (w : World) :
  wf w -> intervalId w = Some h -> due h w = true ->
  exists ts, step w (Fire h) = exec tick (put_timers ts w) /\
             wf (put_timers ts w).
Proof.
  intros Hwf Hi Hd.
  destruct (source_found h w Hwf Hi) as [t [Hf [Ha _]]].
  unfold due in Hd. rewrite Hf in Hd. apply Z.leb_le in Hd.
  exists (after_firing h t w). split.
  - rewrite (step_fire_found h t w Hf Hd), Ha. reflexivity.
  - apply wf_taken; assumption.
Qed.

(** ** The expiry sequence, stage by stage *)

Lemma expiring_fire (h : Handle) (w : World) :
  wf w -> isRunning (state w) = true ->
  (remainingSeconds (state w) <= 1)%number ->
  intervalId w = Some h -> due h w = true ->
  let w1 := step w (Fire h) in
  state w1 = expired (state w) /\
  trace w1 = trace w ++ expiry_effects h w /\
  pending w1 = pending w ++ [(fresh w, pauseMedia)] /\
  fresh w1 = S (fresh w) /\
  now w1 = now w /\
  intervalId w1 = None /\
  onExpireCallbacks w1 = onExpireCallbacks w /\
  Forall (fun t => (tm_handle t < S (fresh w))%nat) (timers w1).
Proof.
  intros Hwf Hr Hrem Hi Hd w1.
  pose proof (wf_step w (Fire h) Hwf) as Hwf1. fold w1 in Hwf1.
  pose proof (wf_timers_fresh w1 Hwf1) as Hts. revert Hts. clear Hwf1.
  destruct (step_fire_source h w Hwf Hi Hd) as [ts [Heq _]].
  subst w1. rewrite Heq. clear Heq. unfold exec.
  rewrite tick_expiring by (assumption || apply le_one_expires, Hrem).
  unfold expiry_effects, cleared_effects.
  cbn [snd state trace pending fresh now intervalId onExpireCallbacks
       put_timers exec set_timers].
  rewrite Hi. cbn [opt_list map app]. intros Hts.
  repeat split; try reflexivity. exact Hts.
Qed.

Lemma elapse_closed (d : Z) (w : World) :
  0 <= d ->
  step w (Elapse d) =
  {| state := state w; intervalId := intervalId w;
     onExpireCallbacks := onExpireCallbacks w; now := now w + d;
     timers := timers w; pending := pending w; fresh := fresh w;
     trace := trace w |}.
Proof.
  intros Hd. unfold step, exec. cbn [dispatch]. unfold elapse. step_monad.
  rewrite Z.max_r by assumption. reflexivity.
Qed.

(** From a world whose newest pending promise is the [pauseMedia] call of
    an expiry: the call settles, the settle delay runs out, the
    [suspendSystem] call settles. *)
Lemma pipeline_run (w1 : World) (ps : list (Handle * Collaborator))
    (p : Handle) (r1 r2 : PlatformResult) (d : Z) :
  pending w1 = ps ++ [(p, pauseMedia)] ->
  Forall (fun x => (fst x < p)%nat) ps ->
  Forall (fun t => (tm_handle t < S p)%nat) (timers w1) ->
  fresh w1 = S p ->
  1000 <= d ->
  run [Resolve p r1; Elapse d; Fire (S p); Resolve (S (S p)) r2] w1 =
  {| state := state w1; intervalId := intervalId w1;
     onExpireCallbacks := onExpireCallbacks w1; now := now w1 + d;
     timers := timers w1; pending := ps; fresh := S (S (S p));
     trace := trace w1 ++
              pipeline_effects p (now w1) (now w1 + d) r1 r2 |}.
Proof.
  intros Hp Hps Hts Hn Hd.
  rewrite run_cons, (step_resolve_last p pauseMedia r1 ps w1 Hp Hps).
  unfold exec at 1. rewrite expire_after_pause_closed.
  cbn [snd state trace pending fresh now intervalId onExpireCallbacks
       timers put_pending exec set_pending].
  rewrite Hn.
  rewrite run_cons, elapse_closed by lia.
  cbn [snd state trace pending fresh now intervalId onExpireCallbacks timers].
  rewrite run_cons.
  rewrite (step_fire_last (S p)
             {| tm_handle := S p; tm_due := now w1 + 1000; tm_period := None;
                tm_action := ResolveSettle |} (timers w1));
    [ | reflexivity | assumption | reflexivity | reflexivity | cbn; lia ].
  cbn [run_action tm_action]. unfold exec at 1.
  rewrite expire_after_settle_closed.
  cbn [snd state trace pending fresh now intervalId onExpireCallbacks
       timers put_timers exec set_timers].
  rewrite run_cons.
  rewrite (step_resolve_last (S (S p)) suspendSystem r2 ps);
    [ | reflexivity | eapply Forall_impl; [|exact Hps]; cbn; intros; lia ].
  unfold exec. rewrite expire_after_suspend_closed.
  cbn [snd state trace pending fresh now intervalId onExpireCallbacks
       timers put_pending exec set_pending run fold_left].
  unfold pipeline_effects. repeat rewrite <- app_assoc.
  reflexivity.
Qed.

(** Before the settle delay has run out the timeout does not fire. *)
Lemma settle_not_early (w1 : World) (ps : list (Handle * Collaborator))
    (p : Handle) (r1 : PlatformResult) (d : Z) :
  pending w1 = ps ++ [(p, pauseMedia)] ->
  Forall (fun x => (fst x < p)%nat) ps ->
  Forall (fun t => (tm_handle t < S p)%nat) (timers w1) ->
  fresh w1 = S p ->
  0 <= d < 1000 ->
  let w3 := run [Resolve p r1; Elapse d] w1 in
  step w3 (Fire (S p)) = w3.
Proof.
  intros Hp Hps Hts Hn Hd w3.
  assert (Hw3 : w3 =
    {| state := state w1; intervalId := intervalId w1;
       onExpireCallbacks := onExpireCallbacks w1; now := now w1 + d;
       timers := timers w1 ++
                 [ {| tm_handle := S p; tm_due := now w1 + 1000;
                      tm_period := None; tm_action := ResolveSettle |} ];
       pending := ps; fresh := S (S p);
       trace := trace w1 ++
                [ (now w1, ConsoleLog (LogPauseMedia (message r1)));
                  (now w1, SetTimeoutCall (S p) 1000) ] |}).
  { subst w3.
    rewrite run_cons, (step_resolve_last p pauseMedia r1 ps w1 Hp Hps).
    unfold exec at 1. rewrite expire_after_pause_closed.
    cbn [snd state trace pending fresh now intervalId onExpireCallbacks
         timers put_pending exec set_pending].
    rewrite Hn.
    rewrite run_cons, elapse_closed by lia. reflexivity. }
  rewrite Hw3.
  apply (step_fire_early (S p)
           {| tm_handle := S p; tm_due := now w1 + 1000; tm_period := None;
              tm_action := ResolveSettle |}); [|cbn; lia].
  cbn [timers].
  apply (find_last_timer (S p)); [assumption | reflexivity].
Qed.

(** ** Counting down, one second at a time *)

Lemma find_drop_none (h : Handle) (ts : list JsTimer) :
  find (has_handle h) (drop_timer h ts) = None.
Proof.
  unfold drop_timer. induction ts as [|a ts IH]; cbn; [reflexivity|].
  destruct (has_handle h a) eqn:Ha; cbn; [assumption|].
  rewrite Ha. assumption.
Qed.

Lemma ticking_found (h : Handle) (w : World) :
  ticking h w = true ->
  exists t, find (has_handle h) (timers w) = Some t /\
            tm_action t = RunTick /\ tm_period t = Some 1000 /\
            tm_due t <= now w + 1000.
Proof.
  unfold ticking. destruct (find (has_handle h) (timers w)) as [t|];
    [|discriminate].
  destruct (tm_action t) eqn:Ha; [|discriminate].
  destruct (tm_period t) as [ms|] eqn:Hp; [|discriminate].
  intros H. apply andb_prop in H. destruct H as [H1 H2].
  apply Z.eqb_eq in H1. apply Z.leb_le in H2. subst ms.
  exists t. repeat split; try reflexivity; assumption.
Qed.

Lemma ticking_due (h : Handle) (w : World) :
  ticking h w = true -> due h (step w (Elapse 1000)) = true.
Proof.
  intros H. destruct (ticking_found h w H) as [t [Hf [_ [_ Hd]]]].
  rewrite elapse_closed by lia. unfold due. cbn [timers now].
  rewrite Hf. apply Z.leb_le. exact Hd.
Qed.

Lemma second_counts (h : Handle) (r : Z) (w : World) :
  ticking h w = true -> isRunning (state w) = true ->
  remainingSeconds (state w) = integer r -> 1 < r <= 2 ^ 53 ->
  run [Elapse 1000; Fire h] w =
  {| state := with_remainingSeconds (integer (r - 1)) (state w);
     intervalId := intervalId w;
     onExpireCallbacks := onExpireCallbacks w;
     now := now w + 1000;
     timers := drop_timer h (timers w) ++
               [ {| tm_handle := h; tm_due := now w + 1000 + 1000;
                    tm_period := Some 1000; tm_action := RunTick |} ];
     pending := pending w; fresh := fresh w; trace := trace w |}.
Proof.
  intros Ht Hr Hrem Hbound.
  assert (H53 : 0 < 2 ^ 53) by (apply pow2_pos; lia).
  assert (Hdec : decrement (remainingSeconds (state w)) = integer (r - 1))
    by (rewrite Hrem; apply decrement_integer; lia).
  destruct (ticking_found h w Ht) as [t [Hf [Ha [Hp Hd]]]].
  rewrite run_cons, elapse_closed by lia. rewrite run_cons.
  rewrite (step_fire_found h t) by assumption.
  rewrite Ha. cbn [run_action]. unfold exec.
  rewrite tick_counting;
    [ | assumption
      | cbn [put_timers exec set_timers snd state]; rewrite Hdec, leb_integers;
        apply Z.leb_gt; lia ].
  cbn [put_timers exec set_timers snd state]. rewrite Hdec.
  unfold after_firing. rewrite Hp, Ha. reflexivity.
Qed.

Lemma with_remainingSeconds_twice (a b : number) (s : TimerState) :
  with_remainingSeconds a (with_remainingSeconds b s) =
  with_remainingSeconds a s.
Proof. reflexivity. Qed.

Lemma seconds_count (h : Handle) (n : nat) (r : Z) (w : World) :
  ticking h w = true -> isRunning (state w) = true ->
  remainingSeconds (state w) = integer r -> Z.of_nat n < r <= 2 ^ 53 ->
  let w' := run (seconds n h) w in
  state w' = with_remainingSeconds (integer (r - Z.of_nat n)) (state w) /\
  ticking h w' = true /\
  trace w' = trace w /\ pending w' = pending w /\
  intervalId w' = intervalId w /\ fresh w' = fresh w /\
  onExpireCallbacks w' = onExpireCallbacks w /\
  now w' = now w + 1000 * Z.of_nat n.
Proof.
  revert r w. induction n as [|n IH]; intros r w Ht Hr Hrem Hbound w';
    subst w'.
  - cbn [seconds run fold_left Z.of_nat]. rewrite Z.sub_0_r, Z.add_0_r.
    rewrite <- Hrem. destruct (state w); repeat split; assumption.
  - cbn [seconds].
    change (Elapse 1000 :: Fire h :: seconds n h)
      with ([Elapse 1000; Fire h] ++ seconds n h).
    rewrite run_app, (second_counts h r) by (assumption || lia).
    match goal with |- context [run _ ?w1] => set (w1' := w1) end.
    assert (Ht1 : ticking h w1' = true).
    { unfold ticking, w1'. cbn [timers now].
      rewrite find_handle_app by apply find_drop_none.
      cbn. unfold has_handle. cbn. rewrite Nat.eqb_refl. cbn.
      apply Z.leb_le. lia. }
    specialize (IH (r - 1) w1' Ht1 Hr eq_refl).
    destruct IH as [H1 [H2 [H3 [H4 [H5 [H6 [H7 H8]]]]]]]; [lia|].
    rewrite H1, H3, H4, H5, H6, H7, H8. unfold w1'.
    cbn [state trace pending intervalId fresh onExpireCallbacks now
         isRunning with_remainingSeconds remainingSeconds totalSeconds
         startedAt].
    repeat split; try assumption.
    + unfold with_remainingSeconds. cbn [isRunning totalSeconds startedAt].
      do 2 f_equal. lia.
    + lia.
Qed.

Lemma start_ticking (minutes : number) (w : World) :
  wf w -> ticking (fresh w) (exec (start minutes) w) = true.
Proof.
  intros Hwf. unfold exec. rewrite start_closed. cbn [snd].
  unfold ticking. cbn [timers now].
  rewrite find_handle_app.
  - cbn. unfold has_handle. cbn. rewrite Nat.eqb_refl. cbn.
    apply Z.leb_le. lia.
  - apply (find_handle_fresh (fresh w) (fresh w)); [|lia].
    apply cleared_Forall, Hwf.
Qed.

(** * The arithmetic of doubles *)

(** The named doubles are what JavaScript computes for [1/60], [1/120],
    [1/20], [-1/10] and [1/2]: the quotients of the kernel's binary64
    division. *)
Example doubles_as_written :
  of_float (PrimFloat.div (to_float 1) (to_float 60)) = one_sixtieth /\
  of_float (PrimFloat.div (to_float 1) (to_float 120)) = one_120th /\
  of_float (PrimFloat.div (to_float 1) (to_float 20)) = one_twentieth /\
  of_float (PrimFloat.div (to_float (-1)) (to_float 10)) = minus_one_tenth /\
  same_value (of_float (PrimFloat.div (to_float 1) (to_float 2))) one_half =
    true.
Proof. vm_compute. repeat split. Qed.

(** On the sample doubles the operations the program performs (the
    product with 60, the difference with 1, the comparisons with 0, 1 and
    480) are, in the model, those of the kernel's binary64 arithmetic. *)
Example arithmetic_agrees_with_kernel :
  forallb
    (fun x =>
       same_value (number_mul x 60)
         (of_float (PrimFloat.mul (to_float x) (to_float 60))) &&
       same_value (number_sub x 1)
         (of_float (PrimFloat.sub (to_float x) (to_float 1))) &&
       forallb
         (fun y =>
            Bool.eqb (number_leb x y)
              (PrimFloat.leb (to_float x) (to_float y)) &&
            Bool.eqb (number_ltb y x)
              (PrimFloat.ltb (to_float y) (to_float x)))
         [integer 0; integer 1; integer 480])
    sample_numbers = true.
Proof. vm_compute. reflexivity. Qed.

(** [Math.floor(minutes * 60)] for [4.1], [-4.15], [1/60], [-1/60],
    [1/30], [-0.1], [0.5], [5], [1.6e14], the greatest double, [NaN] and
    [Infinity]. *)
Example seconds_of_minutes :
  map (fun minutes => Math_floor (number_mul minutes 60))
    [ Finite 4616189618054758 (-50); Finite (-4672484613396890) (-50);
      one_sixtieth; Finite (-4803839602528529) (-58);
      Finite 4803839602528529 (-57); minus_one_tenth; one_half; integer 5;
      integer 160000000000000; Finite 9007199254740991 971; NaN;
      Infinity false ] =
  [ integer 245; integer (-250); integer 1; integer (-1); integer 2;
    integer (-6); integer 30; integer 300; integer 9600000000000000;
    Infinity false; NaN; Infinity false ].
Proof. vm_compute. reflexivity. Qed.

(** [x - 1] around [2^53]: exact up to [2^53], rounded above. *)
Example decrement_examples :
  map decrement
    [ integer 60; integer 1; integer 0; integer (2 ^ 53);
      integer (2 ^ 53 + 2); integer (2 ^ 53 + 4); integer 9600000000000000;
      NaN; Infinity false; Infinity true ] =
  [ integer 59; integer 0; integer (-1); integer (2 ^ 53 - 1);
    integer (2 ^ 53); integer (2 ^ 53 + 4); integer 9600000000000000;
    NaN; Infinity false; Infinity true ].
Proof. vm_compute. reflexivity. Qed.

(** * Properties of the engine *)

(** ** Reachable states *)

(** C1, as stated, does not hold: one second after [start(1/60)] the tick
    expires the countdown, and the state shown then is not running but
    still carries [totalSeconds = 1] and the [startedAt] of the run. *)
Lemma expired_state_not_canonical :
  let w := run [CallStart one_sixtieth; Elapse 1000; Fire 0%nat] (init 0) in
  isRunning (state w) = false /\
  ~ (remainingSeconds (state w) = 0 /\ totalSeconds (state w) = 0 /\
     startedAt (state w) = None).
Proof.
  vm_compute. split; [reflexivity|].
  intros [_ [H _]]. discriminate H.
Qed.

(** C1 (amended): in every state reachable from the initial idle state by
    calls of [start] with a non-negative duration, [cancel], [getState],
    [onExpire], ticks and the steps of the expiry sequence,
    [0 <= remainingSeconds <= totalSeconds]; [isRunning = false] implies
    [remainingSeconds = 0]; and a state whose [startedAt] is absent is the
    canonical idle state.  The tick that ends a running countdown leaves
    [isRunning = false] and [remainingSeconds = 0] while [totalSeconds] and
    [startedAt] keep the values of the finished run, [startedAt] not being
    absent; and so the state stays whatever happens next, until [start] or
    [cancel] is called. *)
Theorem reachable_state_invariant (t0 : Z) (inputs : list Input) :
  Forall start_nonneg inputs ->
  let w := run inputs (init t0) in
  let s := state w in
  (0 <= remainingSeconds s <= totalSeconds s)%number /\
  (isRunning s = false -> remainingSeconds s = 0) /\
  (startedAt s = None -> s = idle) /\
  (forall (h : Handle) (post : list Input),
     isRunning s = true -> (remainingSeconds s <= 1)%number ->
     intervalId w = Some h -> due h w = true ->
     no_start_cancel post = true ->
     let s' := state (run (Fire h :: post) w) in
     s' = {| isRunning := false; remainingSeconds := 0;
             totalSeconds := totalSeconds s; startedAt := startedAt s |} /\
     startedAt s' <> None /\ s' <> idle).
Proof.
  intros Hall w s.
  assert (Hwf : wf w) by apply wf_run, wf_init.
  assert (Hok : state_ok s) by (apply state_ok_run, state_ok_idle).
  assert (Hin : within_total s).
  { apply within_total_run; [assumption | apply within_total_idle]. }
  destruct Hok as [H1 H2]. destruct Hin as [_ Hin].
  split; [exact Hin|]. split; [exact H1|]. split; [exact H2|].
  intros h post Hr Hrem Hi Hd Hpost s'.
  destruct (expiring_fire h w Hwf Hr Hrem Hi Hd) as [E1 _].
  assert (Hs' : s' = expired s).
  { unfold s'. rewrite run_cons.
    destruct (run_keeps post (step w (Fire h)) Hpost) as [_ [_ K]].
    rewrite K; [exact E1 | rewrite E1; reflexivity]. }
  assert (Hst : startedAt s <> None).
  { intros Hn. specialize (H2 Hn). fold s in Hr. rewrite H2 in Hr.
    discriminate. }
  rewrite Hs'. split; [reflexivity|]. split; [exact Hst|].
  intros Hidle. apply Hst.
  change (startedAt s) with (startedAt (expired s)). rewrite Hidle.
  reflexivity.
Qed.

Lemma reachable_state_invariant_witness :
  let inputs := [CallStart one_sixtieth; Elapse 1000] in
  let post := [CallGetState; Elapse 5000; Fire 0%nat] in
  Forall start_nonneg inputs /\
  state (run (Fire 0%nat :: post) (run inputs (init 0))) =
    {| isRunning := false; remainingSeconds := 0; totalSeconds := 1;
       startedAt := Some 0 |}.
Proof.
  intros inputs post.
  assert (H : Forall start_nonneg inputs) by (repeat constructor).
  split; [exact H|].
  exact (proj1 (proj2 (proj2 (proj2 (reachable_state_invariant 0 inputs H)))
                  0%nat post eq_refl eq_refl eq_refl eq_refl eq_refl)).
Defined.

(** ** [start] *)


Lemma start_state (minutes : number) (w : World) :
  eval (start minutes) w = started minutes (now w) /\
  state (exec (start minutes) w) = started minutes (now w).
Proof. unfold eval, exec. rewrite start_closed. split; reflexivity. Qed.







(** [start(0)] runs a countdown of zero seconds. *)
Example start_zero_minutes :
  eval (start 0) (init 0) =
  {| isRunning := true; remainingSeconds := 0; totalSeconds := 0;
     startedAt := Some 0 |}.
Proof. reflexivity. Qed.

(** ** [tick] *)

(** C9: a tick that finds [isRunning = false] changes nothing at all: no
    field of the state, no effect, no expiry; in particular a stale tick
    after [cancel()] leaves the idle state as it is. *)
Theorem stale_tick_is_noop (w : World) :
  (isRunning (state w) = false -> exec tick w = w) /\
  exec tick (exec cancel w) = exec cancel w /\
  state (exec tick (exec cancel w)) = idle.
Proof.
  assert (Hc : exec tick (exec cancel w) = exec cancel w).
  { unfold exec at 1. rewrite tick_idle; [reflexivity|].
    unfold exec. rewrite cancel_closed. reflexivity. }
  repeat split.
  - intros H. unfold exec. rewrite tick_idle by assumption. reflexivity.
  - exact Hc.
  - rewrite Hc. unfold exec. rewrite cancel_closed. reflexivity.
Qed.

Lemma stale_tick_is_noop_witness :
  let w := run [CallStart 1; Elapse 1000; Fire 0%nat; CallCancel] (init 0) in
  isRunning (state w) = false /\ exec tick w = w.
Proof.
  cbv zeta. split; [reflexivity|].
  apply (proj1 (stale_tick_is_noop _)). reflexivity.
Defined.

(** C7, as stated, does not hold: [start(1.6e14)] sets [9.6e15] seconds,
    which is above [2^53]; there [9.6e15 - 1] is rounded back to [9.6e15],
    and a tick leaves [remainingSeconds] as it was. *)
Lemma tick_above_2_53_keeps_remaining :
  let w := run [CallStart 160000000000000; Elapse 1000] (init 0) in
  let w' := step w (Fire 0%nat) in
  isRunning (state w) = true /\ due 0%nat w = true /\
  remainingSeconds (state w) = 9600000000000000 /\
  remainingSeconds (state w') = 9600000000000000 /\
  remainingSeconds (state w') <> integer (9600000000000000 - 1) /\
  isRunning (state w') = true.
Proof.
  vm_compute. repeat split. intros H. discriminate H.
Qed.

(** C7 (amended): a tick of a running timer stores
    [remainingSeconds - 1], the double nearest to it, which is exactly one
    less whenever [remainingSeconds] is a whole number from [-2^53 + 1] to
    [2^53]; when the stored value is not [<= 0] nothing else happens, and
    when it is zero or below the expiry sequence runs on the decremented
    state (so [pauseMedia] is called once more and the timer stops).
    After [start(1)] and ten one-second ticks, 50 seconds remain. *)
Theorem tick_decrements_then_expires :
  (forall w : World,
     isRunning (state w) = true ->
     let r := number_sub (remainingSeconds (state w)) 1 in
     let decremented := put_state (with_remainingSeconds r (state w)) w in
     remainingSeconds (state decremented) = r /\
     (forall z : Z,
        remainingSeconds (state w) = z -> - 2 ^ 53 < z <= 2 ^ 53 ->
        r = integer (z - 1)) /\
     (number_leb r 0 = false -> exec tick w = decremented) /\
     ((r <= 0)%number ->
        exec tick w = exec expire decremented /\
        isRunning (state (exec tick w)) = false /\
        calls pauseMedia (exec tick w) = S (calls pauseMedia w))) /\
  (forall (t0 : Z) (pre : list Input),
     let w := run pre (init t0) in
     let w' := run (CallStart 1 :: seconds 10 (fresh w)) w in
     remainingSeconds (state w') = 50 /\ isRunning (state w') = true).
Proof.
  split.
  - intros w Hr r decremented. split; [reflexivity|]. split; [|split].
    + intros z Hz Hb. unfold r. rewrite Hz. apply decrement_integer, Hb.
    + intros Hpos. unfold exec at 1.
      rewrite tick_counting by assumption. reflexivity.
    + intros Hle.
      assert (Heq : exec tick w = exec expire decremented).
      { unfold exec. rewrite tick_expiring by assumption.
        rewrite expire_closed. reflexivity. }
      split; [exact Heq|]. rewrite Heq. unfold exec.
      rewrite expire_closed. split; [reflexivity|].
      count_trace. subst decremented. cbn [put_state exec set_state snd trace].
      lia.
  - intros t0 pre w w'. subst w'.
    assert (Hwf : wf w) by apply wf_run, wf_init.
    rewrite run_cons.
    replace (step w (CallStart 1)) with (exec (start 1) w)
      by (unfold step, exec; cbn [dispatch]; rewrite then_ret; reflexivity).
    pose proof (start_ticking 1 w Hwf) as Ht.
    pose proof (seconds_count (fresh w) 10 60 (exec (start 1) w) Ht) as Hc.
    unfold exec in *. rewrite start_closed in *. cbn [snd] in *.
    destruct Hc as [H1 _];
      [reflexivity | reflexivity | split; [reflexivity | discriminate] |].
    rewrite H1. split; reflexivity.
Qed.

Lemma tick_decrements_then_expires_witness :
  let w := run [CallStart 1] (init 0) in
  isRunning (state w) = true /\
  number_leb (number_sub (remainingSeconds (state w)) 1) 0 = false /\
  exec tick w =
  put_state (with_remainingSeconds
               (number_sub (remainingSeconds (state w)) 1) (state w)) w.
Proof.
  cbv zeta.
  assert (H : isRunning (state (run [CallStart 1] (init 0))) = true)
    by reflexivity.
  assert (H' : number_leb
                 (number_sub
                    (remainingSeconds (state (run [CallStart 1] (init 0)))) 1)
                 0 = false)
    by reflexivity.
  split; [exact H|]. split; [exact H'|].
  exact (proj1 (proj2 (proj2 (proj1 tick_decrements_then_expires _ H))) H').
Defined.

(** The last second of a one-second countdown: the decremented value is
    zero and the tick runs the expiry sequence. *)
Example tick_reaches_zero :
  let w := run [CallStart one_sixtieth; Elapse 1000; Fire 0%nat] (init 0) in
  state w =
    {| isRunning := false; remainingSeconds := 0; totalSeconds := 1;
       startedAt := Some 0 |} /\
  calls pauseMedia w = 1%nat.
Proof. split; reflexivity. Qed.

(** ** [cancel] *)

Lemma in_flight_cancel (w : World) :
  (in_flight (exec cancel w) <= in_flight w)%nat.
Proof.
  unfold exec. rewrite cancel_closed. unfold in_flight, parked.
  cbn [snd pending]. pose proof (settling_cleared w).
  unfold settling in *. cbn [timers]. lia.
Qed.

Lemma calls_cancel (c : Collaborator) (w : World) :
  calls c (exec cancel w) = calls c w.
Proof.
  unfold exec. rewrite cancel_closed. count_trace. lia.
Qed.

(** C6: [cancel()] always returns, and leaves, the canonical idle state;
    doing it again, or doing it when already idle, gives that same state;
    it calls no collaborator itself, parks no activation, and as long as
    nobody calls [start] no later step calls [pauseMedia]; nor, unless an
    expiry sequence was already in flight, [suspendSystem]. *)
Theorem cancel_idle_idempotent (t0 : Z) (pre : list Input) :
  let w := run pre (init t0) in
  let w' := exec cancel w in
  eval cancel w = idle /\ state w' = idle /\
  eval cancel w' = idle /\ state (exec cancel w') = state w' /\
  (state w = idle -> state w' = state w) /\
  (forall c, calls c w' = calls c w) /\
  pending w' = pending w /\
  (forall post, no_start post = true ->
     calls pauseMedia (run post w') = calls pauseMedia w /\
     (in_flight w = 0%nat ->
      calls suspendSystem (run post w') = calls suspendSystem w)).
Proof.
  intros w w'.
  assert (Hwf : wf w') by (apply wf_cancel, wf_run, wf_init).
  assert (Hs : state w' = idle)
    by (unfold w', exec; rewrite cancel_closed; reflexivity).
  repeat split.
  - unfold eval. rewrite cancel_closed. reflexivity.
  - exact Hs.
  - unfold eval. rewrite cancel_closed. reflexivity.
  - rewrite Hs. unfold exec. rewrite cancel_closed. reflexivity.
  - intros H. rewrite Hs, H. reflexivity.
  - intros c. apply calls_cancel.
  - unfold w', exec. rewrite cancel_closed. reflexivity.
  - pose proof (run_pause_budget post w' H) as Hb.
    pose proof (run_calls_mono pauseMedia post w') as Hm.
    pose proof (calls_cancel pauseMedia w) as Hc. fold w' in Hc.
    unfold armed in Hb at 2. rewrite Hs in Hb. cbn in Hb. lia.
  - intros Hfl.
    pose proof (run_pause_budget post w' H) as Hb.
    pose proof (run_calls_mono pauseMedia post w') as Hm.
    pose proof (run_calls_mono suspendSystem post w') as Hm'.
    pose proof (run_suspend_budget post w' Hwf) as Hb'.
    pose proof (calls_cancel suspendSystem w) as Hc. fold w' in Hc.
    pose proof (in_flight_cancel w) as Hf. fold w' in Hf.
    unfold armed in Hb at 2. rewrite Hs in Hb. cbn in Hb. lia.
Qed.

Lemma cancel_idle_idempotent_witness :
  let w := run [CallStart 1; Elapse 1000; Fire 0%nat] (init 0) in
  let post := [Elapse 1000; Fire 0%nat; CallGetState; Elapse 60000;
               Fire 0%nat] in
  no_start post = true /\ in_flight w = 0%nat /\
  calls pauseMedia (run post (exec cancel w)) = calls pauseMedia w /\
  calls suspendSystem (run post (exec cancel w)) = calls suspendSystem w.
Proof.
  cbv zeta.
  pose proof (cancel_idle_idempotent 0
                [CallStart 1; Elapse 1000; Fire 0%nat]) as H.
  cbv zeta in H.
  destruct H as [_ [_ [_ [_ [_ [_ [_ H]]]]]]].
  specialize (H [Elapse 1000; Fire 0%nat; CallGetState; Elapse 60000;
                 Fire 0%nat] eq_refl).
  destruct H as [H1 H2].
  split; [reflexivity|]. split; [reflexivity|].
  split; [exact H1 | exact (H2 eq_refl)].
Defined.

(** ** Starting again *)

Lemma step_start (minutes : number) (w : World) :
  step w (CallStart minutes) = exec (start minutes) w.
Proof. unfold step, exec. cbn [dispatch]. rewrite then_ret. reflexivity. Qed.

(** C4: [start(a)] followed, before any tick, by [start(b)] leaves the
    state a single [start(b)] would leave; the first interval is cleared
    before the second is installed, so exactly one tick source is active,
    the one in [intervalId], and the first never fires again.  With
    [a = 10] and [b = 5] the state shows 300 seconds. *)
Theorem restart_replaces (t0 : Z) (pre : list Input) (a b : number)
    (d : Z) :
  let w := run pre (init t0) in
  let w1 := run [CallStart a; Elapse d] w in
  let w2 := run [CallStart a; Elapse d; CallStart b] w in
  state w2 = state (run [Elapse d; CallStart b] w) /\
  state w2 = started b (now w1) /\
  trace w2 = trace w1 ++
             [ (now w1, ClearIntervalCall (fresh w));
               (now w1, SetIntervalCall (S (fresh w)) 1000);
               (now w1, ConsoleLog
                          (LogStarted b (Math_floor (number_mul b 60)))) ] /\
  intervalId w2 = Some (S (fresh w)) /\
  tick_sources w2 = [S (fresh w)] /\
  step w2 (Fire (fresh w)) = w2 /\
  (is_whole a 10 -> is_whole b 5 ->
   totalSeconds (state w2) = 300 /\ remainingSeconds (state w2) = 300).
Proof.
  intros w w1 w2.
  assert (Hwf2 : wf w2) by (apply wf_run, wf_run, wf_init).
  assert (H1 : w1 =
    {| state := started a (now w); intervalId := Some (fresh w);
       onExpireCallbacks := onExpireCallbacks w; now := now w + Z.max 0 d;
       timers := timers w1; pending := pending w; fresh := S (fresh w);
       trace := trace w1 |}).
  { unfold w1. rewrite run_cons, step_start. unfold exec.
    rewrite start_closed. reflexivity. }
  assert (H2 : w2 = exec (start b) w1).
  { unfold w2, w1. rewrite !run_cons, step_start. reflexivity. }
  assert (Hi : intervalId w1 = Some (fresh w)) by (rewrite H1; reflexivity).
  assert (Hn : fresh w1 = S (fresh w)) by (rewrite H1; reflexivity).
  unfold exec in H2. rewrite start_closed in H2. cbn [snd] in H2.
  unfold cleared_effects, cleared_timers in H2. rewrite Hi, Hn in H2.
  cbn [opt_list map app] in H2.
  assert (Hint : intervalId w2 = Some (S (fresh w)))
    by (rewrite H2; reflexivity).
  repeat split.
  - rewrite H2. unfold run. cbn [fold_left]. rewrite step_start.
    unfold exec. rewrite start_closed. cbn [snd state].
    rewrite H1. reflexivity.
  - rewrite H2. reflexivity.
  - rewrite H2. reflexivity.
  - exact Hint.
  - rewrite (wf_sources w2 Hwf2), Hint. reflexivity.
  - apply step_fire_absent. rewrite H2. cbn [timers].
    rewrite find_handle_app by apply find_drop_none.
    cbn [find]. unfold has_handle. cbn [tm_handle].
    destruct (Nat.eqb_spec (S (fresh w)) (fresh w)); [lia | reflexivity].
  - rewrite H2. cbn [state totalSeconds]. apply (whole_minutes b 5 H0).
    reflexivity.
  - rewrite H2. cbn [state remainingSeconds]. apply (whole_minutes b 5 H0).
    reflexivity.
Qed.

Lemma restart_replaces_witness :
  let w2 := run [CallStart 10; Elapse 400; CallStart 5] (init 0) in
  is_whole 10 10 /\ is_whole 5 5 /\
  totalSeconds (state w2) = 300 /\ remainingSeconds (state w2) = 300.
Proof.
  cbv zeta.
  pose proof (restart_replaces 0 [] 10 5 400) as H. cbv zeta in H.
  destruct H as [_ [_ [_ [_ [_ [_ H]]]]]].
  split; [reflexivity|]. split; [reflexivity|].
  exact (H eq_refl eq_refl).
Defined.

(** ** The expiry sequence *)

Lemma count_pause_expiry (h : Handle) (w : World) :
  count_calls pauseMedia (expiry_effects h w) = 1%nat.
Proof.
  unfold expiry_effects. rewrite !count_calls_app, count_calls_callbacks.
  reflexivity.
Qed.

Lemma count_suspend_expiry (h : Handle) (w : World) :
  count_calls suspendSystem (expiry_effects h w) = 0%nat.
Proof.
  unfold expiry_effects. rewrite !count_calls_app, count_calls_callbacks.
  reflexivity.
Qed.

(** The whole sequence, the environment delivering each event in turn. *)
Lemma expiry_scenario (h : Handle) (r1 r2 : PlatformResult) (d : Z)
    (w : World) :
  wf w -> isRunning (state w) = true ->
  (remainingSeconds (state w) <= 1)%number ->
  intervalId w = Some h -> due h w = true -> 1000 <= d ->
  let w1 := step w (Fire h) in
  run [Resolve (fresh w) r1; Elapse d; Fire (S (fresh w));
       Resolve (S (S (fresh w))) r2] w1 =
  {| state := expired (state w); intervalId := None;
     onExpireCallbacks := onExpireCallbacks w; now := now w + d;
     timers := timers w1; pending := pending w;
     fresh := S (S (S (fresh w)));
     trace := trace w ++ expiry_effects h w ++
              pipeline_effects (fresh w) (now w) (now w + d) r1 r2 |}.
Proof.
  intros Hwf Hr Hrem Hi Hd Hdelay w1.
  destruct (expiring_fire h w Hwf Hr Hrem Hi Hd)
    as [H1 [H2 [H3 [H4 [H5 [H6 [H7 H8]]]]]]].
  fold w1 in H1, H2, H3, H4, H5, H6, H7, H8.
  rewrite (pipeline_run w1 (pending w) (fresh w) r1 r2 d H3
             (wf_pending_fresh w Hwf) H8 H4 Hdelay).
  rewrite H1, H2, H5, H6, H7, <- app_assoc. reflexivity.
Qed.

(** C2: when a tick takes a running timer to zero, the state is first set
    to [isRunning = false], [remainingSeconds = 0]; then every registered
    callback runs, in registration order, seeing that state; then
    [pauseMedia] is called; when it has settled a timeout of 1000 ms is
    set, which does not fire earlier; when it fires [suspendSystem] is
    called.  Whatever the two collaborators resolve with, success or
    failure, neither is called again: until the next [start] no further
    [pauseMedia] call is made, and at most this one [suspendSystem] call
    beyond those of sequences already in flight. *)
Theorem expiry_sequence_once_in_order (t0 : Z) (pre : list Input)
    (h : Handle) (r1 r2 : PlatformResult) (d : Z) :
  let w := run pre (init t0) in
  isRunning (state w) = true -> (remainingSeconds (state w) <= 1)%number ->
  intervalId w = Some h -> due h w = true -> 1000 <= d ->
  let p := fresh w in
  let w1 := step w (Fire h) in
  let w5 := run [Resolve p r1; Elapse d; Fire (S p); Resolve (S (S p)) r2] w1 in
  state w1 =
    {| isRunning := false; remainingSeconds := 0;
       totalSeconds := totalSeconds (state w);
       startedAt := startedAt (state w) |} /\
  trace w5 =
    trace w ++
    [ (now w, ConsoleLog LogExpired); (now w, ClearIntervalCall h) ] ++
    callback_effects (now w) (state w1) (onExpireCallbacks w) ++
    [ (now w, CollaboratorCall pauseMedia p);
      (now w, ConsoleLog (LogPauseMedia (message r1)));
      (now w, SetTimeoutCall (S p) 1000);
      (now w + d, CollaboratorCall suspendSystem (S (S p)));
      (now w + d, ConsoleLog (LogSuspend (message r2))) ] /\
  (forall d', 0 <= d' < 1000 ->
     let w3 := run [Resolve p r1; Elapse d'] w1 in
     step w3 (Fire (S p)) = w3) /\
  (forall post, no_start post = true ->
     calls pauseMedia (run post w1) = S (calls pauseMedia w) /\
     (calls suspendSystem (run post w1) <=
      S (calls suspendSystem w + in_flight w))%nat).
Proof.
  intros w Hr Hrem Hi Hd Hdelay p w1 w5.
  assert (Hwf : wf w) by apply wf_run, wf_init.
  assert (Hwf1 : wf w1) by apply wf_step, Hwf.
  destruct (expiring_fire h w Hwf Hr Hrem Hi Hd)
    as [H1 [H2 [H3 [H4 [H5 [H6 [H7 H8]]]]]]].
  fold w1 in H1, H2, H3, H4, H5, H6, H7, H8.
  split; [exact H1|]. split; [|split].
  - unfold w5, w1, p.
    rewrite (expiry_scenario h r1 r2 d w) by assumption.
    cbn [trace]. fold w1. rewrite H1.
    unfold expiry_effects, pipeline_effects.
    repeat rewrite <- app_assoc. reflexivity.
  - intros d' Hd'.
    apply (settle_not_early w1 (pending w) p r1 d'); try assumption.
    apply Hwf.
  - intros post Hpost.
    assert (Hp1 : calls pauseMedia w1 = S (calls pauseMedia w)).
    { rewrite !calls_count, H2, count_calls_app, count_pause_expiry. lia. }
    assert (Hs1 : calls suspendSystem w1 = calls suspendSystem w).
    { rewrite !calls_count, H2, count_calls_app, count_suspend_expiry. lia. }
    assert (Ha1 : armed w1 = 0%nat) by (unfold armed; rewrite H1; reflexivity).
    pose proof (run_pause_budget post w1 Hpost) as Hb.
    pose proof (run_calls_mono pauseMedia post w1) as Hm.
    pose proof (run_suspend_budget post w1 Hwf1) as Hb'.
    pose proof (step_suspend_budget w (Fire h) Hwf) as Hb1. fold w1 in Hb1.
    lia.
Qed.

(** One second after [start(1/60)], with no callback registered. *)
Example expiry_trace :
  let ok := {| success := true; message := "done" |} in
  trace (run [CallStart one_sixtieth; Elapse 1000; Fire 0%nat; Resolve 1%nat ok;
              Elapse 1000; Fire 2%nat; Resolve 3%nat ok] (init 0)) =
  [ (0, SetIntervalCall 0%nat 1000);
    (0, ConsoleLog (LogStarted one_sixtieth 1));
    (1000, ConsoleLog LogExpired); (1000, ClearIntervalCall 0%nat);
    (1000, CollaboratorCall pauseMedia 1%nat);
    (1000, ConsoleLog (LogPauseMedia "done"));
    (1000, SetTimeoutCall 2%nat 1000);
    (2000, CollaboratorCall suspendSystem 3%nat);
    (2000, ConsoleLog (LogSuspend "done")) ].
Proof. vm_compute. reflexivity. Qed.

Lemma expiry_sequence_once_in_order_witness :
  let ok := {| success := true; message := "done" |} in
  let w := run [CallStart one_sixtieth; Elapse 1000] (init 0) in
  isRunning (state w) = true /\ (remainingSeconds (state w) <= 1)%number /\
  intervalId w = Some 0%nat /\ due 0%nat w = true /\ 1000 <= 1000 /\
  let p := fresh w in
  let w1 := step w (Fire 0%nat) in
  let w5 := run [Resolve p ok; Elapse 1000; Fire (S p); Resolve (S (S p)) ok]
              w1 in
  trace w5 =
    trace w ++
    [ (now w, ConsoleLog LogExpired); (now w, ClearIntervalCall 0%nat) ] ++
    callback_effects (now w) (state w1) (onExpireCallbacks w) ++
    [ (now w, CollaboratorCall pauseMedia p);
      (now w, ConsoleLog (LogPauseMedia (message ok)));
      (now w, SetTimeoutCall (S p) 1000);
      (now w + 1000, CollaboratorCall suspendSystem (S (S p)));
      (now w + 1000, ConsoleLog (LogSuspend (message ok))) ].
Proof.
  intros ok w.
  assert (H1 : isRunning (state w) = true) by reflexivity.
  assert (H2 : (remainingSeconds (state w) <= 1)%number) by reflexivity.
  assert (H3 : intervalId w = Some 0%nat) by reflexivity.
  assert (H4 : due 0%nat w = true) by reflexivity.
  assert (H5 : 1000 <= 1000) by lia.
  repeat (split; [assumption|]).
  exact (proj1 (proj2
    (expiry_sequence_once_in_order 0 [CallStart one_sixtieth; Elapse 1000]
       0%nat ok ok 1000 H1 H2 H3 H4 H5))).
Defined.

(** ** Callbacks that throw *)

Lemma skipn_length_app {A : Type} (l es : list A) :
  skipn (List.length l) (l ++ es) = es.
Proof. induction l as [|a l IH]; cbn; [reflexivity | exact IH]. Qed.

Lemma callback_tags_effects (t : Z) (s : TimerState)
    (cbs : list TimerCallback) :
  callback_tags (callback_effects t s cbs) = map cb_tag cbs.
Proof.
  induction cbs as [|cb cbs IH]; [reflexivity|].
  cbn [callback_effects flat_map map]. fold (callback_effects t s cbs).
  unfold callback_tags in *. rewrite flat_map_app, IH.
  destruct (cb_body cb s); reflexivity.
Qed.

Lemma logged_errors_effects (t : Z) (s : TimerState)
    (cbs : list TimerCallback) :
  logged_errors (callback_effects t s cbs) = thrown s cbs.
Proof.
  induction cbs as [|cb cbs IH]; [reflexivity|].
  cbn [callback_effects flat_map thrown]. fold (callback_effects t s cbs).
  fold (thrown s cbs).
  unfold logged_errors in *. rewrite flat_map_app, IH.
  destruct (cb_body cb s); reflexivity.
Qed.

(** C5: whatever each registered callback does, return or throw, the loop
    of the expiry sequence calls every one of them, in registration order;
    what is thrown is caught and written to the console; after the loop
    [pauseMedia] is called, and the sequence goes on to the settle delay
    and the [suspendSystem] call. *)
Theorem callback_failure_is_isolated (t0 : Z) (pre : list Input)
    (h : Handle) (r1 r2 : PlatformResult) (d : Z) :
  let w := run pre (init t0) in
  isRunning (state w) = true -> (remainingSeconds (state w) <= 1)%number ->
  intervalId w = Some h -> due h w = true -> 1000 <= d ->
  let p := fresh w in
  let w1 := step w (Fire h) in
  let w5 := run [Resolve p r1; Elapse d; Fire (S p); Resolve (S (S p)) r2] w1 in
  callback_tags (since w w1) = map cb_tag (onExpireCallbacks w) /\
  logged_errors (since w w1) = thrown (state w1) (onExpireCallbacks w) /\
  (exists es, since w w1 = es ++ [(now w, CollaboratorCall pauseMedia p)]) /\
  calls pauseMedia w1 = S (calls pauseMedia w) /\
  In (now w, SetTimeoutCall (S p) 1000) (since w1 w5) /\
  calls suspendSystem w5 = S (calls suspendSystem w).
Proof.
  intros w Hr Hrem Hi Hd Hdelay p w1 w5.
  assert (Hwf : wf w) by apply wf_run, wf_init.
  destruct (expiring_fire h w Hwf Hr Hrem Hi Hd)
    as [H1 [H2 [H3 [H4 [H5 [H6 [H7 H8]]]]]]].
  fold w1 in H1, H2, H3, H4, H5, H6, H7, H8.
  assert (Hs : since w w1 = expiry_effects h w)
    by (unfold since; rewrite H2; apply skipn_length_app).
  assert (H5' : trace w5 = trace w1 ++
                  pipeline_effects p (now w) (now w + d) r1 r2).
  { unfold w5, w1, p. rewrite (expiry_scenario h r1 r2 d w) by assumption.
    cbn [trace]. fold w1. rewrite H2, <- app_assoc. reflexivity. }
  rewrite Hs, H1. unfold expiry_effects.
  split; [|split; [|split; [|split; [|split]]]].
  - unfold callback_tags. rewrite !flat_map_app.
    fold (callback_tags
            (callback_effects (now w) (expired (state w))
               (onExpireCallbacks w))).
    rewrite callback_tags_effects. cbn. apply app_nil_r.
  - unfold logged_errors. rewrite !flat_map_app.
    fold (logged_errors
            (callback_effects (now w) (expired (state w))
               (onExpireCallbacks w))).
    rewrite logged_errors_effects. cbn. apply app_nil_r.
  - eexists. rewrite app_assoc. reflexivity.
  - rewrite !calls_count, H2, count_calls_app, count_pause_expiry. lia.
  - unfold since. rewrite H5', skipn_length_app. unfold pipeline_effects.
    cbn. auto.
  - rewrite !calls_count, H5', H2, !count_calls_app, count_suspend_expiry.
    unfold pipeline_effects. cbn. lia.
Qed.

Lemma callback_failure_is_isolated_witness :
  let bad := {| cb_tag := 1; cb_body := fun _ => Throws "boom" |} in
  let good := {| cb_tag := 2; cb_body := fun _ => Returns |} in
  let ok := {| success := true; message := "done" |} in
  let w := run [CallOnExpire bad; CallOnExpire good; CallStart one_sixtieth;
                Elapse 1000] (init 0) in
  isRunning (state w) = true /\ (remainingSeconds (state w) <= 1)%number /\
  intervalId w = Some 0%nat /\ due 0%nat w = true /\ 1000 <= 1000 /\
  let p := fresh w in
  let w1 := step w (Fire 0%nat) in
  let w5 := run [Resolve p ok; Elapse 1000; Fire (S p); Resolve (S (S p)) ok]
              w1 in
  callback_tags (since w w1) = map cb_tag (onExpireCallbacks w) /\
  logged_errors (since w w1) = thrown (state w1) (onExpireCallbacks w) /\
  (exists es, since w w1 = es ++ [(now w, CollaboratorCall pauseMedia p)]) /\
  calls pauseMedia w1 = S (calls pauseMedia w) /\
  In (now w, SetTimeoutCall (S p) 1000) (since w1 w5) /\
  calls suspendSystem w5 = S (calls suspendSystem w).
Proof.
  intros bad good ok w.
  assert (H1 : isRunning (state w) = true) by reflexivity.
  assert (H2 : (remainingSeconds (state w) <= 1)%number) by reflexivity.
  assert (H3 : intervalId w = Some 0%nat) by reflexivity.
  assert (H4 : due 0%nat w = true) by reflexivity.
  assert (H5 : 1000 <= 1000) by lia.
  repeat (split; [assumption|]).
  exact (callback_failure_is_isolated 0
           [CallOnExpire bad; CallOnExpire good; CallStart one_sixtieth;
            Elapse 1000] 0%nat ok ok 1000 H1 H2 H3 H4 H5).
Defined.

(** A callback that throws, registered before one that returns. *)
Example throwing_callback_trace :
  let bad := {| cb_tag := 1; cb_body := fun _ => Throws "boom" |} in
  let good := {| cb_tag := 2; cb_body := fun _ => Returns |} in
  let seen := {| isRunning := false; remainingSeconds := 0;
                 totalSeconds := 1; startedAt := Some 0 |} in
  trace (run [CallOnExpire bad; CallOnExpire good; CallStart one_sixtieth;
              Elapse 1000; Fire 0%nat] (init 0)) =
  [ (0, SetIntervalCall 0%nat 1000);
    (0, ConsoleLog (LogStarted one_sixtieth 1));
    (1000, ConsoleLog LogExpired); (1000, ClearIntervalCall 0%nat);
    (1000, CallbackCall 1 seen); (1000, ConsoleError "boom");
    (1000, CallbackCall 2 seen);
    (1000, CollaboratorCall pauseMedia 1%nat) ].
Proof. vm_compute. reflexivity. Qed.

(** ** What an expiry leaves in the state *)




(** * Further properties of the engine *)

(** ** The callback registry *)

Lemma tick_callbacks (w : World) :
  onExpireCallbacks (exec tick w) = onExpireCallbacks w.
Proof.
  destruct (tick_cases w) as [-> | [[_ ->] | [_ ->]]]; try reflexivity.
  unfold exec. rewrite expire_closed. reflexivity.
Qed.

Lemma step_callbacks (w : World) (i : Input) :
  onExpireCallbacks (step w i) = onExpireCallbacks w ++ registered [i].
Proof.
  unfold step, exec. destruct i; cbn [dispatch registered flat_map app];
    rewrite ?app_nil_r; try reflexivity.
  - rewrite then_ret, start_closed. reflexivity.
  - rewrite then_ret, cancel_closed. reflexivity.
  - rewrite fire_closed.
    destruct (find (has_handle h) (timers w)) as [t|]; [|reflexivity].
    destruct (tm_due t <=? now w); [|reflexivity].
    destruct (tm_action t); cbn [run_action].
    + apply (tick_callbacks (put_timers (after_firing h t w) w)).
    + reflexivity.
  - rewrite resolve_closed.
    destruct (find (is_promise p) (pending w)) as [[q []]|]; reflexivity.
Qed.

Lemma run_callbacks (inputs : list Input) (w : World) :
  onExpireCallbacks (run inputs w) = onExpireCallbacks w ++ registered inputs.
Proof.
  revert w. induction inputs as [|i inputs IH]; intros w.
  - cbn. rewrite app_nil_r. reflexivity.
  - rewrite run_cons, IH, step_callbacks. rewrite <- app_assoc.
    f_equal. unfold registered. cbn [flat_map]. rewrite app_nil_r.
    reflexivity.
Qed.

(** X1: the registry only grows, and only by [onExpire]: after any inputs
    it holds what it held before followed by the callbacks registered
    since, in order; [start], [cancel], ticks and expiries leave it as it
    is, so a callback stays registered for every later expiry. *)
Theorem registry_append_only (inputs : list Input) (w : World) :
  onExpireCallbacks (run inputs w) = onExpireCallbacks w ++ registered inputs /\
  (registered inputs = [] ->
   onExpireCallbacks (run inputs w) = onExpireCallbacks w).
Proof.
  split; [apply run_callbacks|].
  intros H. rewrite run_callbacks, H. apply app_nil_r.
Qed.

Lemma registry_append_only_witness :
  let cb := {| cb_tag := 7; cb_body := fun _ => Returns |} in
  let w := run [CallOnExpire cb] (init 0) in
  let inputs := [CallStart one_sixtieth; Elapse 1000; Fire 0%nat; CallCancel;
                 CallStart 1] in
  registered inputs = [] /\
  onExpireCallbacks (run inputs w) = onExpireCallbacks w.
Proof.
  intros cb w inputs.
  assert (H : registered inputs = []) by reflexivity.
  exact (conj H (proj2 (registry_append_only inputs w) H)).
Defined.

(** ** Tick sources *)

(** X2: in every reachable world the installed intervals that drive
    [tick] are exactly the one held in [intervalId], if any: one while
    [isRunning], none otherwise. *)
Theorem tick_source_iff_running (t0 : Z) (inputs : list Input) :
  let w := run inputs (init t0) in
  tick_sources w = opt_list (intervalId w) /\
  List.length (tick_sources w) =
    (if isRunning (state w) then 1%nat else 0%nat).
Proof.
  intros w. assert (Hwf : wf w) by apply wf_run, wf_init.
  split; [apply Hwf|].
  rewrite (wf_sources w Hwf), (wf_running w Hwf).
  destruct (intervalId w); reflexivity.
Qed.

(** ** A countdown from start to expiry *)

Lemma seconds_snoc (n : nat) (h : Handle) :
  seconds (S n) h = seconds n h ++ [Elapse 1000; Fire h].
Proof.
  induction n as [|n IH]; [reflexivity|].
  cbn [seconds app] in *. rewrite <- IH. reflexivity.
Qed.

Lemma calls_start (c : Collaborator) (minutes : number) (w : World) :
  calls c (exec (start minutes) w) = calls c w.
Proof.
  unfold exec. rewrite start_closed. count_trace. lia.
Qed.

(** The world right after [start(minutes)]. *)
Lemma start_facts (minutes : number) (w : World) :
  let w0 := exec (start minutes) w in
  state w0 = started minutes (now w) /\
  intervalId w0 = Some (fresh w) /\
  now w0 = now w /\
  pending w0 = pending w /\
  fresh w0 = S (fresh w) /\
  timers w0 = cleared_timers w ++
              [ {| tm_handle := fresh w; tm_due := now w + 1000;
                   tm_period := Some 1000; tm_action := RunTick |} ].
Proof.
  intros w0. subst w0. unfold exec. rewrite start_closed.
  repeat split.
Qed.

(** The tick that ends a countdown running on interval [h], a second
    after world [w]. *)
Lemma last_second (h : Handle) (w : World) :
  wf w -> ticking h w = true -> intervalId w = Some h ->
  isRunning (state w) = true -> (remainingSeconds (state w) <= 1)%number ->
  let w' := run [Elapse 1000; Fire h] w in
  state w' = expired (state w) /\
  calls pauseMedia w' = S (calls pauseMedia w) /\
  calls suspendSystem w' = calls suspendSystem w /\
  now w' = now w + 1000.
Proof.
  intros Hwf Ht Hi Hr Hrem w'. subst w'.
  pose proof (ticking_due h w Ht) as Hd.
  pose proof (wf_step w (Elapse 1000) Hwf) as Hwf1.
  rewrite run_cons. cbn [run fold_left].
  set (w1 := step w (Elapse 1000)) in *.
  assert (H1 : w1 =
    {| state := state w; intervalId := intervalId w;
       onExpireCallbacks := onExpireCallbacks w; now := now w + 1000;
       timers := timers w; pending := pending w; fresh := fresh w;
       trace := trace w |}) by (apply elapse_closed; lia).
  assert (Hs : state w1 = state w) by (rewrite H1; reflexivity).
  assert (Hi1 : intervalId w1 = Some h) by (rewrite H1; exact Hi).
  assert (Hn : now w1 = now w + 1000) by (rewrite H1; reflexivity).
  assert (Htr : trace w1 = trace w) by (rewrite H1; reflexivity).
  destruct (expiring_fire h w1 Hwf1) as [E1 [E2 [_ [_ [E5 _]]]]];
    try assumption; try (rewrite Hs; assumption).
  rewrite E1, E5, Hs, Hn, !calls_count, E2, Htr, !count_calls_app,
    count_pause_expiry, count_suspend_expiry.
  repeat split; lia.
Qed.

(** X3: a countdown for which [start] set a whole number [n] of seconds,
    from 1 up to [2^53], in any reachable world, is still running after
    [k < n] one-second ticks, with [n - k] seconds remaining and
    [pauseMedia] not yet called; the [n]-th tick, [n] seconds after the
    start, ends it and calls [pauseMedia] once. *)
Theorem countdown_runs_to_expiry (t0 : Z) (pre : list Input)
    (minutes : number) (n : Z) (k : nat) :
  let w := run pre (init t0) in
  let wk := run (CallStart minutes :: seconds k (fresh w)) w in
  Math_floor (number_mul minutes 60) = n -> 1 <= n <= 2 ^ 53 ->
  (Z.of_nat k < n ->
     state wk = {| isRunning := true; remainingSeconds := n - Z.of_nat k;
                   totalSeconds := n; startedAt := Some (now w) |} /\
     calls pauseMedia wk = calls pauseMedia w) /\
  (Z.of_nat k = n ->
     state wk = {| isRunning := false; remainingSeconds := 0;
                   totalSeconds := n; startedAt := Some (now w) |} /\
     calls pauseMedia wk = S (calls pauseMedia w) /\
     now wk = now w + 1000 * n).
Proof.
  intros w wk Hmin Hn.
  assert (Hwf : wf w) by apply wf_run, wf_init.
  set (w0 := exec (start minutes) w).
  assert (Hwf0 : wf w0) by apply wf_start, Hwf.
  assert (Hwk : forall j, run (CallStart minutes :: seconds j (fresh w)) w =
                          run (seconds j (fresh w)) w0)
    by (intros j; rewrite run_cons, step_start; reflexivity).
  destruct (start_facts minutes w) as [S1 [S2 [S3 [S4 [S5 S6]]]]].
  fold w0 in S1, S2, S3, S4, S5, S6.
  unfold started in S1. rewrite Hmin in S1.
  pose proof (start_ticking minutes w Hwf) as Ht0. fold w0 in Ht0.
  assert (Hcount : forall j, Z.of_nat j < n ->
            let wj := run (seconds j (fresh w)) w0 in
            state wj = with_remainingSeconds (integer (n - Z.of_nat j))
                         (state w0) /\
            ticking (fresh w) wj = true /\ trace wj = trace w0 /\
            intervalId wj = Some (fresh w) /\
            now wj = now w + 1000 * Z.of_nat j).
  { intros j Hj wj.
    destruct (seconds_count (fresh w) j n w0 Ht0)
      as [C1 [C2 [C3 [_ [C5 [_ [_ C8]]]]]]];
      [ rewrite S1; reflexivity | rewrite S1; reflexivity | lia | ].
    fold wj in C1, C2, C3, C5, C8.
    rewrite C1, C3, C5, C8, S2, S3. auto. }
  split.
  - intros Hk. unfold wk. rewrite Hwk.
    destruct (Hcount k Hk) as [C1 [_ [C3 _]]]. split.
    + rewrite C1, S1. reflexivity.
    + rewrite !calls_count, C3, <- !calls_count. apply calls_start.
  - intros Hk. unfold wk. rewrite Hwk.
    destruct k as [|j]; [lia|].
    rewrite seconds_snoc, run_app.
    assert (Hj : Z.of_nat j < n) by lia.
    destruct (Hcount j Hj) as [C1 [C2 [C3 [C5 C8]]]].
    set (wj := run (seconds j (fresh w)) w0) in *.
    assert (Hwfj : wf wj) by apply wf_run, Hwf0.
    destruct (last_second (fresh w) wj Hwfj C2 C5) as [L1 [L2 [_ L4]]].
    + rewrite C1, S1. reflexivity.
    + rewrite C1. cbn [with_remainingSeconds remainingSeconds].
      unfold number_le. rewrite leb_integers. apply Z.leb_le. lia.
    + rewrite L1, L2, L4, C1, C8, S1. cbn [expired with_remainingSeconds
        totalSeconds startedAt].
      repeat split.
      * rewrite !calls_count, C3, <- !calls_count. f_equal. apply calls_start.
      * lia.
Qed.

Lemma countdown_runs_to_expiry_witness :
  let w := run [] (init 0) in
  let w1 := run (CallStart one_twentieth :: seconds 1 (fresh w)) w in
  let w3 := run (CallStart one_twentieth :: seconds 3 (fresh w)) w in
  Math_floor (number_mul one_twentieth 60) = 3 /\ 1 <= 3 <= 2 ^ 53 /\
  Z.of_nat 1 < 3 /\ Z.of_nat 3 = 3 /\
  (state w1 = {| isRunning := true; remainingSeconds := 3 - Z.of_nat 1;
                 totalSeconds := 3; startedAt := Some (now w) |} /\
   calls pauseMedia w1 = calls pauseMedia w) /\
  (state w3 = {| isRunning := false; remainingSeconds := 0;
                 totalSeconds := 3; startedAt := Some (now w) |} /\
   calls pauseMedia w3 = S (calls pauseMedia w) /\
   now w3 = now w + 1000 * 3).
Proof.
  intros w w1 w3.
  assert (H0 : Math_floor (number_mul one_twentieth 60) = 3) by reflexivity.
  assert (H1 : 1 <= 3 <= 2 ^ 53) by (split; discriminate).
  assert (H2 : Z.of_nat 1 < 3) by reflexivity.
  assert (H3 : Z.of_nat 3 = 3) by reflexivity.
  split; [exact H0|]. split; [exact H1|]. split; [exact H2|].
  split; [exact H3|].
  split.
  - exact (proj1 (countdown_runs_to_expiry 0 [] one_twentieth 3 1 H0 H1) H2).
  - exact (proj2 (countdown_runs_to_expiry 0 [] one_twentieth 3 3 H0 H1) H3).
Defined.

(** X4: a countdown for which [start] set no seconds or less, a whole
    number [n <= 0] (as for a minute count below one sixtieth, negative
    ones too), runs for one second: the first tick ends it and calls
    [pauseMedia], and the state shown is [remainingSeconds = 0] with the
    [totalSeconds] that [start] set, so that a negative [totalSeconds] is
    then below [remainingSeconds]. *)
Theorem short_countdown_expires_at_first_tick (t0 : Z) (pre : list Input)
    (minutes : number) (n : Z) :
  let w := run pre (init t0) in
  let w1 := run [CallStart minutes; Elapse 1000; Fire (fresh w)] w in
  Math_floor (number_mul minutes 60) = n -> n <= 0 ->
  state w1 = {| isRunning := false; remainingSeconds := 0;
                totalSeconds := n; startedAt := Some (now w) |} /\
  calls pauseMedia w1 = S (calls pauseMedia w) /\
  (n < 0 -> (totalSeconds (state w1) < remainingSeconds (state w1))%number).
Proof.
  intros w w1 Hmin Hn.
  assert (Hwf : wf w) by apply wf_run, wf_init.
  set (w0 := exec (start minutes) w).
  assert (Hwf0 : wf w0) by apply wf_start, Hwf.
  destruct (start_facts minutes w) as [S1 [S2 _]]. fold w0 in S1, S2.
  unfold started in S1. rewrite Hmin in S1.
  pose proof (start_ticking minutes w Hwf) as Ht0. fold w0 in Ht0.
  assert (Hw1 : w1 = run [Elapse 1000; Fire (fresh w)] w0)
    by (unfold w1; rewrite run_cons, step_start; reflexivity).
  destruct (last_second (fresh w) w0 Hwf0 Ht0 S2) as [L1 [L2 _]].
  - rewrite S1. reflexivity.
  - rewrite S1. cbn [remainingSeconds].
    unfold number_le. rewrite leb_integers. apply Z.leb_le. lia.
  - assert (Hc : calls pauseMedia w0 = calls pauseMedia w)
      by apply calls_start.
    rewrite Hw1, L1, L2, S1, Hc.
    cbn [expired totalSeconds startedAt remainingSeconds].
    repeat split. intros Hneg. unfold number_lt. rewrite ltb_integers.
    apply Z.ltb_lt, Hneg.
Qed.

Lemma short_countdown_expires_at_first_tick_witness :
  let w := run [] (init 0) in
  let w1 := run [CallStart (-1); Elapse 1000; Fire (fresh w)] w in
  Math_floor (number_mul (-1) 60) = -60 /\ -60 <= 0 /\ -60 < 0 /\
  state w1 = {| isRunning := false; remainingSeconds := 0;
                totalSeconds := -60; startedAt := Some (now w) |} /\
  (totalSeconds (state w1) < remainingSeconds (state w1))%number.
Proof.
  intros w w1.
  assert (H0 : Math_floor (number_mul (-1) 60) = -60) by reflexivity.
  assert (H1 : -60 <= 0) by discriminate.
  assert (H2 : -60 < 0) by reflexivity.
  destruct (short_countdown_expires_at_first_tick 0 [] (-1) (-60) H0 H1)
    as [E1 [_ E3]].
  exact (conj H0 (conj H1 (conj H2 (conj E1 (E3 H2))))).
Defined.

(** ** Collaborator calls over a whole history *)

Lemma step_pause_budget_any (w : World) (i : Input) :
  (calls pauseMedia (step w i) + armed (step w i) <=
   calls pauseMedia w + armed w + starts [i])%nat.
Proof.
  destruct (is_start i) eqn:Hi.
  - destruct i; try discriminate. rewrite step_start, calls_start.
    unfold armed, starts. cbn [filter is_start List.length].
    destruct (isRunning (state (exec (start minutes) w)));
      destruct (isRunning (state w)); lia.
  - pose proof (step_pause_budget w i Hi). lia.
Qed.

Lemma starts_cons (i : Input) (inputs : list Input) :
  starts (i :: inputs) = (starts [i] + starts inputs)%nat.
Proof.
  unfold starts. cbn [filter]. destruct (is_start i); reflexivity.
Qed.

(** X5: over any history from the initial state, [pauseMedia] has been
    called at most once per call of [start] (a running countdown counted
    as one call still to come), and [suspendSystem] at most once per
    [pauseMedia] call (a sequence in flight counted likewise): the host is
    never suspended without a countdown that was started and ran out. *)
Theorem collaborator_calls_bounded (t0 : Z) (inputs : list Input) :
  let w := run inputs (init t0) in
  (calls pauseMedia w + armed w <= starts inputs)%nat /\
  (calls suspendSystem w + in_flight w <= calls pauseMedia w)%nat.
Proof.
  intros w. split.
  - assert (H : forall l v,
              (calls pauseMedia (run l v) + armed (run l v) <=
               calls pauseMedia v + armed v + starts l)%nat).
    { induction l as [|i l IH]; intros v; [cbn; lia|].
      rewrite run_cons, starts_cons.
      specialize (IH (step v i)). pose proof (step_pause_budget_any v i).
      lia. }
    specialize (H inputs (init t0)). fold w in H.
    replace (calls pauseMedia (init t0)) with 0%nat in H by reflexivity.
    replace (armed (init t0)) with 0%nat in H by reflexivity.
    lia.
  - pose proof (run_suspend_budget inputs (init t0) (wf_init t0)) as H.
    fold w in H.
    replace (calls suspendSystem (init t0)) with 0%nat in H by reflexivity.
    replace (in_flight (init t0)) with 0%nat in H by reflexivity.
    replace (calls pauseMedia (init t0)) with 0%nat in H by reflexivity.
    lia.
Qed.

(** ** An expiry sequence in flight *)

(** As [pipeline_run], for a world in which further handles were
    allocated after the [pauseMedia] call. *)
Lemma pipeline_run_from (w1 : World) (ps : list (Handle * Collaborator))
    (p : Handle) (r1 r2 : PlatformResult) (d : Z) :
  pending w1 = ps ++ [(p, pauseMedia)] ->
  Forall (fun x => (fst x < p)%nat) ps ->
  Forall (fun t => (tm_handle t < fresh w1)%nat) (timers w1) ->
  (p < fresh w1)%nat ->
  1000 <= d ->
  run [Resolve p r1; Elapse d; Fire (fresh w1); Resolve (S (fresh w1)) r2] w1 =
  {| state := state w1; intervalId := intervalId w1;
     onExpireCallbacks := onExpireCallbacks w1; now := now w1 + d;
     timers := timers w1; pending := ps; fresh := S (S (fresh w1));
     trace := trace w1 ++
              [ (now w1, ConsoleLog (LogPauseMedia (message r1)));
                (now w1, SetTimeoutCall (fresh w1) 1000);
                (now w1 + d, CollaboratorCall suspendSystem (S (fresh w1)));
                (now w1 + d, ConsoleLog (LogSuspend (message r2))) ] |}.
Proof.
  intros Hp Hps Hts Hn Hd.
  rewrite run_cons, (step_resolve_last p pauseMedia r1 ps w1 Hp Hps).
  unfold exec at 1. rewrite expire_after_pause_closed.
  cbn [snd state trace pending fresh now intervalId onExpireCallbacks
       timers put_pending exec set_pending].
  rewrite run_cons, elapse_closed by lia.
  cbn [snd state trace pending fresh now intervalId onExpireCallbacks timers].
  rewrite run_cons.
  rewrite (step_fire_last (fresh w1)
             {| tm_handle := fresh w1; tm_due := now w1 + 1000;
                tm_period := None; tm_action := ResolveSettle |} (timers w1));
    [ | reflexivity | assumption | reflexivity | reflexivity | cbn; lia ].
  cbn [run_action tm_action]. unfold exec at 1.
  rewrite expire_after_settle_closed.
  cbn [snd state trace pending fresh now intervalId onExpireCallbacks
       timers put_timers exec set_timers].
  rewrite run_cons.
  rewrite (step_resolve_last (S (fresh w1)) suspendSystem r2 ps);
    [ | reflexivity | eapply Forall_impl; [|exact Hps]; cbn; intros; lia ].
  unfold exec. rewrite expire_after_suspend_closed.
  cbn [snd state trace pending fresh now intervalId onExpireCallbacks
       timers put_pending exec set_pending run fold_left].
  repeat rewrite <- app_assoc. reflexivity.
Qed.

Lemma count_suspend_pipeline (tr : list (Z * Effect)) (t t' : Z)
    (h p : Handle) (m1 m2 : string) :
  count_calls suspendSystem
    (tr ++ [ (t, ConsoleLog (LogPauseMedia m1)); (t, SetTimeoutCall h 1000);
             (t', CollaboratorCall suspendSystem p);
             (t', ConsoleLog (LogSuspend m2)) ]) =
  S (count_calls suspendSystem tr) /\
  count_calls pauseMedia
    (tr ++ [ (t, ConsoleLog (LogPauseMedia m1)); (t, SetTimeoutCall h 1000);
             (t', CollaboratorCall suspendSystem p);
             (t', ConsoleLog (LogSuspend m2)) ]) =
  count_calls pauseMedia tr.
Proof.
  rewrite !count_calls_app. cbn. lia.
Qed.

(** X6: [start] called after a countdown has expired, while its expiry
    sequence is still waiting for [pauseMedia], does not stop that
    sequence: the settle timeout is still set and [suspendSystem] is still
    called, during the new countdown; the steps of the old sequence leave
    the new run's state and its tick source as [start] made them. *)
Theorem expiry_sequence_survives_restart (t0 : Z) (pre : list Input)
    (h : Handle) (minutes : number) (r1 r2 : PlatformResult) (d : Z) :
  let w := run pre (init t0) in
  isRunning (state w) = true -> (remainingSeconds (state w) <= 1)%number ->
  intervalId w = Some h -> due h w = true -> 1000 <= d ->
  let p := fresh w in
  let w2 := run [Fire h; CallStart minutes] w in
  let w6 := run [Resolve p r1; Elapse d; Fire (S (S p));
                 Resolve (S (S (S p))) r2] w2 in
  state w2 = started minutes (now w) /\
  state w6 = state w2 /\
  tick_sources w6 = [S p] /\
  calls pauseMedia w6 = S (calls pauseMedia w) /\
  calls suspendSystem w6 = S (calls suspendSystem w).
Proof.
  intros w Hr Hrem Hi Hd Hdelay p w2 w6.
  assert (Hwf : wf w) by apply wf_run, wf_init.
  destruct (expiring_fire h w Hwf Hr Hrem Hi Hd)
    as [H1 [H2 [H3 [H4 [H5 [H6 [H7 H8]]]]]]].
  set (w1 := step w (Fire h)) in *.
  assert (Hw2 : w2 = exec (start minutes) w1)
    by (unfold w2; rewrite run_cons, run_cons, step_start; reflexivity).
  destruct (start_facts minutes w1) as [S1 [S2 [S3 [S4 [S5 S6]]]]].
  rewrite <- Hw2 in S1, S2, S3, S4, S5, S6.
  assert (Hc : forall c, calls c w2 = calls c w1)
    by (intros c; rewrite Hw2; apply calls_start).
  unfold cleared_timers in S6. rewrite H6 in S6.
  assert (Hwf2 : wf w2) by (unfold w2; apply wf_run, Hwf).
  assert (Hrun : w6 =
    {| state := state w2; intervalId := intervalId w2;
       onExpireCallbacks := onExpireCallbacks w2; now := now w2 + d;
       timers := timers w2; pending := pending w; fresh := S (S (fresh w2));
       trace := trace w2 ++
                [ (now w2, ConsoleLog (LogPauseMedia (message r1)));
                  (now w2, SetTimeoutCall (fresh w2) 1000);
                  (now w2 + d, CollaboratorCall suspendSystem (S (fresh w2)));
                  (now w2 + d, ConsoleLog (LogSuspend (message r2))) ] |}).
  { unfold w6. replace (S (S p)) with (fresh w2) by (rewrite S5, H4; reflexivity).
    apply pipeline_run_from; try assumption.
    - rewrite S4, H3. reflexivity.
    - apply Hwf.
    - apply Hwf2.
    - rewrite S5, H4. unfold p. lia. }
  assert (Hp1 : calls pauseMedia w1 = S (calls pauseMedia w))
    by (rewrite !calls_count, H2, count_calls_app, count_pause_expiry; lia).
  assert (Hs1 : calls suspendSystem w1 = calls suspendSystem w)
    by (rewrite !calls_count, H2, count_calls_app, count_suspend_expiry; lia).
  split; [rewrite S1, H5; reflexivity|].
  split; [rewrite Hrun; reflexivity|].
  split.
  - assert (Hts : tick_sources w6 = tick_sources w2)
      by (rewrite Hrun; reflexivity).
    rewrite Hts, (wf_sources w2 Hwf2), S2, H4. reflexivity.
  - rewrite <- Hp1, <- Hs1, <- !Hc. rewrite Hrun, !calls_count. cbn [trace].
    destruct (count_suspend_pipeline (trace w2) (now w2) (now w2 + d)
                (fresh w2) (S (fresh w2)) (message r1) (message r2))
      as [E1 E2].
    split; assumption.
Qed.

Lemma expiry_sequence_survives_restart_witness :
  let ok := {| success := true; message := "done" |} in
  let w := run [CallStart one_sixtieth; Elapse 1000] (init 0) in
  isRunning (state w) = true /\ (remainingSeconds (state w) <= 1)%number /\
  intervalId w = Some 0%nat /\ due 0%nat w = true /\ 1000 <= 1000 /\
  let p := fresh w in
  let w2 := run [Fire 0%nat; CallStart 5] w in
  let w6 := run [Resolve p ok; Elapse 1000; Fire (S (S p));
                 Resolve (S (S (S p))) ok] w2 in
  state w2 = started 5 (now w) /\
  state w6 = state w2 /\
  tick_sources w6 = [S p] /\
  calls pauseMedia w6 = S (calls pauseMedia w) /\
  calls suspendSystem w6 = S (calls suspendSystem w).
Proof.
  intros ok w.
  assert (H1 : isRunning (state w) = true) by reflexivity.
  assert (H2 : (remainingSeconds (state w) <= 1)%number) by reflexivity.
  assert (H3 : intervalId w = Some 0%nat) by reflexivity.
  assert (H4 : due 0%nat w = true) by reflexivity.
  assert (H5 : 1000 <= 1000) by lia.
  repeat (split; [assumption|]).
  exact (expiry_sequence_survives_restart 0 [CallStart one_sixtieth; Elapse 1000]
           0%nat 5 ok ok 1000 H1 H2 H3 H4 H5).
Defined.

(** X7: [cancel] called after a countdown has expired resets the state to
    idle but does not stop the expiry sequence in flight: [suspendSystem]
    is still called once the settle delay has run out. *)
Theorem cancel_after_expiry_still_suspends (t0 : Z) (pre : list Input)
    (h : Handle) (r1 r2 : PlatformResult) (d : Z) :
  let w := run pre (init t0) in
  isRunning (state w) = true -> (remainingSeconds (state w) <= 1)%number ->
  intervalId w = Some h -> due h w = true -> 1000 <= d ->
  let p := fresh w in
  let w2 := run [Fire h; CallCancel] w in
  let w6 := run [Resolve p r1; Elapse d; Fire (S p); Resolve (S (S p)) r2]
              w2 in
  state w2 = idle /\ state w6 = idle /\
  calls suspendSystem w2 = calls suspendSystem w /\
  calls suspendSystem w6 = S (calls suspendSystem w).
Proof.
  intros w Hr Hrem Hi Hd Hdelay p w2 w6.
  assert (Hwf : wf w) by apply wf_run, wf_init.
  destruct (expiring_fire h w Hwf Hr Hrem Hi Hd)
    as [H1 [H2 [H3 [H4 [H5 [H6 [H7 H8]]]]]]].
  set (w1 := step w (Fire h)) in *.
  assert (Hw2 : w2 = exec cancel w1).
  { unfold w2. rewrite run_cons, run_cons. fold w1. unfold step, exec.
    cbn [dispatch run fold_left]. rewrite then_ret. reflexivity. }
  assert (Hwf2 : wf w2) by (unfold w2; apply wf_run, Hwf).
  assert (F : state w2 = idle /\ pending w2 = pending w1 /\
              fresh w2 = fresh w1 /\ now w2 = now w1).
  { rewrite Hw2. unfold exec. rewrite cancel_closed. repeat split. }
  destruct F as [F1 [F2 [F3 F4]]].
  assert (Hc : calls suspendSystem w2 = calls suspendSystem w1)
    by (rewrite Hw2; apply calls_cancel).
  assert (Hs1 : calls suspendSystem w1 = calls suspendSystem w)
    by (rewrite !calls_count, H2, count_calls_app, count_suspend_expiry; lia).
  assert (Hrun : w6 =
    {| state := state w2; intervalId := intervalId w2;
       onExpireCallbacks := onExpireCallbacks w2; now := now w2 + d;
       timers := timers w2; pending := pending w; fresh := S (S (fresh w2));
       trace := trace w2 ++
                [ (now w2, ConsoleLog (LogPauseMedia (message r1)));
                  (now w2, SetTimeoutCall (fresh w2) 1000);
                  (now w2 + d, CollaboratorCall suspendSystem (S (fresh w2)));
                  (now w2 + d, ConsoleLog (LogSuspend (message r2))) ] |}).
  { unfold w6. replace (S p) with (fresh w2) by (rewrite F3, H4; reflexivity).
    apply pipeline_run_from; try assumption.
    - rewrite F2, H3. reflexivity.
    - apply Hwf.
    - apply Hwf2.
    - rewrite F3, H4. unfold p. lia. }
  split; [exact F1|]. split; [rewrite Hrun; exact F1|].
  split; [rewrite Hc; exact Hs1|].
  rewrite <- Hs1, <- Hc, Hrun, !calls_count. cbn [trace].
  apply count_suspend_pipeline.
Qed.

Lemma cancel_after_expiry_still_suspends_witness :
  let ok := {| success := true; message := "done" |} in
  let w := run [CallStart one_sixtieth; Elapse 1000] (init 0) in
  isRunning (state w) = true /\ (remainingSeconds (state w) <= 1)%number /\
  intervalId w = Some 0%nat /\ due 0%nat w = true /\ 1000 <= 1000 /\
  let p := fresh w in
  let w2 := run [Fire 0%nat; CallCancel] w in
  let w6 := run [Resolve p ok; Elapse 1000; Fire (S p); Resolve (S (S p)) ok]
              w2 in
  state w2 = idle /\ state w6 = idle /\
  calls suspendSystem w2 = calls suspendSystem w /\
  calls suspendSystem w6 = S (calls suspendSystem w).
Proof.
  intros ok w.
  assert (H1 : isRunning (state w) = true) by reflexivity.
  assert (H2 : (remainingSeconds (state w) <= 1)%number) by reflexivity.
  assert (H3 : intervalId w = Some 0%nat) by reflexivity.
  assert (H4 : due 0%nat w = true) by reflexivity.
  assert (H5 : 1000 <= 1000) by lia.
  repeat (split; [assumption|]).
  exact (cancel_after_expiry_still_suspends 0
           [CallStart one_sixtieth; Elapse 1000] 0%nat ok ok 1000
           H1 H2 H3 H4 H5).
Defined.

(** * Properties of the platform collaborators *)

Lemma getPlatform_cases (pp : string) :
  platform.getPlatform pp = "darwin"%string \/
  platform.getPlatform pp = "linux"%string \/
  platform.getPlatform pp = "win32"%string \/
  platform.getPlatform pp = "unknown"%string.
Proof.
  unfold platform.getPlatform.
  destruct (String.eqb_spec pp "darwin") as [->|_]; [auto|].
  destruct (String.eqb_spec pp "linux") as [->|_]; [auto|].
  destruct (String.eqb_spec pp "win32") as [->|_]; auto.
Qed.

Ltac on_each_platform pp :=
  unfold platform.pauseMedia, platform.suspendSystem;
  destruct (getPlatform_cases pp) as [-> | [-> | [-> | ->]]];
  cbn [String.eqb Ascii.eqb Bool.eqb].

Ltac run_shell :=
  unfold platform.try_catch, platform.sh_bind, platform.dollar,
    platform.sh_ret, platform.works in *.

(** X8: neither [pauseMedia] nor [suspendSystem] ever throws: on every
    platform, whatever each shell command does, the promise resolves with
    a result object; a command that fails shows only in [success] and
    [message]. *)
Theorem collaborators_never_throw (sh : platform.Shell) (pp : string)
    (l : list platform.Command) :
  (exists r, fst (platform.pauseMedia sh pp l) = platform.Resolved r) /\
  (exists r, fst (platform.suspendSystem sh pp l) = platform.Resolved r).
Proof.
  split; on_each_platform pp; run_shell;
    repeat match goal with
           | |- context [sh ?c] => destruct (sh c)
           end;
    eexists; reflexivity.
Qed.

(** X9: on macOS [pauseMedia] runs both AppleScript commands, the second
    also when the first fails, and reports [success = true] whatever they
    do, even when both fail. *)
Theorem pauseMedia_darwin_always_succeeds (sh : platform.Shell) (pp : string)
    (l : list platform.Command) :
  platform.getPlatform pp = "darwin"%string ->
  platform.pauseMedia sh pp l =
  (platform.Resolved {| success := true;
                        message := "Media pause commands sent" |},
   l ++ [platform.OsascriptSafariPause; platform.OsascriptChromePause]).
Proof.
  intros Hp. unfold platform.pauseMedia. rewrite Hp.
  cbn [String.eqb Ascii.eqb Bool.eqb]. run_shell.
  destruct (sh platform.OsascriptSafariPause);
    destruct (sh platform.OsascriptChromePause);
    rewrite <- app_assoc; reflexivity.
Qed.

Lemma pauseMedia_darwin_always_succeeds_witness :
  let broken : platform.Shell := fun _ => Some "not found"%string in
  platform.getPlatform "darwin" = "darwin"%string /\
  platform.pauseMedia broken "darwin" [] =
  (platform.Resolved {| success := true;
                        message := "Media pause commands sent" |},
   [platform.OsascriptSafariPause; platform.OsascriptChromePause]).
Proof.
  intros broken.
  assert (H : platform.getPlatform "darwin" = "darwin"%string) by reflexivity.
  split; [exact H|].
  exact (pauseMedia_darwin_always_succeeds broken "darwin" [] H).
Defined.

(** X10: on Linux both functions try a first command and fall back to a
    second one only when the first fails ([playerctl] then [dbus-send],
    [systemctl suspend] then [pm-suspend]); [success] is true exactly when
    one of the two commands that were run succeeded. *)
Theorem linux_falls_back_once (sh : platform.Shell) (pp : string)
    (l : list platform.Command) :
  platform.getPlatform pp = "linux"%string ->
  (exists r,
     platform.pauseMedia sh pp l =
       (platform.Resolved r,
        l ++ platform.PlayerctlPause ::
             (if platform.works sh platform.PlayerctlPause then []
              else [platform.DbusSendPause])) /\
     success r = platform.works sh platform.PlayerctlPause ||
                 platform.works sh platform.DbusSendPause) /\
  (exists r,
     platform.suspendSystem sh pp l =
       (platform.Resolved r,
        l ++ platform.SystemctlSuspend ::
             (if platform.works sh platform.SystemctlSuspend then []
              else [platform.PmSuspend])) /\
     success r = platform.works sh platform.SystemctlSuspend ||
                 platform.works sh platform.PmSuspend).
Proof.
  intros Hp. unfold platform.pauseMedia, platform.suspendSystem.
  rewrite Hp. cbn [String.eqb Ascii.eqb Bool.eqb]. run_shell.
  split.
  - destruct (sh platform.PlayerctlPause);
      destruct (sh platform.DbusSendPause);
      eexists; (split; [rewrite <- ?app_assoc; reflexivity | reflexivity]).
  - destruct (sh platform.SystemctlSuspend);
      destruct (sh platform.PmSuspend);
      eexists; (split; [rewrite <- ?app_assoc; reflexivity | reflexivity]).
Qed.

Lemma linux_falls_back_once_witness :
  let no_playerctl : platform.Shell :=
    fun c => match c with
             | platform.PlayerctlPause => Some "command not found"%string
             | _ => None
             end in
  platform.getPlatform "linux" = "linux"%string /\
  exists r,
    platform.pauseMedia no_playerctl "linux" [] =
      (platform.Resolved r,
       [] ++ platform.PlayerctlPause ::
             (if platform.works no_playerctl platform.PlayerctlPause then []
              else [platform.DbusSendPause])) /\
    success r = platform.works no_playerctl platform.PlayerctlPause ||
                platform.works no_playerctl platform.DbusSendPause.
Proof.
  intros no_playerctl.
  assert (H : platform.getPlatform "linux" = "linux"%string) by reflexivity.
  split; [exact H|].
  exact (proj1 (linux_falls_back_once no_playerctl "linux" [] H)).
Defined.

(** X11: where a function runs a single command ([suspendSystem] on macOS,
    both functions on Windows) it runs it once, [success] tells whether
    the command succeeded, and the text of a failure is passed on in
    [message]. *)
Theorem single_command_result (sh : platform.Shell) (pp : string)
    (l : list platform.Command) :
  (platform.getPlatform pp = "darwin"%string ->
   platform.suspendSystem sh pp l =
   (platform.Resolved
      match sh platform.PmsetSleepnow with
      | None => {| success := true; message := "System going to sleep..." |}
      | Some e => {| success := false;
                     message := "Error suspending system: " ++ e |}
      end, l ++ [platform.PmsetSleepnow])) /\
  (platform.getPlatform pp = "win32"%string ->
   platform.suspendSystem sh pp l =
   (platform.Resolved
      match sh platform.Rundll32Suspend with
      | None => {| success := true; message := "System suspending..." |}
      | Some e => {| success := false;
                     message := "Error suspending system: " ++ e |}
      end, l ++ [platform.Rundll32Suspend]) /\
   platform.pauseMedia sh pp l =
   (platform.Resolved
      match sh platform.PowershellMediaKey with
      | None => {| success := true; message := "Media key sent" |}
      | Some e => {| success := false;
                     message := "Error pausing media: " ++ e |}
      end, l ++ [platform.PowershellMediaKey])).
Proof.
  split; intros Hp; unfold platform.pauseMedia, platform.suspendSystem;
    rewrite Hp; cbn [String.eqb Ascii.eqb Bool.eqb]; run_shell.
  - destruct (sh platform.PmsetSleepnow); reflexivity.
  - split.
    + destruct (sh platform.Rundll32Suspend); reflexivity.
    + destruct (sh platform.PowershellMediaKey); reflexivity.
Qed.

Lemma single_command_result_witness :
  let denied : platform.Shell := fun _ => Some "permission denied"%string in
  platform.getPlatform "darwin" = "darwin"%string /\
  platform.getPlatform "win32" = "win32"%string /\
  platform.suspendSystem denied "darwin" [] =
  (platform.Resolved
     {| success := false;
        message := "Error suspending system: permission denied" |},
   [platform.PmsetSleepnow]) /\
  platform.pauseMedia denied "win32" [] =
  (platform.Resolved
     {| success := false;
        message := "Error pausing media: permission denied" |},
   [platform.PowershellMediaKey]).
Proof.
  intros denied.
  assert (H1 : platform.getPlatform "darwin" = "darwin"%string) by reflexivity.
  assert (H2 : platform.getPlatform "win32" = "win32"%string) by reflexivity.
  split; [exact H1|]. split; [exact H2|]. split.
  - exact (proj1 (single_command_result denied "darwin" []) H1).
  - exact (proj2 (proj2 (single_command_result denied "win32" []) H2)).
Defined.

(** X12: [pauseMedia] only ever runs commands that pause media and
    [suspendSystem] only commands that suspend the host, on every
    platform and whatever the commands do; on a platform other than
    macOS, Linux and Windows neither runs any command and both report
    [success = false]. *)
Theorem collaborators_keep_to_their_commands (sh : platform.Shell)
    (pp : string) :
  Forall (fun c => platform.pauses_media c = true)
    (snd (platform.pauseMedia sh pp [])) /\
  Forall (fun c => platform.suspends_host c = true)
    (snd (platform.suspendSystem sh pp [])) /\
  (platform.getPlatform pp = "unknown"%string ->
   platform.pauseMedia sh pp [] =
     (platform.Resolved {| success := false;
                           message := "Unsupported platform: unknown" |},
      []) /\
   platform.suspendSystem sh pp [] =
     (platform.Resolved {| success := false;
                           message := "Unsupported platform: unknown" |},
      [])).
Proof.
  split; [|split].
  - on_each_platform pp; run_shell;
      repeat match goal with
             | |- context [sh ?c] => destruct (sh c)
             end;
      cbn; repeat constructor.
  - on_each_platform pp; run_shell;
      repeat match goal with
             | |- context [sh ?c] => destruct (sh c)
             end;
      cbn; repeat constructor.
  - intros Hp. unfold platform.pauseMedia, platform.suspendSystem.
    rewrite Hp. split; reflexivity.
Qed.

Lemma collaborators_keep_to_their_commands_witness :
  let sh : platform.Shell := fun _ => None in
  platform.getPlatform "freebsd" = "unknown"%string /\
  platform.pauseMedia sh "freebsd" [] =
    (platform.Resolved {| success := false;
                          message := "Unsupported platform: unknown" |},
     []) /\
  platform.suspendSystem sh "freebsd" [] =
    (platform.Resolved {| success := false;
                          message := "Unsupported platform: unknown" |},
     []).
Proof.
  intros sh.
  assert (H : platform.getPlatform "freebsd" = "unknown"%string)
    by reflexivity.
  split; [exact H|].
  exact (proj2 (proj2 (collaborators_keep_to_their_commands sh "freebsd")) H).
Defined.

(** * Properties of the HTTP layer *)

(** ** Static files *)

Lemma has_dotdot_cons (c : ascii) (s : string) :
  has_dotdot (String c s) =
  match s with
  | String c' _ => (Ascii.eqb c "."%char && Ascii.eqb c' "."%char) ||
                   has_dotdot s
  | EmptyString => false
  end.
Proof. reflexivity. Qed.

Lemma strip_dotdot_cons (c : ascii) (s : string) :
  strip_dotdot (String c s) =
  if Ascii.eqb c "."%char
  then match s with
       | String c' s' =>
           if Ascii.eqb c' "."%char then strip_dotdot s'
           else String c (strip_dotdot s)
       | EmptyString => String c EmptyString
       end
  else String c (strip_dotdot s).
Proof. reflexivity. Qed.

(** After a character that is not a dot, no pair starts. *)
Lemma has_dotdot_after (c : ascii) (s : string) :
  Ascii.eqb c "."%char = false ->
  has_dotdot (String c s) = has_dotdot s.
Proof.
  intros Hc. rewrite has_dotdot_cons, Hc. destruct s; reflexivity.
Qed.

Lemma strip_dotdot_clean_pair (s : string) :
  has_dotdot (strip_dotdot s) = false /\
  forall c, has_dotdot (strip_dotdot (String c s)) = false.
Proof.
  induction s as [|a s [IH1 IH2]].
  - split; [reflexivity|]. intros c. rewrite strip_dotdot_cons.
    destruct (Ascii.eqb c "."%char); reflexivity.
  - split; [apply IH2|]. intros c. rewrite strip_dotdot_cons.
    destruct (Ascii.eqb c "."%char) eqn:Hc.
    + destruct (Ascii.eqb a "."%char) eqn:Ha; [exact IH1|].
      rewrite strip_dotdot_cons, Ha, has_dotdot_cons, Ha, andb_false_r.
      cbn [orb]. specialize (IH2 a).
      rewrite strip_dotdot_cons, Ha in IH2. exact IH2.
    + rewrite has_dotdot_after by assumption. apply IH2.
Qed.

Lemma strip_dotdot_identity_pair (s : string) :
  (has_dotdot s = false -> strip_dotdot s = s) /\
  forall c, has_dotdot (String c s) = false ->
            strip_dotdot (String c s) = String c s.
Proof.
  induction s as [|a s [IH1 IH2]].
  - split; [reflexivity|]. intros c _. rewrite strip_dotdot_cons.
    destruct (Ascii.eqb c "."%char); reflexivity.
  - split; [apply IH2|]. intros c H.
    rewrite has_dotdot_cons in H. apply orb_false_iff in H.
    destruct H as [Hpair Hrest]. rewrite strip_dotdot_cons.
    destruct (Ascii.eqb c "."%char) eqn:Hc.
    + destruct (Ascii.eqb a "."%char) eqn:Ha; [discriminate|].
      rewrite (IH2 a Hrest). reflexivity.
    + rewrite (IH2 a Hrest). reflexivity.
Qed.

(** X13: the text [serveStatic] looks up never contains two dots in a row,
    whatever path was asked for; a path without such a pair is looked up
    as it is, so cleaning a path twice is cleaning it once; and a path
    that begins with a slash still does after cleaning. *)
Theorem strip_dotdot_leaves_no_pair (path : string) :
  has_dotdot (strip_dotdot path) = false /\
  strip_dotdot (strip_dotdot path) = strip_dotdot path /\
  (has_dotdot path = false -> strip_dotdot path = path) /\
  (String.prefix "/" path = true ->
   String.prefix "/" (strip_dotdot path) = true).
Proof.
  pose proof (proj1 (strip_dotdot_clean_pair path)) as Hclean.
  split; [exact Hclean|]. split; [|split].
  - apply (proj1 (strip_dotdot_identity_pair _)), Hclean.
  - apply (proj1 (strip_dotdot_identity_pair path)).
  - destruct path as [|c s]; [discriminate|]. intros H.
    cbn [String.prefix] in H.
    destruct (Ascii.ascii_dec "/"%char c) as [<-|]; [|discriminate].
    rewrite strip_dotdot_cons.
    change (Ascii.eqb "/" ".")%char with false.
    destruct (strip_dotdot s); reflexivity.
Qed.

Lemma strip_dotdot_leaves_no_pair_witness :
  has_dotdot "/app.js" = false /\
  String.prefix "/" "/../../etc/passwd" = true /\
  strip_dotdot "/app.js" = "/app.js"%string /\
  String.prefix "/" (strip_dotdot "/../../etc/passwd") = true.
Proof.
  assert (H1 : has_dotdot "/app.js" = false) by reflexivity.
  assert (H2 : String.prefix "/" "/../../etc/passwd" = true) by reflexivity.
  split; [exact H1|]. split; [exact H2|]. split.
  - exact (proj1 (proj2 (proj2 (strip_dotdot_leaves_no_pair "/app.js"))) H1).
  - exact (proj2 (proj2 (proj2
             (strip_dotdot_leaves_no_pair "/../../etc/passwd"))) H2).
Defined.

(** Removing the pairs can join two paths into one. *)
Example strip_dotdot_examples :
  strip_dotdot "/../../etc/passwd" = "///etc/passwd"%string /\
  strip_dotdot "/.../a" = "/./a"%string /\
  strip_dotdot "/sty..les.css" = "/styles.css"%string.
Proof. repeat split. Qed.

(** X14: [serveStatic] answers every path with status 200 and one of the
    three embedded files: the style sheet and the script under their own
    (cleaned) paths, the page for everything else; the final 404 is never
    reached. *)
Theorem serveStatic_never_404 (indexHtml stylesCss appJs path : string) :
  let response := serveStatic (staticFiles indexHtml stylesCss appJs) path in
  let safePath := strip_dotdot path in
  status response = 200 /\
  payload response =
    Content (if (safePath =? "/styles.css")%string then stylesCss
             else if (safePath =? "/app.js")%string then appJs
             else indexHtml) /\
  content_type response =
    Some (if (safePath =? "/styles.css")%string then "text/css"
          else if (safePath =? "/app.js")%string
               then "application/javascript"
               else "text/html")%string.
Proof.
  intros response safePath. subst response. unfold serveStatic.
  fold safePath. unfold staticFiles. cbn [lookup_file].
  rewrite !(String.eqb_sym _ safePath).
  destruct (String.eqb_spec safePath "/") as [->|_]; [repeat split|].
  destruct (String.eqb_spec safePath "/index.html") as [->|_];
    [repeat split|].
  destruct (safePath =? "/styles.css")%string; [repeat split|].
  destruct (safePath =? "/app.js")%string; repeat split.
Qed.

(** ** The API routes *)

Lemma fetch_start_timer (pp : string) (files : list (string * StaticFile))
    (body : Body) (sv : Server) :
  fetch pp files (mkRequest "/api/start-timer" "POST" body) sv =
  match body with
  | BadJson error =>
      (json 500 (ErrorJson "Internal server error"),
       {| timer := timer sv; api_errors := api_errors sv ++ [error] |})
  | JsonBody m =>
      let minutes := minutes_or_default m in
      if out_of_range minutes
      then (json 400 (ErrorJson "Duration must be between 1 and 480 minutes"),
            sv)
      else (json 200 (StateJson (eval (start (ToNumber minutes)) (timer sv))
                        None),
            {| timer := exec (start (ToNumber minutes)) (timer sv);
               api_errors := api_errors sv |})
  end.
Proof.
  unfold fetch, handleApi. cbn [req_path req_method req_body].
  change (String.prefix "/api/" "/api/start-timer") with true.
  change ("/api/start-timer" =? "/api/status")%string with false.
  change ("/api/start-timer" =? "/api/start-timer")%string with true.
  change ("POST" =? "POST")%string with true.
  cbn [andb]. destruct body as [error|m]; [reflexivity|]. cbv zeta.
  destruct (out_of_range (minutes_or_default m)); [reflexivity|].
  unfold on_timer, eval, exec.
  destruct (start (ToNumber (minutes_or_default m)) (timer sv)); reflexivity.
Qed.

(** The two comparisons of the route, for minutes that are a number. *)
Lemma out_of_range_spec (minutes : JsValue) :
  ToNumber minutes <> NaN ->
  out_of_range minutes = false <->
  (0 < ToNumber minutes)%number /\ (ToNumber minutes <= 480)%number.
Proof.
  unfold out_of_range, number_lt, number_le.
  destruct (ToNumber minutes) as [|s|m e]; intros Hnan; [congruence| |].
  - cbn [number_leb number_ltb integer]. destruct s; cbn; intuition congruence.
  - rewrite leb_zero. cbn [number_leb number_ltb integer].
    rewrite (Z.min_comm 0 e), Z.mul_0_l.
    pose proof (pow2_pos (e - Z.min e 0) ltac:(lia)) as Hp.
    rewrite orb_false_iff, Z.leb_gt, Z.ltb_ge, Z.ltb_lt, Z.leb_le. nia.
Qed.

(** Both comparisons are false of [NaN]. *)
Lemma out_of_range_nan (minutes : JsValue) :
  ToNumber minutes = NaN -> out_of_range minutes = false.
Proof. unfold out_of_range. intros ->. reflexivity. Qed.

(** A countdown of [NaN] seconds goes on for ever. *)
Lemma nan_countdown_step (w : World) (t : Z) (i : Input) :
  is_start i || is_cancel i = false ->
  state w = started NaN t -> state (step w i) = started NaN t.
Proof.
  intros Hi Hs. pose proof (step_state w i) as Hm.
  destruct i; cbn [state_moved is_start is_cancel orb] in *;
    try discriminate; try congruence.
  destruct Hm as [-> | ->]; [exact Hs|]. rewrite Hs. reflexivity.
Qed.

Lemma nan_countdown_run (inputs : list Input) (w : World) (t : Z) :
  no_start_cancel inputs = true ->
  state w = started NaN t -> state (run inputs w) = started NaN t.
Proof.
  revert w. induction inputs as [|i inputs IH]; intros w H Hs; [exact Hs|].
  rewrite run_cons. cbn in H. apply andb_prop in H. destruct H as [Hi H].
  apply negb_true_iff in Hi.
  apply IH; [exact H | apply nan_countdown_step; assumption].
Qed.

(** X15: [POST /api/start-timer] settles on [body.minutes || 30] and
    rejects it when [minutes <= 0 || minutes > 480].  For minutes that are
    a number the countdown is started exactly when they are above 0 and at
    most 480, fractions of a minute included (the error text speaks of 1
    to 480): the answer is then 200 with the state [start] returned, whose
    [totalSeconds] is a whole number from 0 to 28800; otherwise the answer
    is 400 and nothing in the process changes.  Minutes that are not a
    number ([ToNumber] gives [NaN], as for a word) pass both comparisons:
    the answer is 200, and the countdown started has [NaN] seconds, which
    no tick ends: it runs until [start] or [cancel] is called.  A body
    that cannot be read gives 500, one more logged error, and an untouched
    timer. *)
Theorem start_endpoint_validates (pp : string)
    (files : list (string * StaticFile)) (m : JsValue) (sv : Server) :
  let minutes := ToNumber (minutes_or_default m) in
  let answer :=
    fetch pp files (mkRequest "/api/start-timer" "POST" (JsonBody m)) sv in
  ((0 < minutes)%number /\ (minutes <= 480)%number ->
   status (fst answer) = 200 /\
   payload (fst answer) =
     StateJson (started minutes (now (timer sv))) None /\
   timer (snd answer) = exec (start minutes) (timer sv) /\
   exists z : Z,
     totalSeconds (state (timer (snd answer))) = z /\ 0 <= z <= 28800) /\
  (minutes <> NaN ->
   ~ ((0 < minutes)%number /\ (minutes <= 480)%number) ->
   status (fst answer) = 400 /\ snd answer = sv) /\
  (minutes = NaN ->
   status (fst answer) = 200 /\
   state (timer (snd answer)) =
     {| isRunning := true; remainingSeconds := NaN; totalSeconds := NaN;
        startedAt := Some (now (timer sv)) |} /\
   forall inputs : list Input,
     no_start_cancel inputs = true ->
     state (run inputs (timer (snd answer))) = state (timer (snd answer))) /\
  (forall error,
     let failed :=
       fetch pp files
         (mkRequest "/api/start-timer" "POST" (BadJson error)) sv in
     status (fst failed) = 500 /\ timer (snd failed) = timer sv /\
     api_errors (snd failed) = api_errors sv ++ [error]).
Proof.
  intros minutes answer. subst answer. rewrite fetch_start_timer.
  cbv zeta. fold minutes. split; [|split; [|split]].
  - intros H.
    assert (Hn : minutes <> NaN).
    { intros E. rewrite E in H. destruct H as [H _]. discriminate H. }
    rewrite (proj2 (out_of_range_spec _ Hn) H).
    cbn [fst snd json status payload timer].
    destruct (start_state minutes (timer sv)) as [E1 E2].
    rewrite E1, E2. repeat split.
    destruct H as [H0 H480].
    destruct (mul_60_below minutes H0 H480) as [z [Ez [Hz _]]].
    exists z. split; [exact Ez | exact Hz].
  - intros Hn H. destruct (out_of_range (minutes_or_default m)) eqn:Hr.
    + split; reflexivity.
    + exfalso. apply H, (out_of_range_spec _ Hn), Hr.
  - intros Hn. rewrite (out_of_range_nan _ Hn).
    cbn [fst snd json status payload timer].
    destruct (start_state minutes (timer sv)) as [_ E2].
    rewrite E2, Hn. split; [reflexivity|]. split; [reflexivity|].
    intros inputs Hin. apply nan_countdown_run; [exact Hin|].
    rewrite <- Hn. exact E2.
  - intros error. rewrite fetch_start_timer. repeat split.
Qed.

Lemma start_endpoint_validates_witness :
  let sv := boot 0 in
  let post := fun m => fetch "linux" [] (mkRequest "/api/start-timer" "POST"
                                           (JsonBody m)) sv in
  let half := post (JsNumber one_half) in
  let late := post (JsNumber 481) in
  let word := post (JsOther true NaN) in
  ((0 < one_half)%number /\ (one_half <= 480)%number) /\
  (integer 481 <> NaN /\
   ~ ((0 < 481)%number /\ (481 <= 480)%number)) /\
  (status (fst half) = 200 /\
   payload (fst half) = StateJson (started one_half 0) None /\
   timer (snd half) = exec (start one_half) (init 0) /\
   exists z : Z,
     totalSeconds (state (timer (snd half))) = z /\ 0 <= z <= 28800) /\
  (status (fst late) = 400 /\ snd late = sv) /\
  (status (fst word) = 200 /\
   state (timer (snd word)) =
     {| isRunning := true; remainingSeconds := NaN; totalSeconds := NaN;
        startedAt := Some 0 |}).
Proof.
  intros sv post half late word.
  assert (H1 : (0 < one_half)%number /\ (one_half <= 480)%number)
    by (split; reflexivity).
  assert (H2 : integer 481 <> NaN) by discriminate.
  assert (H3 : ~ ((0 < 481)%number /\ (481 <= 480)%number)).
  { intros [_ H]. discriminate H. }
  split; [exact H1|]. split; [exact (conj H2 H3)|]. split; [|split].
  - exact (proj1 (start_endpoint_validates "linux" [] (JsNumber one_half) sv)
             H1).
  - exact (proj1 (proj2 (start_endpoint_validates "linux" [] (JsNumber 481)
                           sv)) H2 H3).
  - destruct (proj1 (proj2 (proj2 (start_endpoint_validates "linux" []
                                     (JsOther true NaN) sv))) eq_refl)
      as [E1 [E2 _]].
    exact (conj E1 E2).
Defined.

(** X16: a start request without [minutes], or with [minutes] equal to 0
    (or any other value that counts as false), is not rejected: it starts
    a countdown of 30 minutes, 1800 seconds. *)
Theorem start_endpoint_defaults_to_30 (pp : string)
    (files : list (string * StaticFile)) (m : JsValue) (sv : Server) :
  ToBoolean m = false ->
  let answer :=
    fetch pp files (mkRequest "/api/start-timer" "POST" (JsonBody m)) sv in
  status (fst answer) = 200 /\
  payload (fst answer) =
    StateJson {| isRunning := true; remainingSeconds := 1800;
                 totalSeconds := 1800;
                 startedAt := Some (now (timer sv)) |} None /\
  state (timer (snd answer)) =
    {| isRunning := true; remainingSeconds := 1800; totalSeconds := 1800;
       startedAt := Some (now (timer sv)) |}.
Proof.
  intros Hm answer. subst answer. rewrite fetch_start_timer.
  unfold minutes_or_default. rewrite Hm. cbv zeta.
  change (out_of_range (JsNumber 30)) with false.
  cbn [fst snd json status payload timer ToNumber]. unfold eval, exec.
  rewrite start_closed. repeat split.
Qed.

Lemma start_endpoint_defaults_to_30_witness :
  let answer :=
    fetch "linux" [] (mkRequest "/api/start-timer" "POST"
                        (JsonBody (JsNumber 0))) (boot 0) in
  ToBoolean (JsNumber 0) = false /\ ToBoolean Undefined = false /\
  status (fst answer) = 200 /\
  state (timer (snd answer)) =
    {| isRunning := true; remainingSeconds := 1800; totalSeconds := 1800;
       startedAt := Some (now (timer (boot 0))) |}.
Proof.
  intros answer.
  assert (H : ToBoolean (JsNumber 0) = false) by reflexivity.
  assert (H' : ToBoolean Undefined = false) by reflexivity.
  destruct (start_endpoint_defaults_to_30 "linux" [] (JsNumber 0) (boot 0) H)
    as [H1 [_ H3]].
  exact (conj H (conj H' (conj H1 H3))).
Defined.

Lemma on_timer_getState (sv : Server) :
  on_timer getState sv = (state (timer sv), sv).
Proof. destruct sv. reflexivity. Qed.

(** X17: only a [POST] to [/api/start-timer] or to [/api/cancel-timer]
    can change anything in the process: every other request, the status
    route, an unknown API route, a wrong method, a static file, is
    answered without any change. *)
Theorem other_requests_change_nothing (pp : string)
    (files : list (string * StaticFile)) (request : Request) (sv : Server) :
  is_post request "/api/start-timer" = false ->
  is_post request "/api/cancel-timer" = false ->
  snd (fetch pp files request sv) = sv.
Proof.
  unfold is_post, fetch, handleApi.
  destruct request as [path method body]. cbn [req_path req_method req_body].
  destruct (String.prefix "/api/" path); [|reflexivity].
  cbn [andb]. intros H1 H2.
  destruct ((path =? "/api/status")%string && (method =? "GET")%string).
  - rewrite on_timer_getState. reflexivity.
  - rewrite H1, H2. reflexivity.
Qed.

Lemma other_requests_change_nothing_witness :
  let request := mkRequest "/api/status" "GET" (BadJson "empty") in
  let sv := snd (fetch "linux" [] (mkRequest "/api/start-timer" "POST"
                                     (JsonBody (JsNumber 5))) (boot 0)) in
  is_post request "/api/start-timer" = false /\
  is_post request "/api/cancel-timer" = false /\
  snd (fetch "linux" [] request sv) = sv.
Proof.
  intros request sv.
  assert (H1 : is_post request "/api/start-timer" = false) by reflexivity.
  assert (H2 : is_post request "/api/cancel-timer" = false) by reflexivity.
  exact (conj H1 (conj H2
           (other_requests_change_nothing "linux" [] request sv H1 H2))).
Defined.

(** ** The engine behind the API *)

Lemma fetch_lowers (pp : string) (files : list (string * StaticFile))
    (request : Request) (sv : Server) :
  numeric_event (Http request) ->
  exists inputs,
    Forall api_input inputs /\
    timer (snd (fetch pp files request sv)) = run inputs (timer sv).
Proof.
  unfold fetch, handleApi, numeric_event.
  destruct request as [path method body]. cbn [req_path req_method req_body].
  intros Hnum.
  destruct (String.prefix "/api/" path); [|exists []; split; [constructor|reflexivity]].
  destruct ((path =? "/api/status")%string && (method =? "GET")%string).
  { exists []. rewrite on_timer_getState. split; [constructor|reflexivity]. }
  destruct ((path =? "/api/start-timer")%string && (method =? "POST")%string).
  { destruct body as [error|m]; [exists []; split; [constructor|reflexivity]|].
    cbv zeta.
    destruct (out_of_range (minutes_or_default m)) eqn:Hr;
      [exists []; split; [constructor|reflexivity]|].
    exists [CallStart (ToNumber (minutes_or_default m))]. split.
    - repeat constructor; apply (out_of_range_spec _ Hnum), Hr.
    - rewrite run_cons, step_start. unfold on_timer, exec.
      destruct (start (ToNumber (minutes_or_default m)) (timer sv));
        reflexivity. }
  destruct ((path =? "/api/cancel-timer")%string && (method =? "POST")%string).
  { exists [CallCancel]. split; [repeat constructor|].
    rewrite run_cons. unfold step, exec, on_timer. cbn [dispatch run fold_left].
    rewrite then_ret. destruct (cancel (timer sv)); reflexivity. }
  exists []. split; [constructor|reflexivity].
Qed.

Lemma on_timer_dispatch (i : Input) (sv : Server) :
  timer (snd (on_timer (dispatch i) sv)) = step (timer sv) i.
Proof.
  unfold on_timer, step, exec. destruct (dispatch i (timer sv)); reflexivity.
Qed.

Lemma serve_run_lowers (pp : string) (files : list (string * StaticFile))
    (events : list ServerEvent) (sv : Server) :
  Forall numeric_event events ->
  exists inputs,
    Forall api_input inputs /\
    timer (serve_run pp files events sv) = run inputs (timer sv).
Proof.
  revert sv. induction events as [|e events IH]; intros sv Hall.
  - exists []. split; [constructor|reflexivity].
  - inversion Hall as [|? ? He Hrest]; subst.
    assert (Hstep : exists inputs,
              Forall api_input inputs /\
              timer (serve_step pp files sv e) = run inputs (timer sv)).
    { destruct e as [request|ms|h|p r]; cbn [serve_step].
      - apply fetch_lowers, He.
      - exists [Elapse ms]. split; [repeat constructor|].
        apply on_timer_dispatch.
      - exists [Fire h]. split; [repeat constructor|].
        apply on_timer_dispatch.
      - exists [Resolve p r]. split; [repeat constructor|].
        apply on_timer_dispatch. }
    destruct Hstep as [l1 [H1 E1]].
    destruct (IH (serve_step pp files sv e) Hrest) as [l2 [H2 E2]].
    exists (l1 ++ l2). split; [apply Forall_app; auto|].
    unfold serve_run in *. cbn [fold_left]. rewrite E2, E1, run_app.
    reflexivity.
Qed.

Lemma api_state_ok_idle : api_state_ok idle.
Proof. exists 0, 0. repeat split; (reflexivity || lia). Qed.

Lemma api_state_ok_after_tick (s : TimerState) :
  api_state_ok s -> api_state_ok (after_tick s).
Proof.
  unfold after_tick. intros [r [t [Hr [Ht [Hrt H]]]]].
  destruct (isRunning s); [|exists r, t; auto].
  assert (H53 : 28800 < 2 ^ 53) by reflexivity.
  assert (Hdec : decrement (remainingSeconds s) = integer (r - 1))
    by (rewrite Hr; apply decrement_integer; lia).
  rewrite Hdec, leb_integers.
  destruct (Z.leb_spec (r - 1) 0).
  - exists 0, t. cbn [expired remainingSeconds totalSeconds].
    repeat split; (assumption || lia).
  - exists (r - 1), t. cbn [with_remainingSeconds remainingSeconds totalSeconds].
    repeat split; (assumption || lia).
Qed.

Lemma api_state_ok_run (inputs : list Input) (w : World) :
  Forall api_input inputs -> api_state_ok (state w) ->
  api_state_ok (state (run inputs w)).
Proof.
  revert w. induction inputs as [|i inputs IH]; intros w Hall H;
    [assumption | rewrite run_cons].
  inversion Hall as [|? ? Hi Hrest]; subst. apply IH; [assumption|].
  pose proof (step_state w i) as Hm.
  destruct i; cbn [state_moved api_input] in *;
    try (rewrite Hm; assumption).
  - rewrite Hm. destruct Hi as [H0 H480].
    destruct (mul_60_below minutes H0 H480) as [z [Ez [Hz _]]].
    exists z, z. unfold started. cbn [remainingSeconds totalSeconds].
    repeat split; (assumption || lia).
  - rewrite Hm. apply api_state_ok_idle.
  - destruct Hm as [-> | ->]; [assumption | apply api_state_ok_after_tick, H].
Qed.

(** No route registers a callback. *)
Lemma fetch_callbacks (pp : string) (files : list (string * StaticFile))
    (request : Request) (sv : Server) :
  onExpireCallbacks (timer (snd (fetch pp files request sv))) =
  onExpireCallbacks (timer sv).
Proof.
  unfold fetch, handleApi.
  destruct request as [path method body]. cbn [req_path req_method req_body].
  destruct (String.prefix "/api/" path); [|reflexivity].
  destruct ((path =? "/api/status")%string && (method =? "GET")%string).
  { rewrite on_timer_getState. reflexivity. }
  destruct ((path =? "/api/start-timer")%string && (method =? "POST")%string).
  { destruct body as [error|m]; [reflexivity|]. cbv zeta.
    destruct (out_of_range (minutes_or_default m)); [reflexivity|].
    unfold on_timer. rewrite start_closed. reflexivity. }
  destruct ((path =? "/api/cancel-timer")%string && (method =? "POST")%string).
  { unfold on_timer. rewrite cancel_closed. reflexivity. }
  reflexivity.
Qed.

Lemma serve_run_callbacks (pp : string) (files : list (string * StaticFile))
    (events : list ServerEvent) (sv : Server) :
  onExpireCallbacks (timer (serve_run pp files events sv)) =
  onExpireCallbacks (timer sv).
Proof.
  revert sv. induction events as [|e events IH]; intros sv; [reflexivity|].
  unfold serve_run in *. cbn [fold_left]. rewrite IH.
  destruct e as [request|ms|h|p r]; cbn [serve_step].
  - apply fetch_callbacks.
  - rewrite on_timer_dispatch, step_callbacks. apply app_nil_r.
  - rewrite on_timer_dispatch, step_callbacks. apply app_nil_r.
  - rewrite on_timer_dispatch, step_callbacks. apply app_nil_r.
Qed.

(** X18: behind the HTTP layer no expiry callback is ever registered,
    whatever requests arrive; and as long as the minutes of every start
    request are a number, whatever the timers and collaborators do, the
    state the engine holds always has whole numbers of seconds with
    [0 <= remainingSeconds <= totalSeconds <= 28800]. *)
Theorem api_keeps_state_in_range (pp : string)
    (files : list (string * StaticFile)) (t0 : Z)
    (events : list ServerEvent) :
  let sv := serve_run pp files events (boot t0) in
  let s := state (timer sv) in
  onExpireCallbacks (timer sv) = [] /\
  (Forall numeric_event events ->
   exists r t : Z,
     remainingSeconds s = r /\ totalSeconds s = t /\
     0 <= r <= t /\ t <= 28800).
Proof.
  intros sv s. split; [apply serve_run_callbacks|].
  intros Hall. subst s sv.
  destruct (serve_run_lowers pp files events (boot t0) Hall)
    as [inputs [Hin ->]].
  cbn [boot timer].
  apply (api_state_ok_run inputs (init t0) Hin), api_state_ok_idle.
Qed.

Lemma api_keeps_state_in_range_witness :
  let start_half := Http (mkRequest "/api/start-timer" "POST"
                            (JsonBody (JsNumber one_half))) in
  let events := [start_half; Passes 1000; Fires 0%nat] in
  let s := state (timer (serve_run "linux" [] events (boot 0))) in
  Forall numeric_event events /\
  exists r t : Z,
    remainingSeconds s = r /\ totalSeconds s = t /\ 0 <= r <= t /\ t <= 28800.
Proof.
  intros start_half events s.
  assert (H : Forall numeric_event events).
  { repeat constructor. cbn. discriminate. }
  exact (conj H (proj2 (api_keeps_state_in_range "linux" [] 0 events) H)).
Defined.

(** * Properties of the page *)

Lemma forall_below (n : nat) (f : Z -> bool) :
  forallb (fun k => f (Z.of_nat k)) (seq 0 n) = true ->
  forall z, 0 <= z < Z.of_nat n -> f z = true.
Proof.
  intros H z Hz. rewrite forallb_forall in H.
  specialize (H (Z.to_nat z)). rewrite Z2Nat.id in H by lia.
  apply H. apply in_seq. lia.
Qed.

Lemma pad_two_digits (n : Z) :
  0 <= n < 100 -> padStart 2 "0" (String_of_number n) = two_digits n.
Proof.
  intros Hn. apply String.eqb_eq.
  apply (forall_below 100
           (fun z => (padStart 2 "0" (String_of_number z) =? two_digits z)%string));
    [vm_compute; reflexivity | exact Hn].
Qed.

Lemma digit_value_digit (k : Z) :
  0 <= k < 10 -> digit_value (digit k) = Some k.
Proof.
  intros Hk.
  assert (H : (match digit_value (digit k) with
               | Some v => v =? k
               | None => false
               end) = true).
  { apply (forall_below 10
             (fun z => match digit_value (digit z) with
                       | Some v => v =? z
                       | None => false
                       end)); [vm_compute; reflexivity | exact Hk]. }
  destruct (digit_value (digit k)) as [v|]; [|discriminate].
  apply Z.eqb_eq in H. congruence.
Qed.

Lemma clock_seconds_two_digits (h m s : Z) :
  0 <= h < 100 -> 0 <= m < 100 -> 0 <= s < 100 ->
  clock_seconds (two_digits h ++ ":" ++ two_digits m ++ ":" ++ two_digits s) =
  Some (h * 3600 + m * 60 + s).
Proof.
  intros Hh Hm Hs. unfold two_digits. cbn [append clock_seconds].
  change (Ascii.eqb ":" ":") with true. cbn [andb].
  pose proof (Z.div_mod h 10 ltac:(lia)).
  pose proof (Z.div_mod m 10 ltac:(lia)).
  pose proof (Z.div_mod s 10 ltac:(lia)).
  pose proof (Z.mod_pos_bound h 10 ltac:(lia)).
  pose proof (Z.mod_pos_bound m 10 ltac:(lia)).
  pose proof (Z.mod_pos_bound s 10 ltac:(lia)).
  assert (0 <= h / 10 < 10)
    by (split; [apply Z.div_pos | apply Z.div_lt_upper_bound]; lia).
  assert (0 <= m / 10 < 10)
    by (split; [apply Z.div_pos | apply Z.div_lt_upper_bound]; lia).
  assert (0 <= s / 10 < 10)
    by (split; [apply Z.div_pos | apply Z.div_lt_upper_bound]; lia).
  rewrite !digit_value_digit by assumption.
  f_equal. lia.
Qed.

(** X19: for a number of seconds from 0 up to 99:59:59, [formatTime]
    writes eight characters, two digits each for hours, minutes and
    seconds, and reading them back gives the number of seconds again: no
    two such durations are shown alike. *)
Theorem formatTime_round_trip (seconds : Z) :
  0 <= seconds < 360000 ->
  String.length (formatTime seconds) = 8%nat /\
  clock_seconds (formatTime seconds) = Some seconds.
Proof.
  intros Hs. unfold formatTime.
  rewrite !Z.rem_mod_nonneg by lia.
  pose proof (Z.mod_pos_bound seconds 3600 ltac:(lia)) as Hm.
  pose proof (Z.mod_pos_bound seconds 60 ltac:(lia)) as Hsec.
  assert (Hh : 0 <= seconds / 3600 < 100)
    by (split; [apply Z.div_pos | apply Z.div_lt_upper_bound]; lia).
  assert (Hmin : 0 <= seconds mod 3600 / 60 < 100)
    by (split; [apply Z.div_pos | apply Z.div_lt_upper_bound]; lia).
  rewrite !pad_two_digits by lia.
  split; [reflexivity|].
  rewrite clock_seconds_two_digits by lia. f_equal.
  pose proof (Z.div_mod seconds 3600 ltac:(lia)) as E1.
  pose proof (Z.div_mod (seconds mod 3600) 60 ltac:(lia)) as E2.
  pose proof (Z.div_mod seconds 60 ltac:(lia)) as E3.
  pose proof (Z.mod_pos_bound (seconds mod 3600) 60 ltac:(lia)) as Hr.
  lia.
Qed.

Lemma formatTime_round_trip_witness :
  0 <= 3725 < 360000 /\
  String.length (formatTime 3725) = 8%nat /\
  clock_seconds (formatTime 3725) = Some 3725.
Proof.
  assert (H : 0 <= 3725 < 360000) by lia.
  exact (conj H (formatTime_round_trip 3725 H)).
Defined.

(** What the page shows for an hour, for a negative count and for a
    hundred hours. *)
Example formatTime_examples :
  formatTime 3725 = "01:02:05"%string /\
  formatTime (-60) = "-1:-1:00"%string /\
  formatTime 360000 = "100:00:00"%string.
Proof. repeat split. Qed.

(** * The countdown never goes up *)

(** X20: in a world reached with non-negative durations, no step other
    than a call of [start] raises [remainingSeconds], and none other sets
    a timer running that was not: ticks, expiry steps, [cancel],
    [getState] and [onExpire] only let the countdown fall or stop. *)
Theorem only_start_raises_countdown (t0 : Z) (pre : list Input) (i : Input) :
  Forall start_nonneg pre ->
  is_start i = false ->
  let w := run pre (init t0) in
  (remainingSeconds (state (step w i)) <= remainingSeconds (state w))%number /\
  (isRunning (state (step w i)) = true -> isRunning (state w) = true).
Proof.
  intros Hpre Hi w.
  assert (Hin : within_total (state w)).
  { apply within_total_run; [assumption | apply within_total_idle]. }
  destruct Hin as [Hc _].
  pose proof (count_le_refl _ Hc) as Hrefl.
  pose proof (zero_le_count _ Hc) as Hzero.
  pose proof (step_state w i) as Hm.
  destruct i; cbn [state_moved is_start] in *; try discriminate;
    try (rewrite Hm; split; [exact Hrefl | auto]).
  - rewrite Hm. cbn [idle remainingSeconds isRunning].
    split; [exact Hzero | discriminate].
  - destruct Hm as [-> | ->]; [split; [exact Hrefl | auto]|].
    unfold after_tick.
    destruct (isRunning (state w)) eqn:E; [|split; [exact Hrefl | congruence]].
    destruct (number_leb (decrement (remainingSeconds (state w))) 0) eqn:Hr.
    + cbn [expired remainingSeconds isRunning]. split; [exact Hzero | auto].
    + cbn [with_remainingSeconds remainingSeconds isRunning].
      split; [|auto].
      destruct (count_decrement _ Hc) as [Hx | [_ Hmono]]; [congruence|].
      apply Hmono, Hrefl.
Qed.

Lemma only_start_raises_countdown_witness :
  let pre := [CallStart 1; Elapse 1000] in
  let w := run pre (init 0) in
  Forall start_nonneg pre /\ is_start (Fire 0%nat) = false /\
  (remainingSeconds (state (step w (Fire 0%nat))) <=
     remainingSeconds (state w))%number /\
  (isRunning (state (step w (Fire 0%nat))) = true ->
   isRunning (state w) = true).
Proof.
  intros pre w.
  assert (H1 : Forall start_nonneg pre) by (repeat constructor).
  assert (H2 : is_start (Fire 0%nat) = false) by reflexivity.
  exact (conj H1 (conj H2
           (only_start_raises_countdown 0 pre (Fire 0%nat) H1 H2))).
Defined.
